(** * Statement editor: parsing engine and renderer

    A shallow embedding of [statements/utils.py]: the amount-token parser,
    the date-line normaliser, the two statement parsers with the layout
    dispatcher, and the table renderer, followed by the properties of the
    specification that were checked against them.

    Modelling conventions.
    - A Python [str] is a list of Unicode code points ([text]).  Literals
      of the source are written [str "..."].
    - Python's [\s] / [str.isspace] is the full Unicode white-space set,
      and [\d] and the digits [float] reads are the decimal digits of
      every script (general category Nd of Unicode 14.0, the database
      of Python 3.11); [str.isdigit] accepts the other digits of that
      database as well.  The letters of [\w], [str.upper] and
      [str.lower] are modelled on the ASCII range.
    - A Python [float] is an IEEE 754 double: a finite one is kept as
      the rational it denotes, and every operation of the source on
      floats rounds to the nearest double, ties to even ([float]).
    - An exception is a value of [result]: [Raise e]. *)

From Stdlib Require Import Ascii String.
From Stdlib Require Import Bool Arith NArith ZArith QArith Lia List.
Import ListNotations.

Close Scope Q_scope.

(* ================================================================== *)
(** ** Python strings *)

Module Py.

Definition char := N.
Bind Scope N_scope with char.
Definition text := list char.

Definition str (s : string) : text :=
  List.map N_of_ascii (list_ascii_of_string s).

Arguments str _%_string.

Definition char_eqb (a b : char) : bool := N.eqb a b.

Fixpoint text_eqb (a b : text) : bool :=
  match a, b with
  | [], [] => true
  | x :: a', y :: b' => char_eqb x y && text_eqb a' b'
  | _, _ => false
  end.

(** Truth value of a string: non-empty. *)
Definition truthy (s : text) : bool :=
  match s with [] => false | _ => true end.

(** Truth value of a list: non-empty. *)
Definition truthy_list {A} (l : list A) : bool :=
  match l with [] => false | _ => true end.

Definition between (lo hi c : N) : bool := (N.leb lo c && N.leb c hi)%bool.

Definition is_digit (c : char) : bool := between 48 57 c.

(** The first code point of every run of ten decimal digits (general
    category Nd): the digits [0] to [9] of a script, in order. *)
Definition decimal_blocks : list N :=
  [48; 1632; 1776; 1984; 2406; 2534; 2662; 2790; 2918; 3046; 3174; 3302;
   3430; 3558; 3664; 3792; 3872; 4160; 4240; 6112; 6160; 6470; 6608; 6784;
   6800; 6992; 7088; 7232; 7248; 42528; 43216; 43264; 43472; 43504; 43600;
   44016; 65296; 66720; 68912; 69734; 69872; 69942; 70096; 70384; 70736;
   70864; 71248; 71360; 71472; 71904; 72016; 72784; 73040; 73120; 92768;
   92864; 93008; 120782; 120792; 120802; 120812; 120822; 123200; 123632;
   125264; 130032]%N.

(** The block of the digit [c], when [c] is a decimal digit. *)
Definition decimal_block (c : char) : option N :=
  find (fun b => between b (b + 9) c) decimal_blocks.

(** The class [\d], and the characters [float] reads as digits. *)
Definition is_decimal (c : char) : bool :=
  match decimal_block c with Some _ => true | None => false end.

(** The digit a decimal digit stands for. *)
Definition decimal_value (c : char) : Z :=
  match decimal_block c with
  | Some b => Z.of_N (c - b)
  | None => 0%Z
  end.
Definition is_upper (c : char) : bool := between 65 90 c.
Definition is_lower (c : char) : bool := between 97 122 c.
Definition is_alpha (c : char) : bool := (is_upper c || is_lower c)%bool.
Definition is_word (c : char) : bool :=
  (is_alpha c || is_decimal c || char_eqb c 95)%bool.

(** [str.isspace] for one code point; also the class [\s]. *)
Definition is_space (c : char) : bool :=
  (between 9 13 c || between 28 32 c || char_eqb c 133 || char_eqb c 160
   || char_eqb c 5760 || between 8192 8202 c || char_eqb c 8232
   || char_eqb c 8233 || char_eqb c 8239 || char_eqb c 8287
   || char_eqb c 12288)%bool.

Definition upper_char (c : char) : char := if is_lower c then (c - 32)%N else c.
Definition lower_char (c : char) : char := if is_upper c then (c + 32)%N else c.

Definition upper (s : text) : text := List.map upper_char s.
Definition lower (s : text) : text := List.map lower_char s.

Fixpoint startswith (p s : text) : bool :=
  match p, s with
  | [], _ => true
  | x :: p', y :: s' => char_eqb x y && startswith p' s'
  | _ :: _, [] => false
  end.

(** [s.startswith((p1, p2, ...))] *)
Definition startswith_any (ps : list text) (s : text) : bool :=
  existsb (fun p => startswith p s) ps.

(** [sub in s] *)
Fixpoint contains (sub s : text) : bool :=
  (startswith sub s ||
   match s with
   | [] => false
   | _ :: s' => contains sub s'
   end)%bool.

(** [s.replace(old, new)], for a non-empty [old] (every call of the
    source): left to right, non-overlapping.  [skip] counts the
    characters of a match still to be dropped. *)
Fixpoint replace_go (old new : text) (skip : nat) (s : text) : text :=
  match s with
  | [] => []
  | c :: t =>
      match skip with
      | S k => replace_go old new k t
      | O =>
          if startswith old s
          then new ++ replace_go old new (length old - 1) t
          else c :: replace_go old new 0 t
      end
  end.

Definition replace (old new s : text) : text :=
  match old with
  | [] => s
  | _ => replace_go old new 0 s
  end.

(** [s.split(sep)] for a non-empty [sep]: the pieces between the
    occurrences of [sep]; [cur] is the piece being read, reversed. *)
Fixpoint split_go (sep : text) (skip : nat) (cur : text) (s : text)
  : list text :=
  match s with
  | [] => [rev cur]
  | c :: t =>
      match skip with
      | S k => split_go sep k cur t
      | O =>
          if startswith sep s
          then rev cur :: split_go sep (length sep - 1) [] t
          else split_go sep 0 (c :: cur) t
      end
  end.

Definition split (sep s : text) : list text :=
  match sep with
  | [] => [s]
  | _ => split_go sep 0 [] s
  end.

Fixpoint lstrip (s : text) : text :=
  match s with
  | c :: t => if is_space c then lstrip t else s
  | [] => []
  end.

Definition rstrip (s : text) : text := rev (lstrip (rev s)).
Definition strip (s : text) : text := rstrip (lstrip s).

(** [s.split()]: the maximal runs of non-white-space characters. *)
Fixpoint words_go (cur : text) (s : text) : list text :=
  match s with
  | [] => match cur with [] => [] | _ => [rev cur] end
  | c :: t =>
      if is_space c
      then match cur with
           | [] => words_go [] t
           | _ => rev cur :: words_go [] t
           end
      else words_go (c :: cur) t
  end.

Definition words (s : text) : list text := words_go [] s.

(** The first run of non-white-space characters and what follows it. *)
Fixpoint span_word (s : text) : text * text :=
  match s with
  | [] => ([], [])
  | c :: t =>
      if is_space c then ([], s)
      else let (w, r) := span_word t in (c :: w, r)
  end.

(** [s.split(None, 1)] *)
Definition split_ws1 (s : text) : list text :=
  match lstrip s with
  | [] => []
  | s' =>
      let (w, r) := span_word s' in
      match lstrip r with
      | [] => [w]
      | r' => [w; r']
      end
  end.

(** [s.rsplit(None, 1)] *)
Definition rsplit_ws1 (s : text) : list text :=
  match split_ws1 (rev s) with
  | [w] => [rev w]
  | [w; r] => [rev r; rev w]
  | _ => []
  end.

(** Everything before the first occurrence of [c] and what follows
    it, when [c] occurs. *)
Fixpoint break_at (c : char) (s : text) : option (text * text) :=
  match s with
  | [] => None
  | x :: t =>
      if char_eqb x c then Some ([], t)
      else match break_at c t with
           | Some (a, b) => Some (x :: a, b)
           | None => None
           end
  end.

(** [s.rsplit(" ", 1)[0]] *)
Definition rsplit_space_head (s : text) : text :=
  match break_at 32 (rev s) with
  | Some (_, before) => rev before
  | None => s
  end.

(** [sep.join(parts)] *)
Fixpoint join (sep : text) (parts : list text) : text :=
  match parts with
  | [] => []
  | [p] => p
  | p :: rest => p ++ sep ++ join sep rest
  end.

(** [s[:n]] and [s[n:]] for [n >= 0]. *)
Definition slice_to (n : nat) (s : text) : text := firstn n s.
Definition slice_from (n : nat) (s : text) : text := skipn n s.
Definition slice (i j : nat) (s : text) : text := firstn (j - i) (skipn i s).

(** The digits that are not decimal digits (superscripts, circled
    digits and the like), as ranges of code points. *)
Definition other_digits : list (N * N) :=
  [(178, 179); (185, 185); (4969, 4977); (6618, 6618); (8304, 8304);
   (8308, 8313); (8320, 8329); (9312, 9320); (9332, 9340); (9352, 9360);
   (9450, 9450); (9461, 9469); (9471, 9471); (10102, 10110);
   (10112, 10120); (10122, 10130); (68160, 68163); (69216, 69224);
   (69714, 69722); (127232, 127242)]%N.

(** [s.isdigit()] *)
Definition isdigit (s : text) : bool :=
  (truthy s
   && forallb
        (fun c =>
           is_decimal c
           || existsb (fun r => between (fst r) (snd r) c) other_digits)
        s)%bool.

(** [s.rfind(sub)]: the last position at which [sub] starts. *)
Fixpoint rfind_go (sub : text) (i : nat) (s : text) (last : option nat)
  : option nat :=
  let last' := if startswith sub s then Some i else last in
  match s with
  | [] => last'
  | _ :: t => rfind_go sub (S i) t last'
  end.

Definition rfind (sub s : text) : option nat := rfind_go sub 0 s None.

(** [parts[-1]] of a non-empty list. *)
Definition last_piece (parts : list text) : text := List.last parts [].

End Py.

Import Py.

(* ================================================================== *)
(** ** Regular expressions of Python's [re]

    A backtracking matcher written as a list of successes: [run r s]
    lists the states in which [r] can stop when started in [s], in the
    order in which [re] tries them, so that the match [re] reports is
    the head of the list.  The flag [(?i)] is rendered by the
    case-insensitive literals [lit_i]. *)

Module Re.

Record mstate : Type := MState
  { m_pos : nat;                          (* offset in the subject *)
    m_prev : option char;                 (* the character before it *)
    m_rest : text;                        (* what is left to read *)
    m_caps : list (nat * (nat * nat)) }.  (* group |-> (start, end) *)

Inductive re : Type :=
| Eps
| Cls (p : char -> bool)
| Seq (a b : re)
| Alt (a b : re)
| Star (a : re)            (* a*  *)
| StarLazy (a : re)        (* a*? *)
| Grp (n : nat) (a : re)   (* capturing group number n *)
| Bol                      (* ^  *)
| Eol                      (* $  *)
| WordB                    (* \b *)
| Ahead (a : re).          (* (?=a) *)

Definition advance (s : mstate) (c : char) (t : text) : mstate :=
  MState (S (m_pos s)) (Some c) t (m_caps s).

Definition set_cap (n i j : nat) (s : mstate) : mstate :=
  MState (m_pos s) (m_prev s) (m_rest s) ((n, (i, j)) :: m_caps s).

Definition is_word_opt (c : option char) : bool :=
  match c with Some x => is_word x | None => false end.

(** The iterations of [a*]: as many rounds of [a] as possible first,
    each round consuming at least one character; [n] bounds the number
    of rounds by the length of what is left to read. *)
Fixpoint star_loop (f : mstate -> list mstate) (n : nat) (s : mstate)
  : list mstate :=
  match n with
  | O => [s]
  | S n' =>
      flat_map
        (fun s' => if m_pos s <? m_pos s' then star_loop f n' s' else [])
        (f s) ++ [s]
  end.

(** The iterations of [a*?]: as few rounds as possible first. *)
Fixpoint lazy_loop (f : mstate -> list mstate) (n : nat) (s : mstate)
  : list mstate :=
  match n with
  | O => [s]
  | S n' =>
      s :: flat_map
        (fun s' => if m_pos s <? m_pos s' then lazy_loop f n' s' else [])
        (f s)
  end.

Fixpoint run (r : re) (s : mstate) : list mstate :=
  match r with
  | Eps => [s]
  | Cls p =>
      match m_rest s with
      | c :: t => if p c then [advance s c t] else []
      | [] => []
      end
  | Seq a b => flat_map (run b) (run a s)
  | Alt a b => run a s ++ run b s
  | Star a => star_loop (run a) (S (length (m_rest s))) s
  | StarLazy a => lazy_loop (run a) (S (length (m_rest s))) s
  | Grp n a => map (fun s' => set_cap n (m_pos s) (m_pos s') s') (run a s)
  | Bol => if m_pos s =? 0 then [s] else []
  | Eol =>
      match m_rest s with
      | [] => [s]
      | [c] => if char_eqb c 10 then [s] else []
      | _ => []
      end
  | WordB =>
      if xorb (is_word_opt (m_prev s)) (is_word_opt (hd_error (m_rest s)))
      then [s] else []
  | Ahead a => match run a s with [] => [] | _ :: _ => [s] end
  end.

(** *** Derived forms *)

Definition any_of (cs : text) : re := Cls (fun c => existsb (char_eqb c) cs).
Definition chr (c : char) : re := Cls (char_eqb c).
Definition chr_i (c : char) : re :=
  Cls (fun x => char_eqb (upper_char x) (upper_char c)).

Fixpoint seqs (rs : list re) : re :=
  match rs with
  | [] => Eps
  | [r] => r
  | r :: rs' => Seq r (seqs rs')
  end.

Definition lit (s : text) : re := seqs (map chr s).
Definition lit_i (s : text) : re := seqs (map chr_i s).

Definition digit : re := Cls is_decimal.                  (* \d *)
Definition digit09 : re := Cls is_digit.                  (* [0-9] *)
Definition space : re := Cls is_space.                    (* \s *)
Definition alpha : re := Cls is_alpha.                    (* [A-Za-z] *)
Definition dot : re := Cls (fun c => negb (char_eqb c 10)). (* . *)

Definition opt (r : re) : re := Alt r Eps.                (* r? *)
Definition plus (r : re) : re := Seq r (Star r).          (* r+ *)

Fixpoint times (n : nat) (r : re) : re :=                 (* r{n} *)
  match n with
  | O => Eps
  | 1 => r
  | S n' => Seq r (times n' r)
  end.

Fixpoint upto (n : nat) (r : re) : re :=                  (* r{0,n} *)
  match n with
  | O => Eps
  | S n' => opt (Seq r (upto n' r))
  end.

Definition rep (lo hi : nat) (r : re) : re :=             (* r{lo,hi} *)
  match lo with
  | O => upto hi r
  | _ => Seq (times lo r) (upto (hi - lo) r)
  end.

Definition at_least (lo : nat) (r : re) : re :=           (* r{lo,} *)
  match lo with
  | O => Star r
  | _ => Seq (times lo r) (Star r)
  end.

(** *** The functions of the module [re] *)

Definition start_state (pos : nat) (prev : option char) (rest : text)
  : mstate := MState pos prev rest [].

(** [re.match(r, s)] *)
Definition match_ (r : re) (s : text) : option mstate :=
  hd_error (run r (start_state 0 None s)).

Definition matches (r : re) (s : text) : bool :=
  match match_ r s with Some _ => true | None => false end.

(** The leftmost match starting at or after the given position: its
    start offset and final state. *)
Fixpoint search_at (r : re) (pos : nat) (prev : option char) (rest : text)
  : option (nat * mstate) :=
  match hd_error (run r (start_state pos prev rest)) with
  | Some e => Some (pos, e)
  | None =>
      match rest with
      | [] => None
      | c :: t => search_at r (S pos) (Some c) t
      end
  end.

(** [re.search(r, s)] *)
Definition search (r : re) (s : text) : option (nat * mstate) :=
  search_at r 0 None s.

(** [re.finditer(r, s)]: successive non-overlapping matches. *)
Fixpoint finditer_go (r : re) (fuel pos : nat) (prev : option char)
  (rest : text) : list (nat * mstate) :=
  match fuel with
  | O => []
  | S fuel' =>
      match search_at r pos prev rest with
      | None => []
      | Some (i, e) =>
          (i, e) ::
          (if i <? m_pos e
           then finditer_go r fuel' (m_pos e) (m_prev e) (m_rest e)
           else match m_rest e with
                | [] => []
                | c :: t => finditer_go r fuel' (S (m_pos e)) (Some c) t
                end)
      end
  end.

Definition finditer (r : re) (s : text) : list (nat * mstate) :=
  finditer_go r (S (length s)) 0 None s.

(** [m.start()], [m.end()], [m.group(0)], [m.group(n)] *)
Definition m_start (m : nat * mstate) : nat := fst m.
Definition m_end (m : nat * mstate) : nat := m_pos (snd m).

Definition group0 (s : text) (m : nat * mstate) : text :=
  slice (m_start m) (m_end m) s.

Fixpoint cap_lookup (n : nat) (caps : list (nat * (nat * nat)))
  : option (nat * nat) :=
  match caps with
  | [] => None
  | (k, ij) :: rest => if k =? n then Some ij else cap_lookup n rest
  end.

Definition group (n : nat) (s : text) (e : mstate) : text :=
  match cap_lookup n (m_caps e) with
  | Some (i, j) => slice i j s
  | None => []
  end.

(** [re.findall(r, s)] for a pattern without capturing groups. *)
Definition findall (r : re) (s : text) : list text :=
  map (group0 s) (finditer r s).

Fixpoint sub_build (s : text) (last : nat) (ms : list (nat * mstate))
  (repl : mstate -> text) : text :=
  match ms with
  | [] => slice_from last s
  | m :: ms' =>
      slice last (m_start m) s ++ repl (snd m)
        ++ sub_build s (m_end m) ms' repl
  end.

(** [re.sub(r, repl, s)]; the replacement may use the groups. *)
Definition sub (r : re) (repl : mstate -> text) (s : text) : text :=
  sub_build s 0 (finditer r s) repl.

(** [re.sub(r, repl, s, count=1)] *)
Definition sub1 (r : re) (repl : mstate -> text) (s : text) : text :=
  sub_build s 0 (firstn 1 (finditer r s)) repl.

Fixpoint split_build (s : text) (last : nat) (ms : list (nat * mstate))
  : list text :=
  match ms with
  | [] => [slice_from last s]
  | m :: ms' => slice last (m_start m) s :: split_build s (m_end m) ms'
  end.

(** [re.split(r, s)] for a pattern without capturing groups. *)
Definition split (r : re) (s : text) : list text :=
  split_build s 0 (finditer r s).

End Re.

(* ================================================================== *)
(** ** Exceptions *)

Inductive exn : Type :=
| ValueError (msg : string)
| NameError (name : string).

Inductive result (A : Type) : Type :=
| Return (a : A)
| Raise (e : exn).

Arguments Return {A} a.
Arguments Raise {A} e.

Definition bind {A B} (m : result A) (k : A -> result B) : result B :=
  match m with
  | Return a => k a
  | Raise e => Raise e
  end.

Notation "x <- m ;; k" := (bind m (fun x => k))
  (at level 61, m at next level, right associativity).
Notation "' p <- m ;; k" := (bind m (fun x => let 'p := x in k))
  (at level 61, p pattern, m at next level, right associativity).

(** A loop whose body may raise: [for x in xs: acc = f(acc, x)]. *)
Fixpoint foldM {A B} (f : A -> B -> result A) (acc : A) (xs : list B)
  : result A :=
  match xs with
  | [] => Return acc
  | x :: xs' => acc' <- f acc x ;; foldM f acc' xs'
  end.

(** [out = []; for x in xs: out.append(f(x))] *)
Fixpoint mapM {A B} (f : A -> result B) (xs : list A) : result (list B) :=
  match xs with
  | [] => Return []
  | x :: xs' => y <- f x ;; ys <- mapM f xs' ;; Return (y :: ys)
  end.

(** [try: body / except Exception: handler] *)
Definition try_except {A} (body : result A) (handler : exn -> result A)
  : result A :=
  match body with
  | Return a => Return a
  | Raise e => handler e
  end.

(* ================================================================== *)
(** ** Python floats

    A [float] is an IEEE 754 double.  A finite double is kept as the
    rational it denotes, in lowest terms; [Finite 0] is [0.0] and
    [NegZero] is [-0.0].  The arithmetic the source does on floats is
    written out: the result of an operation is the double nearest to
    the exact result, ties to the even mantissa, and an exact result
    too large for a double is an infinity. *)

Inductive float : Type :=
| Finite (q : Q)
| NegZero
| Infinity (negative : bool)
| NaN.

Coercion Finite : Q >-> float.

(** The nearest integer to [a / d], ties to the even one ([a >= 0],
    [d > 0]). *)
Definition round_half_even (a d : Z) : Z :=
  let f := (a / d)%Z in
  let r := (a mod d)%Z in
  match (2 * r ?= d)%Z with
  | Lt => f
  | Gt => (f + 1)%Z
  | Eq => if Z.even f then f else (f + 1)%Z
  end.

(** Where the leading bit of [n / d] stands, for positive [n] and
    [d]: the [e] with [2 ^ e <= n / d < 2 ^ (e + 1)]. *)
Definition leading_exponent (n d : Z) : Z :=
  let e := (Z.log2 n - Z.log2 d)%Z in
  if (0 <=? e)%Z
  then if (d * 2 ^ e <=? n)%Z then e else (e - 1)%Z
  else if (d <=? n * 2 ^ (- e))%Z then e else (e - 1)%Z.

(** The double nearest to [n / d], for positive [n] and [d]: a
    mantissa of 53 bits, or fewer below [2 ^ -1022], in units of
    [2 ^ unit]; [None] when the nearest value is out of range. *)
Definition nearest_magnitude (n d : Z) : option Q :=
  let unit := Z.max (leading_exponent n d - 52) (-1074) in
  if (0 <=? unit)%Z
  then
    let m := round_half_even n (d * 2 ^ unit) in
    if (2 ^ 1024 <=? m * 2 ^ unit)%Z then None
    else Some (inject_Z (m * 2 ^ unit))
  else
    let m := round_half_even (n * 2 ^ (- unit)) d in
    Some (Qred (Qmake m (Z.to_pos (2 ^ (- unit))))).

(** The double nearest to a rational that is not zero; a magnitude
    that rounds to zero keeps the sign. *)
Definition nearest_double (q : Q) : float :=
  let negative := (Qnum q <? 0)%Z in
  match nearest_magnitude (Z.abs (Qnum q)) (Zpos (Qden q)) with
  | None => Infinity negative
  | Some r =>
      if Qeq_bool r 0 then (if negative then NegZero else Finite 0%Q)
      else Finite (if negative then Qopp r else r)
  end.

(** [-x] *)
Definition fneg (x : float) : float :=
  match x with
  | Finite q => if Qeq_bool q 0 then NegZero else Finite (Qopp q)
  | NegZero => Finite 0%Q
  | Infinity negative => Infinity (negb negative)
  | NaN => NaN
  end.

(** [x + y] *)
Definition fadd (x y : float) : float :=
  match x, y with
  | NaN, _ | _, NaN => NaN
  | Infinity a, Infinity b => if Bool.eqb a b then Infinity a else NaN
  | Infinity a, _ => Infinity a
  | _, Infinity b => Infinity b
  | NegZero, _ => y
  | _, NegZero => x
  | Finite a, Finite b =>
      if Qeq_bool (a + b) 0 then Finite 0%Q else nearest_double (a + b)
  end.

(** [x - y] *)
Definition fsub (x y : float) : float := fadd x (fneg y).

(** [x == 0]: the truth value of a float is its negation. *)
Definition is_zero (x : float) : bool :=
  match x with
  | Finite q => Qeq_bool q 0
  | NegZero => true
  | _ => false
  end.

(** [float(x or 0)] and [x or 0.0] *)
Definition or_zero (x : float) : float :=
  if is_zero x then Finite 0%Q else x.

(** The double a decimal literal denotes: sign, digits as a number,
    and how many of the digits follow the point. *)
Definition float_of_decimal (negative : bool) (digits : Z) (places : nat)
  : float :=
  if (digits =? 0)%Z then (if negative then NegZero else Finite 0%Q)
  else
    nearest_double
      (Qmake (if negative then (- digits)%Z else digits)
         (Z.to_pos (10 ^ Z.of_nat places))).

(* ================================================================== *)
(** ** AmountToken: [_parse_amount] *)

Definition digits_val (ds : text) : Z :=
  fold_left (fun acc c => (acc * 10 + decimal_value c)%Z) ds 0%Z.

(** The leading characters that satisfy [p], and the rest. *)
Fixpoint span (p : char -> bool) (s : text) : text * text :=
  match s with
  | c :: t =>
      if p c then let (a, b) := span p t in (c :: a, b) else ([], s)
  | [] => ([], [])
  end.

(** [float(s)] on plain decimal notation: optional sign, decimal
    digits of any script with at most one point and at least one
    digit.  The other notations [float] accepts (exponents,
    underscores, [inf], [nan]) need a character that is not a digit, a
    point or a sign; the one call of the source passes a string from
    which such characters have been removed. *)
Definition py_float (s : text) : result float :=
  let s := strip s in
  let '(neg, body) :=
    match s with
    | 45%N :: t => (true, t)
    | 43%N :: t => (false, t)
    | _ => (false, s)
    end in
  let '(ip, r) := span is_decimal body in
  let '(fp, ok) :=
    match r with
    | [] => ([], true)
    | 46%N :: r' =>
        let '(fp, r'') := span is_decimal r' in
        (fp, negb (truthy r''))
    | _ => ([], false)
    end in
  if (ok && (truthy ip || truthy fp))%bool
  then Return (float_of_decimal neg (digits_val (ip ++ fp)) (length fp))
  else Raise (ValueError "could not convert string to float").

(** [x in (a, b, ...)] on strings *)
Definition text_in (x : text) (xs : list text) : bool :=
  existsb (text_eqb x) xs.

(** The class [[^\d\.-]]. *)
Definition not_amount_char (c : char) : bool :=
  negb (is_decimal c || char_eqb c 46 || char_eqb c 45).

Definition _parse_amount (text : text) : result float :=
  if negb (truthy text) then Return (Finite 0%Q)
  else
    let s := upper text in
    let s := replace (str "DR") [] (replace (str "CR") [] s) in
    let s := replace (str ",") [] s in
    let s := replace [160%N] (str " ") s in
    let s := replace (str ")") [] (replace (str "(") (str "-") s) in
    let s := strip (Re.sub (Re.Cls not_amount_char) (fun _ => []) s) in
    try_except
      (if negb (text_in s [[]; str "-"; str "."])
       then py_float s
       else Return (Finite 0%Q))
      (fun _ => Return (Finite 0%Q)).

(* ================================================================== *)
(** ** LineNormalizer: [_normalize_multiline_dates] *)

Definition day_mon_re : Re.re :=       (* ^\d{1,2}\s+[A-Za-z]{3}$ *)
  Re.seqs [Re.Bol; Re.rep 1 2 Re.digit; Re.plus Re.space;
           Re.times 3 Re.alpha; Re.Eol].
Definition year_re : Re.re :=          (* ^\d{4}$ *)
  Re.seqs [Re.Bol; Re.times 4 Re.digit; Re.Eol].
Definition short_day_re : Re.re :=     (* ^\d{1,2}$ *)
  Re.seqs [Re.Bol; Re.rep 1 2 Re.digit; Re.Eol].
Definition short_mon_re : Re.re :=     (* ^[A-Za-z]{3}$ *)
  Re.seqs [Re.Bol; Re.times 3 Re.alpha; Re.Eol].

(** The [while i < len(lines)] loop, with the list from index [i] on as
    its argument: [i + 1 < len(lines)] says that it has a second
    element, [i + 2 < len(lines)] a third. *)
Fixpoint _normalize_multiline_dates (lines : list text) : list text :=
  match lines with
  | [] => []
  | line :: rest1 =>
      match rest1 with
      | [] => [line]
      | next1 :: rest2 =>
          if (Re.matches day_mon_re line && Re.matches year_re next1)%bool
          then (line ++ str " " ++ next1) :: _normalize_multiline_dates rest2
          else
            match rest2 with
            | [] => line :: _normalize_multiline_dates rest1
            | next2 :: rest3 =>
                if (Re.matches short_day_re line
                    && Re.matches short_mon_re next1
                    && Re.matches year_re next2)%bool
                then (line ++ str " " ++ next1 ++ str " " ++ next2)
                       :: _normalize_multiline_dates rest3
                else line :: _normalize_multiline_dates rest1
            end
      end
  end.

(* ================================================================== *)
(** ** Data model *)

(** Layout constants *)
Definition SBI_POST_VALUE : text := str "SBI_POST_VALUE".
Definition SBI_TXN_VALUE : text := str "SBI_TXN_VALUE".
Definition SBI_DATE_DETAILS : text := str "SBI_DATE_DETAILS".

(** The dictionary [meta] while the lines are scanned. *)
Record MetaFields : Type := mkMetaFields
  { mf_account_name : text;
    mf_account_number : text;
    mf_period : text;
    mf_opening_balance : float }.

(** The dictionary [meta] of a parsed statement. *)
Record StatementMetadata : Type := mkMeta
  { account_name : text;
    account_number : text;
    period : text;
    opening_balance : float;
    bank : text;
    layout : text }.

Record TransactionRecord : Type := mkTxn
  { date : text;
    value_date : text;
    description : text;
    description_line1 : text;
    description_line2 : text;
    cheque_ref : text;
    debit : float;
    credit : float;
    balance : float;
    orig_debit_text : text;
    orig_credit_text : text;
    orig_balance_text : text }.

Record ParsedStatement : Type := mkParsed
  { meta : StatementMetadata;
    transactions : list TransactionRecord }.

(* ================================================================== *)
(** ** Line extraction: [_extract_all_lines]

    The PDF reader is outside the program; a document is modelled by
    the text [page.extract_text()] returns for each of its pages. *)

Definition document := list text.

Definition is_linebreak (c : char) : bool :=
  (between 10 13 c || between 28 30 c || char_eqb c 133
   || char_eqb c 8232 || char_eqb c 8233)%bool.

(** [text.splitlines()]; [cur] is the line being read, reversed, and
    [after_cr] tells that the previous character was a carriage
    return, which takes a following line feed with it. *)
Fixpoint splitlines_go (cur : text) (after_cr : bool) (s : text)
  : list text :=
  match s with
  | [] => match cur with [] => [] | _ => [rev cur] end
  | c :: t =>
      if (after_cr && char_eqb c 10)%bool then splitlines_go cur false t
      else if is_linebreak c
           then rev cur :: splitlines_go [] (char_eqb c 13) t
           else splitlines_go (c :: cur) false t
  end.

Definition splitlines (s : text) : list text := splitlines_go [] false s.

Definition _extract_all_lines (file_obj : document) : list text :=
  flat_map
    (fun page_text => filter truthy (map strip (splitlines page_text)))
    file_obj.

(* ================================================================== *)
(** ** MetadataExtractor: the first loop of both parsers *)

(** [\d{1,3}(?:,\d{3})*\.\d{2}(?:CR|DR)?] *)
Definition amount_token_re : Re.re :=
  Re.seqs [Re.rep 1 3 Re.digit;
           Re.Star (Re.Seq (Re.lit (str ",")) (Re.times 3 Re.digit));
           Re.lit (str "."); Re.times 2 Re.digit;
           Re.opt (Re.Alt (Re.lit (str "CR")) (Re.lit (str "DR")))].

Definition honorifics : list text :=
  [str "Mrs."; str "Mr."; str "M/s"; str "Ms."].

Definition meta_init : MetaFields := mkMetaFields [] [] [] 0%Q.

Definition meta_step (m : MetaFields) (line : text) : result MetaFields :=
  let m :=
    if startswith_any honorifics line
    then mkMetaFields line (mf_account_number m) (mf_period m)
           (mf_opening_balance m)
    else m in
  let m :=
    if contains (str "Account No") line
    then mkMetaFields (mf_account_name m)
           (strip (last_piece (split (str "Account No") line)))
           (mf_period m) (mf_opening_balance m)
    else m in
  let m :=
    if contains (str "Statement From") line
    then mkMetaFields (mf_account_name m) (mf_account_number m)
           (strip (replace (str ":") []
                     (last_piece (split (str "Statement From") line))))
           (mf_opening_balance m)
    else m in
  if startswith_any [str "BROUGHT FORWARD"; str "BALANCE B/F"] (upper line)
  then
    match rev (Re.findall amount_token_re line) with
    | last_tok :: _ =>
        v <- _parse_amount last_tok ;;
        Return (mkMetaFields (mf_account_name m) (mf_account_number m)
                  (mf_period m) v)
    | [] => Return m
    end
  else Return m.

Definition scan_meta (lines : list text) : result MetaFields :=
  foldM meta_step meta_init lines.

(* ================================================================== *)
(** ** TransactionSegmenter, PostValue variant *)

(** [\d{2}[-/]\d{2}[-/]\d{4}|\d{1,2}\s+[A-Za-z]{3}\s+\d{4}] *)
Definition post_date_tok : Re.re :=
  Re.Alt
    (Re.seqs [Re.times 2 Re.digit; Re.any_of (str "-/");
              Re.times 2 Re.digit; Re.any_of (str "-/");
              Re.times 4 Re.digit])
    (Re.seqs [Re.rep 1 2 Re.digit; Re.plus Re.space;
              Re.times 3 Re.alpha; Re.plus Re.space;
              Re.times 4 Re.digit]).

(** [^(date)\s+(date)] *)
Definition date_line_pattern : Re.re :=
  Re.seqs [Re.Bol; Re.Grp 1 post_date_tok; Re.plus Re.space;
           Re.Grp 2 post_date_tok].

Record RawBlock : Type := mkRaw
  { rb_date : text;
    rb_value_date : text;
    rb_lines : list text }.

(** The variables of the segmentation loop. *)
Record SegState : Type := mkSeg
  { header_seen : bool;
    in_table : bool;
    current : option RawBlock;
    transactions_raw : list RawBlock }.

Definition seg_init : SegState := mkSeg false false None [].

(** [if current: transactions_raw.append(current)] *)
Definition flush (current : option RawBlock) (raw : list RawBlock)
  : list RawBlock :=
  match current with
  | Some c => raw ++ [c]
  | None => raw
  end.

(** One round of [for line in lines]. *)
Definition seg_step (st : SegState) (line : text) : SegState :=
  let u := upper line in
  if (contains (str "POST DATE") u && contains (str "VALUE DATE") u
      && contains (str "DESCRIPTION") u)%bool
  then mkSeg true (in_table st) (current st) (transactions_raw st)
  else if (header_seen st
           && (contains (str "DEBIT") u && contains (str "CREDIT") u
               && contains (str "BALANCE") u))%bool
  then mkSeg (header_seen st) true (current st) (transactions_raw st)
  else if negb (in_table st) then st
  else
    match Re.match_ date_line_pattern line with
    | Some m =>
        let raw := flush (current st) (transactions_raw st) in
        let tail := strip (slice_from (Re.m_pos m) line) in
        let block :=
          mkRaw (Re.group 1 line m) (Re.group 2 line m)
                (if truthy tail then [tail] else []) in
        mkSeg (header_seen st) (in_table st) (Some block) raw
    | None =>
        if startswith (str "page") (lower line) then st
        else
          match current st with
          | Some c =>
              mkSeg (header_seen st) (in_table st)
                (Some (mkRaw (rb_date c) (rb_value_date c)
                         (rb_lines c ++ [line])))
                (transactions_raw st)
          | None => st
          end
    end.

Definition post_value_segment (lines : list text) : list RawBlock :=
  let st := fold_left seg_step lines seg_init in
  flush (current st) (transactions_raw st).

(* ================================================================== *)
(** ** TransactionClassifier, PostValue variant *)

(** [\||U+FFFE|\uFFFD|\uFFFE|\/]: the bar, the slash and two
    replacement characters of the text extraction. *)
Definition post_sep_re : Re.re :=
  Re.Alt (Re.chr 124)
    (Re.Alt (Re.chr 65534)
       (Re.Alt (Re.chr 65533) (Re.Alt (Re.chr 65534) (Re.chr 47)))).

Definition post_debit_keys : list text :=
  [str "WDL"; str "UPI/DR"; str "IMPS/DR"; str "ATM WDL"; str "POS/";
   str "/DR/"].

(** [(m.group(0), m.start(), m.end())] for each match *)
Definition amount_spans (r : Re.re) (s : text) : list (text * nat * nat) :=
  map (fun m => (Re.group0 s m, Re.m_start m, Re.m_end m)) (Re.finditer r s).

(** [line1], a line feed and [line2] when [line2] is not empty, stripped. *)
Definition make_description (line1 line2 : text) : text :=
  strip (line1 ++ (if truthy line2 then 10%N :: line2 else [])).

Definition post_value_block (block : RawBlock) : result TransactionRecord :=
  let date := rb_date block in
  let value_date := rb_value_date block in
  let merged := join (str " ") (rb_lines block) in
  let merged :=
    strip (Re.sub (Re.plus Re.space) (fun _ => str " ") merged) in
  let amounts := amount_spans amount_token_re merged in
  match rev amounts with
  | [] =>
      Return (mkTxn date value_date (make_description [] []) [] [] []
                0%Q 0%Q 0%Q [] [] [])
  | (balance_tok, b_start, b_end) :: before =>
      balance <- _parse_amount balance_tok ;;
      let '(amt_tok, a_start) :=
        match before with
        | (tok, a, _) :: _ => (tok, a)       (* amounts[-2] *)
        | [] => (balance_tok, b_start)       (* amounts[0] *)
        end in
      let desc := strip (slice_to a_start merged) in
      let parts := filter truthy (map strip (Re.split post_sep_re desc)) in
      let '(desc_line1, desc_line2) :=
        match parts with
        | p0 :: ps =>
            (p0, if 1 <? length parts then join (str " ") ps else [])
        | [] =>
            match split_ws1 desc with
            | [] => ([], [])
            | [p0] => (p0, [])
            | p0 :: p1 :: _ => (p0, p1)
            end
        end in
      let desc_upper := upper (desc_line1 ++ str " " ++ desc_line2) in
      let is_debit :=
        existsb (fun k => contains k desc_upper) post_debit_keys in
      '(debit, credit) <-
        (if is_debit
         then (v <- _parse_amount amt_tok ;; Return (v, Finite 0%Q))
         else (v <- _parse_amount amt_tok ;; Return (Finite 0%Q, v))) ;;
      Return (mkTxn date value_date (make_description desc_line1 desc_line2)
                desc_line1 desc_line2 [] debit credit balance
                [] [] balance_tok)
  end.

Definition _parse_sbi_post_value (file_obj : document)
  : result ParsedStatement :=
  let lines := _extract_all_lines file_obj in
  let lines := _normalize_multiline_dates lines in
  m <- scan_meta lines ;;
  let transactions_raw := post_value_segment lines in
  transactions <- mapM post_value_block transactions_raw ;;
  Return (mkParsed
            (mkMeta (mf_account_name m) (mf_account_number m) (mf_period m)
               (mf_opening_balance m) (str "SBI") SBI_POST_VALUE)
            transactions).

(* ================================================================== *)
(** ** TransactionSegmenter, TxnValue variant *)

(** [(?:\d{1,2}\s+[A-Za-z]{3}\s+\d{4}|\d{1,2}[-/]\d{1,2}[-/]\d{4})] *)
Definition date_frag : Re.re :=
  Re.Alt
    (Re.seqs [Re.rep 1 2 Re.digit; Re.plus Re.space;
              Re.times 3 Re.alpha; Re.plus Re.space;
              Re.times 4 Re.digit])
    (Re.seqs [Re.rep 1 2 Re.digit; Re.any_of (str "-/");
              Re.rep 1 2 Re.digit; Re.any_of (str "-/");
              Re.times 4 Re.digit]).

(** [^\s*(?P<d1>date)\s+(?P<d2>date)\s*(?P<rest>ANY)$] where [ANY] is
    the dot starred; the groups [d1], [d2] and [rest] are numbered 1, 2
    and 3. *)
Definition row_start : Re.re :=
  Re.seqs [Re.Bol; Re.Star Re.space; Re.Grp 1 date_frag;
           Re.plus Re.space; Re.Grp 2 date_frag; Re.Star Re.space;
           Re.Grp 3 (Re.Star Re.dot); Re.Eol].

(** [^\s*date\b], case-insensitive *)
Definition permissive : Re.re :=
  Re.seqs [Re.Bol; Re.Star Re.space; date_frag; Re.WordB].

Record TxnBlock : Type := mkTxnBlock
  { tb_date : text;
    tb_value_date : text;
    tb_text : text }.

Definition primary_stop (line : text) : bool :=
  let up := upper line in
  (startswith (str "PAGE NO") up || contains (str "CLOSING BALANCE") up
   || contains (str "SUMMARY") up || startswith (str "TOTAL") up)%bool.

Definition permissive_stop (line : text) : bool :=
  let up := upper line in
  (startswith (str "PAGE NO") up || contains (str "CLOSING BALANCE") up
   || contains (str "SUMMARY") up)%bool.

(** The first pair of nested [while] loops.  The argument of the
    outer function is [lines[i:]], that of the inner one [lines[j:]];
    leaving the inner loop continues the outer one at [i = j]. *)
Fixpoint segment_primary (lines : list text) : list TxnBlock :=
  match lines with
  | [] => []
  | line :: after =>
      match Re.match_ row_start line with
      | Some m =>
          let d1 := strip (Re.group 1 line m) in
          let d2 := strip (Re.group 2 line m) in
          let rest := strip (Re.group 3 line m) in
          (fix inner (block : text) (from_j : list text) {struct from_j}
             : list TxnBlock :=
             match from_j with
             | [] => [mkTxnBlock d1 d2 (strip block)]
             | lj :: after_j =>
                 if Re.matches row_start lj
                 then mkTxnBlock d1 d2 (strip block)
                        :: segment_primary from_j
                 else if primary_stop lj
                 then mkTxnBlock d1 d2 (strip block)
                        :: segment_primary from_j
                 else inner (block ++ str " " ++ lj) after_j
             end) rest after
      | None => segment_primary after
      end
  end.

(** The second pair of loops, run when the first found nothing. *)
Fixpoint segment_permissive (lines : list text) : list TxnBlock :=
  match lines with
  | [] => []
  | line :: after =>
      if Re.matches permissive line
      then
        match words line with
        | d1 :: d2 :: more =>
            (fix inner (rest : text) (from_j : list text) {struct from_j}
               : list TxnBlock :=
               match from_j with
               | [] => [mkTxnBlock d1 d2 (strip rest)]
               | lj :: after_j =>
                   if Re.matches permissive lj
                   then mkTxnBlock d1 d2 (strip rest)
                          :: segment_permissive from_j
                   else if permissive_stop lj
                   then mkTxnBlock d1 d2 (strip rest)
                          :: segment_permissive from_j
                   else inner (rest ++ str " " ++ lj) after_j
               end) (join (str " ") more) after
        | _ => segment_permissive after
        end
      else segment_permissive after
  end.

Definition txn_value_segment (lines : list text) : list TxnBlock :=
  match segment_primary lines with
  | [] => segment_permissive lines
  | raw => raw
  end.

(* ================================================================== *)
(** ** TransactionClassifier, TxnValue variant *)

Definition cr_dr_suffix : Re.re :=                  (* (?:CR|DR)? *)
  Re.opt (Re.Alt (Re.lit (str "CR")) (Re.lit (str "DR"))).

Definition decimals_1_2 : Re.re :=                  (* (?:\.\d{1,2})? *)
  Re.opt (Re.Seq (Re.lit (str ".")) (Re.rep 1 2 Re.digit)).

(** [\d{1,3}(?:,\d{3})*(?:\.\d{1,2})?(?:CR|DR)?|\d+(?:\.\d{1,2})?(?:CR|DR)?] *)
Definition txn_amt_re : Re.re :=
  Re.Alt
    (Re.seqs [Re.rep 1 3 Re.digit;
              Re.Star (Re.Seq (Re.lit (str ",")) (Re.times 3 Re.digit));
              decimals_1_2; cr_dr_suffix])
    (Re.seqs [Re.plus Re.digit; decimals_1_2; cr_dr_suffix]).

(** [(?i)(UPI\s*DR|UPIDR)] and [(?i)(UPI\s*CR|UPICR)] *)
Definition upi_dr_re : Re.re :=
  Re.Grp 1 (Re.Alt
    (Re.seqs [Re.lit_i (str "UPI"); Re.Star Re.space; Re.lit_i (str "DR")])
    (Re.lit_i (str "UPIDR"))).
Definition upi_cr_re : Re.re :=
  Re.Grp 1 (Re.Alt
    (Re.seqs [Re.lit_i (str "UPI"); Re.Star Re.space; Re.lit_i (str "CR")])
    (Re.lit_i (str "UPICR"))).

(** [(?i)Paym(?:e)?-?TRANSFER] *)
Definition payme_re : Re.re :=
  Re.seqs [Re.lit_i (str "Paym"); Re.opt (Re.lit_i (str "e"));
           Re.opt (Re.lit (str "-")); Re.lit_i (str "TRANSFER")].

(** [(?i)(TRANSFER)(?=UPI/)] *)
Definition transfer_upi_re : Re.re :=
  Re.Seq (Re.Grp 1 (Re.lit_i (str "TRANSFER")))
         (Re.Ahead (Re.lit_i (str "UPI/"))).

(** [\s*/\s*] and [\s*\|\s*] *)
Definition slash_re : Re.re :=
  Re.seqs [Re.Star Re.space; Re.lit (str "/"); Re.Star Re.space].
Definition bar_re : Re.re :=
  Re.seqs [Re.Star Re.space; Re.lit (str "|"); Re.Star Re.space].

(** [^(\d+)(?:\.\d+)?] and [^\d+] *)
Definition txn_int_re : Re.re :=
  Re.seqs [Re.Bol; Re.Grp 1 (Re.plus Re.digit);
           Re.opt (Re.Seq (Re.lit (str ".")) (Re.plus Re.digit))].
Definition leading_digits_re : Re.re := Re.Seq Re.Bol (Re.plus Re.digit).

(** [(?i)\bTRANSFER(?:\s+TO|\s+FROM)\b[\s:,-]*([0-9]{4,})] *)
Definition mref_re : Re.re :=
  Re.seqs [Re.WordB; Re.lit_i (str "TRANSFER");
           Re.Alt (Re.Seq (Re.plus Re.space) (Re.lit_i (str "TO")))
                  (Re.Seq (Re.plus Re.space) (Re.lit_i (str "FROM")));
           Re.WordB;
           Re.Star (Re.Cls (fun c =>
             (is_space c || existsb (char_eqb c) (str ":,-"))%bool));
           Re.Grp 1 (Re.at_least 4 Re.digit09)].

(** [(?i)\bTRANSFER\s+(TO|FROM)\b] *)
Definition typ_re : Re.re :=
  Re.seqs [Re.WordB; Re.lit_i (str "TRANSFER"); Re.plus Re.space;
           Re.Grp 1 (Re.Alt (Re.lit_i (str "TO")) (Re.lit_i (str "FROM")));
           Re.WordB].

(** [(?i)(TRANSFER).*?([0-9]{6,})] *)
Definition m2_re : Re.re :=
  Re.seqs [Re.Grp 1 (Re.lit_i (str "TRANSFER")); Re.StarLazy Re.dot;
           Re.Grp 2 (Re.at_least 6 Re.digit09)].

Definition found (r : Re.re) (s : text) : bool :=
  match Re.search r s with Some _ => true | None => false end.

(** The five substitutions under [# Normalizations] and the two
    assignments to [normalized]. *)
Definition normalize_block_text (merged : text) : text :=
  let merged := Re.sub upi_dr_re (fun _ => str "UPI/DR") merged in
  let merged := Re.sub upi_cr_re (fun _ => str "UPI/CR") merged in
  let merged := Re.sub payme_re (fun _ => str "Payme TRANSFER") merged in
  let merged :=
    Re.sub transfer_upi_re (fun e => Re.group 1 merged e ++ str " ")
      merged in
  let merged := Re.sub slash_re (fun _ => str "/") merged in
  let normalized :=
    replace [65534%N] (str " | ")
      (replace [65533%N] (str " ") (replace [65534%N] (str " ") merged)) in
  Re.sub bar_re (fun _ => str " | ") normalized.

(** The body of the [try]: a reference number whose last digit the
    text extraction glued to the amount is given that digit back.  The
    result is the new [desc_part] and [txn_tok], when they change. *)
Definition unglue_reference (normalized : text) (t_start : nat)
  (txn_tok : text) : result (option (text * text)) :=
  let head := slice_to t_start normalized in
  match rsplit_ws1 (rstrip head) with
  | [prev_tok] =>
      match Re.match_ txn_int_re txn_tok with
      | Some txn_int =>
          if isdigit prev_tok
          then
            let prev_len := length prev_tok in
            let txn_int_part := Re.group 1 txn_tok txn_int in
            if ((3 <=? length txn_int_part) && (6 <=? prev_len))%bool
            then
              let new_prev := prev_tok ++ slice 0 1 txn_int_part in
              let new_txn_int := slice_from 1 txn_int_part in
              if truthy new_txn_int
              then
                match rfind prev_tok head with
                | Some idx =>
                    Return (Some
                      (slice_to idx head ++ new_prev
                         ++ slice_from (idx + length prev_tok) head,
                       Re.sub1 leading_digits_re (fun _ => new_txn_int)
                         txn_tok))
                | None => Return None
                end
              else Return None
            else Return None
          else Return None
      | None => Return None
      end
  | _ => Return None
  end.

(** [cheque_ref] and [desc_main] from [desc_part]. *)
Definition split_reference (desc_part : text) : text * text :=
  match Re.search mref_re desc_part with
  | Some mref =>
      let ref_acct := Re.group 1 desc_part (snd mref) in
      let cheque_ref :=
        match Re.search typ_re desc_part with
        | Some typ =>
            str "TRANSFER " ++ upper (Re.group 1 desc_part (snd typ))
              ++ str " " ++ ref_acct
        | None => str "TRANSFER " ++ ref_acct
        end in
      (cheque_ref, strip (slice_to (Re.m_start mref) desc_part))
  | None =>
      match Re.search m2_re desc_part with
      | Some m2 =>
          let acct := Re.group 2 desc_part (snd m2) in
          let window :=
            slice (Re.m_start m2) (Re.m_end m2 + 30) desc_part in
          let cheque_ref :=
            if found (Re.lit_i (str "TO")) window
            then str "TRANSFER TO " ++ acct
            else if found (Re.lit_i (str "FROM")) window
            then str "TRANSFER FROM " ++ acct
            else str "TRANSFER " ++ acct in
          (cheque_ref, strip (slice_to (Re.m_start m2) desc_part))
      | None => ([], desc_part)
      end
  end.

(** [desc_line1] and [desc_line2] from [desc_main]. *)
Definition split_description (desc_main : text) : text * text :=
  if truthy desc_main
  then
    let segs := filter truthy (Re.split (Re.lit (str "/")) desc_main) in
    if 3 <=? length segs
    then
      let half := Nat.max 1 (length segs / 3) in
      let line1 := strip (join (str "/") (firstn half segs)) in
      let line2 :=
        if half * 2 <=? length segs
        then strip (join (str "/") (firstn (half * 2 - half) (skipn half segs)))
        else strip (join (str "/") (skipn half segs)) in
      let rest :=
        if half * 2 <? length segs
        then strip (join (str "/") (skipn (half * 2) segs))
        else [] in
      (line1,
       strip (line2 ++ (if truthy rest then str "/" ++ rest else [])))
    else if 90 <? length desc_main
    then
      let first := rsplit_space_head (slice_to 45 desc_main) in
      let second := strip (slice_from (length first) desc_main) in
      let second_first :=
        if 45 <? length second
        then rsplit_space_head (slice_to 45 second)
        else second in
      (strip first, strip second_first)
    else if 45 <? length desc_main
    then
      let desc_line1 := rsplit_space_head (slice_to 45 desc_main) in
      (desc_line1, strip (slice_from (length desc_line1) desc_main))
    else (desc_main, [])
  else ([], []).

Definition txn_credit_keys : list text :=
  [str "BY TRANSFER"; str "/CR/"; str "CR/"; str "CREDIT";
   str "TRANSFER FROM"].
Definition txn_debit_keys : list text :=
  [str "TO TRANSFER"; str "TRANSFER TO"; str "/DR/"; str "DR";
   str "UPI/DR"; str "DEBIT"; str "WDL"; str "ATM WDL"].

(** Which movement the amount is: the tuple is
    [(debit, credit, orig_debit_text, orig_credit_text)]. *)
Definition classify_movement (txn_tok desc_main cheque_ref : text)
  : result (float * float * text * text) :=
  if truthy txn_tok
  then
    amt_val <- _parse_amount txn_tok ;;
    let desc_up := upper desc_main in
    let is_credit := existsb (fun k => contains k desc_up) txn_credit_keys in
    let is_debit := existsb (fun k => contains k desc_up) txn_debit_keys in
    let as_credit := (Finite 0%Q, amt_val, [], txn_tok) in
    let as_debit := (amt_val, Finite 0%Q, txn_tok, []) in
    if (is_credit && negb is_debit)%bool then Return as_credit
    else if (is_debit && negb is_credit)%bool then Return as_debit
    else if (truthy cheque_ref
             && contains (str "TRANSFER TO") cheque_ref)%bool
    then Return as_debit
    else if (truthy cheque_ref
             && contains (str "TRANSFER FROM") cheque_ref)%bool
    then Return as_credit
    else if (contains (str "/CR") desc_up
             || contains (str "BY TRANSFER") desc_up)%bool
    then Return as_credit
    else Return as_debit
  else Return (Finite 0%Q, Finite 0%Q, [], []).

Definition txn_value_block (block : TxnBlock) : result TransactionRecord :=
  let date := strip (tb_date block) in
  let value_date := strip (tb_value_date block) in
  let merged :=
    strip (Re.sub (Re.plus Re.space) (fun _ => str " ") (tb_text block)) in
  let normalized := normalize_block_text merged in
  let amounts := amount_spans txn_amt_re normalized in
  '(balance, balance_tok, txn_tok, desc_part) <-
    match rev amounts with
    | [] => Return (Finite 0%Q, [], [], normalized)
    | (balance_tok, b_start, b_end) :: before =>
        balance <- _parse_amount balance_tok ;;
        let '(txn_tok, t_start) :=
          match before with
          | (tok, a, _) :: _ => (tok, a)       (* amounts[-2] *)
          | [] => (balance_tok, b_start)       (* amounts[0] *)
          end in
        let desc_part := strip (slice_to t_start normalized) in
        fixed <- try_except (unglue_reference normalized t_start txn_tok)
                   (fun _ => Return None) ;;
        match fixed with
        | Some (desc_part', txn_tok') =>
            Return (balance, balance_tok, txn_tok', desc_part')
        | None => Return (balance, balance_tok, txn_tok, desc_part)
        end
    end ;;
  let '(cheque_ref, desc_main) := split_reference desc_part in
  let desc_main :=
    strip (Re.sub (Re.plus Re.space) (fun _ => str " ") desc_main) in
  let '(desc_line1, desc_line2) := split_description desc_main in
  '(debit, credit, orig_debit_text, orig_credit_text) <-
    classify_movement txn_tok desc_main cheque_ref ;;
  Return (mkTxn date value_date (make_description desc_line1 desc_line2)
            desc_line1 desc_line2 cheque_ref debit credit balance
            orig_debit_text orig_credit_text balance_tok).

(** BalanceReconciler, parsing side: the [if] before the [return] of
    [_parse_sbi_txn_value]. *)
Definition backfill_opening (opening : float)
  (transactions : list TransactionRecord) : float :=
  if is_zero opening
  then
    match transactions with
    | first :: _ =>
        fsub (fadd (or_zero (balance first)) (or_zero (debit first)))
          (or_zero (credit first))
    | [] => opening
    end
  else opening.

Definition _parse_sbi_txn_value (file_obj : document)
  : result ParsedStatement :=
  let lines := _extract_all_lines file_obj in
  let lines := _normalize_multiline_dates lines in
  m <- scan_meta lines ;;
  let transactions_raw := txn_value_segment lines in
  transactions <- mapM txn_value_block transactions_raw ;;
  let ob := backfill_opening (mf_opening_balance m) transactions in
  Return (mkParsed
            (mkMeta (mf_account_name m) (mf_account_number m) (mf_period m)
               ob (str "SBI") SBI_TXN_VALUE)
            transactions).

(* ================================================================== *)
(** ** Dispatcher: [parse_pdf_to_data] *)

(** The functions the module defines, by name.  A call of a name that
    is not bound raises [NameError] when it is evaluated. *)
Definition module_functions
  : list (string * (document -> result ParsedStatement)) :=
  [("_parse_sbi_post_value"%string, _parse_sbi_post_value);
   ("_parse_sbi_txn_value"%string, _parse_sbi_txn_value)].

Fixpoint lookup_function (name : string)
  (env : list (string * (document -> result ParsedStatement)))
  : option (document -> result ParsedStatement) :=
  match env with
  | [] => None
  | (n, f) :: env' =>
      if String.eqb n name then Some f else lookup_function name env'
  end.

Definition call_global (name : string) (file_obj : document)
  : result ParsedStatement :=
  match lookup_function name module_functions with
  | Some f => f file_obj
  | None => Raise (NameError name)
  end.

(** LayoutClassifier: the assignment of [auto] from [sample]. *)
Definition auto_detect (lines : list text) : option text :=
  let sample := upper (join (str " ") (firstn 120 lines)) in
  if (contains (str "POST DATE") sample && contains (str "VALUE DATE") sample
      && contains (str "DESCRIPTION") sample)%bool
  then Some SBI_POST_VALUE
  else if (contains (str "TXN DATE") sample
           && contains (str "VALUE DATE") sample)%bool
  then Some SBI_TXN_VALUE
  else if (contains (str "TXN DATE") sample
           && contains (str "DETAILS") sample)%bool
  then Some SBI_DATE_DETAILS
  else None.

(** [a or b] where [a] is a string or [None] *)
Definition or_text (a : option text) (b : text) : text :=
  match a with
  | Some x => if truthy x then x else b
  | None => b
  end.

(** [(layout.strip().upper() if layout else None) or auto
    or SBI_POST_VALUE] *)
Definition use_layout (layout auto : option text) : text :=
  let explicit :=
    match layout with
    | Some l => if truthy l then Some (upper (strip l)) else None
    | None => None
    end in
  or_text explicit (or_text auto SBI_POST_VALUE).

Definition parse_pdf_to_data (file_obj : document) (layout : option text)
  : result ParsedStatement :=
  let lines := _extract_all_lines file_obj in
  let lines := _normalize_multiline_dates lines in
  let auto := auto_detect lines in
  let use_layout := use_layout layout auto in
  if text_eqb use_layout SBI_POST_VALUE
  then call_global "_parse_sbi_post_value" file_obj
  else if text_eqb use_layout SBI_TXN_VALUE
  then call_global "_parse_sbi_txn_value" file_obj
  else if text_eqb use_layout SBI_DATE_DETAILS
  then call_global "_parse_sbi_date_details" file_obj
  else Raise (ValueError "Unsupported layout").

(* ================================================================== *)
(** ** Number formatting: [f"{x:,.2f}"] *)

(** The decimal digits of [n]; [fuel] bounds their number. *)
Fixpoint digits_go (fuel : nat) (n : N) (acc : text) : text :=
  match fuel with
  | O => acc
  | S fuel' =>
      let acc' := (48 + n mod 10)%N :: acc in
      if (n / 10 =? 0)%N then acc' else digits_go fuel' (n / 10)%N acc'
  end.

Definition digits_of (n : N) : text := digits_go (S (N.to_nat (N.size n))) n [].

(** Commas between groups of three digits, from the right; [k] is the
    size of the group being filled. *)
Fixpoint group3_go (k : nat) (rev_digits : text) : text :=
  match rev_digits with
  | [] => []
  | d :: t =>
      match k with
      | 3 => 44%N :: d :: group3_go 1 t
      | _ => d :: group3_go (S k) t
      end
  end.

Definition group3 (digits : text) : text :=
  rev (group3_go 0 (rev digits)).

(** The rational [x] to two decimals, the nearest and at a tie the
    even one, with its sign even when it rounds to zero. *)
Definition fixed_2 (x : Q) : text :=
  let hundredths :=
    round_half_even (Z.abs (Qnum x) * 100) (Zpos (Qden x)) in
  let whole := Z.to_N (hundredths / 100) in
  let cents := Z.to_N (hundredths mod 100) in
  (if (Qnum x <? 0)%Z then str "-" else [])
    ++ group3 (digits_of whole) ++ str "."
    ++ [(48 + cents / 10)%N; (48 + cents mod 10)%N].

Definition format_2f (x : float) : text :=
  match x with
  | Finite q => fixed_2 q
  | NegZero => str "-0.00"
  | Infinity negative => if negative then str "-inf" else str "inf"
  | NaN => str "nan"
  end.

(* ================================================================== *)
(** ** Helper: [_make_three_line_cells] *)

(** [words.index(w)] for a [w] that occurs in [words] *)
Fixpoint index_of (w : text) (ws : list text) : nat :=
  match ws with
  | [] => 0
  | x :: ws' => if text_eqb x w then 0 else S (index_of w ws')
  end.

(** [for i in range(n): lines.append("/".join(segs[idx:idx+per]));
    idx += per], then the rest of [segs] as the last line. *)
Fixpoint slash_parts (n per : nat) (segs_from_idx : list text) : list text :=
  match n with
  | O => [join (str "/") segs_from_idx]
  | S n' =>
      join (str "/") (firstn per segs_from_idx)
        :: slash_parts n' per (skipn per segs_from_idx)
  end.

(** [for w in words: ...] with its [break]; the result is [cur] and
    [lines] after the loop. *)
Fixpoint wrap_words (words : list text) (approx_chars max_lines : nat)
  (cur : text) (lines : list text) (todo : list text)
  : text * list text :=
  match todo with
  | [] => (cur, lines)
  | w :: todo' =>
      if ((length cur + 1 + length w <=? approx_chars)
          || negb (truthy cur))%bool
      then wrap_words words approx_chars max_lines
             (strip (cur ++ str " " ++ w)) lines todo'
      else
        let lines := lines ++ [cur] in
        let cur := w in
        if max_lines <=? length lines
        then
          let i := index_of w words in
          ((if i + 1 <? length words
            then cur ++ str " " ++ join (str " ") (skipn (i + 1) words)
            else cur),
           lines)
        else wrap_words words approx_chars max_lines cur lines todo'
  end.

Definition _make_three_line_cells (text : text) (max_lines approx_chars : nat)
  : list Py.text :=
  if negb (truthy text) then repeat [] max_lines
  else
    let s := strip (replace [160%N] (str " ") text) in
    let segs := filter truthy (map strip (split (str "/") s)) in
    let lines :=
      if max_lines <=? length segs
      then
        let per := Nat.max 1 (length segs / max_lines) in
        slash_parts (max_lines - 1) per segs
      else
        let joined := if 0 <? length segs then join (str " / ") segs else s in
        let words := words joined in
        let '(cur, lines) :=
          wrap_words words approx_chars max_lines [] [] words in
        let lines :=
          if (truthy cur && (length lines <? max_lines))%bool
          then lines ++ [cur] else lines in
        let lines := lines ++ repeat [] (max_lines - length lines) in
        firstn max_lines lines in
    let lines := lines ++ repeat [] (max_lines - length lines) in
    firstn max_lines lines.

(* ================================================================== *)
(** ** TableRenderer: [generate_pdf_from_data]

    The story handed to the document builder is the instruction
    stream.  A flowable keeps what it shows (its text, its rows) and
    the name of its paragraph style; column widths, paddings, colours
    and the page-number stamp drawn by the builder are left out. *)

Inductive style : Type :=
| style_header_txn | style_header_post
| style_center | style_amount | style_left | style_desc_compact.

#[warnings="-register-all"]
Inductive flowable : Type :=
| Paragraph (text : text) (st : style)
| Table (data : list (list flowable)) (repeatRows : nat)
| PageBreak.

(** The model instance given to the renderer: its [layout] attribute
    (absent or empty when [None]), [data] and [id]. *)
Record Statement : Type := mkStatement
  { stmt_layout : option text;
    data : ParsedStatement;
    stmt_id : N }.

(** The [ContentFile] returned: the story that was built and the
    file name. *)
Record Rendering : Type := mkRendering
  { story : list flowable;
    file_name : text }.

(** Page geometry of the report library, in points.  The lengths are
    computed exactly: the two quotients below are about 16.97 and
    24.54, far enough from an integer for the rounding of the floats
    of the source not to change their integer part. *)
Definition mm : Q := (720 # 254)%Q.
Definition A4_height : Q := (297 * mm)%Q.

(** [int(x)] *)
Definition py_int (x : Q) : Z := Z.quot (Qnum x) (Zpos (Qden x)).

Definition ROWS_PER_PAGE (layout : text) : nat :=
  if text_eqb layout SBI_TXN_VALUE
  then
    let top_margin := (10 * mm)%Q in
    let bottom_margin := (12 * mm)%Q in
    let ROW_HEIGHT := ((145 # 10) * mm)%Q in
    let usable_height := (A4_height - top_margin - bottom_margin)%Q in
    Z.to_nat
      (Z.max 6 (py_int ((usable_height - ROW_HEIGHT * 2) / ROW_HEIGHT)%Q))
  else
    let top_margin := (5 * mm)%Q in
    let bottom_margin := (8 * mm)%Q in
    let ROW_HEIGHT := ((107 # 10) * mm)%Q in
    let usable_height := (A4_height - top_margin - bottom_margin)%Q in
    let header_height := ROW_HEIGHT in
    let footer_height := ROW_HEIGHT in
    Z.to_nat
      (Z.max 8 (py_int ((usable_height - header_height - footer_height)
                        / ROW_HEIGHT)%Q)).

Definition cr_suffix (layout : text) : text :=
  if text_eqb layout SBI_POST_VALUE then str "CR" else [].

Definition style_header (layout : text) : style :=
  if text_eqb layout SBI_TXN_VALUE then style_header_txn
  else style_header_post.

Definition header_date_label (layout : text) : text :=
  if text_eqb layout SBI_TXN_VALUE then str "Txn Date" else str "Post Date".

Definition header_ref_label (layout : text) : text :=
  if text_eqb layout SBI_TXN_VALUE then str "Ref No./Cheque No."
  else str "Cheque<br/>No/Reference".

Definition header_row (layout : text) : list flowable :=
  let h := style_header layout in
  [Paragraph (header_date_label layout) h;
   Paragraph (str "Value Date") h;
   Paragraph (str "Description") h;
   Paragraph (header_ref_label layout) h;
   Paragraph (str "Debit") h;
   Paragraph (str "Credit") h;
   Paragraph (str "Balance") h].

(** [\bUPI\b], case-insensitive *)
Definition upi_word_re : Re.re :=
  Re.seqs [Re.WordB; Re.lit_i (str "UPI"); Re.WordB].

(** The three lines of the description cell. *)
Definition description_lines (layout : text) (txn : TransactionRecord)
  : list text :=
  let desc_full := strip (description_line1 txn) in
  let desc_full :=
    if truthy (description_line2 txn)
    then
      if truthy desc_full
      then desc_full ++ str " / " ++ strip (description_line2 txn)
      else strip (description_line2 txn)
    else desc_full in
  let lines3 := _make_three_line_cells desc_full 3 32 in
  if text_eqb layout SBI_POST_VALUE
  then
    let full_text := strip (join (str " ") (firstn 3 lines3)) in
    match Re.search upi_word_re full_text with
    | Some m =>
        [strip (slice_to (Re.m_start m) full_text);
         strip (slice_from (Re.m_start m) full_text);
         []]
    | None => lines3
    end
  else lines3.

Definition desc_table (lines3 : list text) : flowable :=
  Table (map (fun l => [Paragraph l style_desc_compact]) (firstn 3 lines3)) 0.

(** The two-decimal display of [x], or nothing when [x] is zero. *)
Definition amount_cell_text (x : float) : text :=
  if is_zero x then [] else format_2f x.

(** One round of [for txn in chunk]: the new running balance and the
    row appended to [table_data]. *)
Definition render_row (layout : text) (running_balance_global : float)
  (txn : TransactionRecord) : float * list flowable :=
  let debit := or_zero (debit txn) in
  let credit := or_zero (credit txn) in
  let running_balance_global :=
    fadd (fsub running_balance_global debit) credit in
  let desc_table := desc_table (description_lines layout txn) in
  let ref_para :=
    Paragraph (cheque_ref txn)
      (if text_eqb layout SBI_TXN_VALUE then style_left else style_center) in
  let debit_para := Paragraph (amount_cell_text debit) style_amount in
  let credit_para := Paragraph (amount_cell_text credit) style_amount in
  let balance_display :=
    format_2f running_balance_global ++ cr_suffix layout in
  let balance_para := Paragraph balance_display style_amount in
  let date_para := Paragraph (date txn) style_center in
  let vdate_para := Paragraph (value_date txn) style_center in
  (running_balance_global,
   [date_para; vdate_para; desc_table; ref_para;
    debit_para; credit_para; balance_para]).

(** [for txn in chunk: ...]: the running balance after the chunk and
    its rows. *)
Fixpoint render_rows (layout : text) (running_balance_global : float)
  (chunk : list TransactionRecord) : float * list (list flowable) :=
  match chunk with
  | [] => (running_balance_global, [])
  | txn :: chunk' =>
      let '(running, row) := render_row layout running_balance_global txn in
      let '(final, rows) := render_rows layout running chunk' in
      (final, row :: rows)
  end.

Definition footer_row : list flowable :=
  repeat (Paragraph [] style_center) 7.

(** [for start in range(0, len(txns), ROWS_PER_PAGE)]: the argument is
    [txns[start:]]; [fuel] bounds the number of pages. *)
Fixpoint render_pages (fuel : nat) (layout : text) (rows_per_page : nat)
  (running_balance_global : float)
  (txns_from_start : list TransactionRecord) : float * list flowable :=
  match fuel with
  | O => (running_balance_global, [])
  | S fuel' =>
      match txns_from_start with
      | [] => (running_balance_global, [])
      | _ :: _ =>
          let chunk := firstn rows_per_page txns_from_start in
          let '(running, rows) :=
            render_rows layout running_balance_global chunk in
          let table_data :=
            header_row layout :: rows
              ++ (if text_eqb layout SBI_POST_VALUE then [footer_row]
                  else []) in
          let t := Table table_data 1 in
          let later := skipn rows_per_page txns_from_start in
          let '(final, more) :=
            render_pages fuel' layout rows_per_page running later in
          (final,
           t :: (if truthy_list later then [PageBreak] else []) ++ more)
      end
  end.

Definition meta_table (layout : text) (opening_balance : float)
  (acct_name acct_no period : text) : flowable :=
  Table
    [[Paragraph (str "<b>" ++ acct_name ++ str "</b>") style_left;
      Paragraph (str "Opening Balance: " ++ format_2f opening_balance
                   ++ cr_suffix layout) style_amount];
     [Paragraph (str "Account No: " ++ acct_no) style_left;
      Paragraph (str "Period: " ++ period) style_amount]]
    0.

(** [a or b or c] on the layout names *)
Definition renderer_layout (statement_obj : Statement) : text :=
  or_text (stmt_layout statement_obj)
    (or_text (Some (layout (meta (data statement_obj)))) SBI_POST_VALUE).

Definition generate_pdf_from_data (statement_obj : Statement) : Rendering :=
  let meta := meta (data statement_obj) in
  let txns := transactions (data statement_obj) in
  let layout := renderer_layout statement_obj in
  let opening_balance := or_zero (opening_balance meta) in
  let running_balance_global := opening_balance in
  let acct_name := account_name meta in
  let acct_no := account_number meta in
  let period := period meta in
  let story :=
    if (truthy acct_name || truthy acct_no || truthy period)%bool
    then [meta_table layout opening_balance acct_name acct_no period]
    else [] in
  let '(_, pages) :=
    render_pages (length txns) layout (ROWS_PER_PAGE layout)
      running_balance_global txns in
  mkRendering (story ++ pages)
    (str "statement_" ++ digits_of (stmt_id statement_obj)
       ++ str "_updated.pdf").

(* ================================================================== *)
(** ** View: [upload_statement]

    The data path of the view for a valid form: the posted [bank] and
    [layout] fields ([None] when the request has none), the parse, and
    the statement that is saved.  The [id] is the key the database
    gives the row; authentication, the form and the redirect are left
    out. *)

Definition upload_statement (uploaded_file : document)
  (posted_bank posted_layout : option text) (id : N) : result Statement :=
  let bank := or_text posted_bank (str "SBI") in
  let layout := or_text posted_layout SBI_POST_VALUE in
  parsed_data <- parse_pdf_to_data uploaded_file (Some layout) ;;
  let m := meta parsed_data in
  let m :=
    mkMeta (account_name m) (account_number m) (period m)
      (opening_balance m) bank layout in
  Return (mkStatement (Some layout)
            (mkParsed m (transactions parsed_data)) id).

(* ================================================================== *)
(** * Notions used to state the properties *)

(** ** The matcher *)

Module ReSpec.
Import Re.

(** What a run has read: the subject is what was consumed followed by
    what is left, and the offset has grown by as much. *)
Definition reads (s e : mstate) (t : text) : Prop :=
  m_rest s = t ++ m_rest e /\ m_pos e = m_pos s + length t.

End ReSpec.

(** ** AmountToken *)

Module AmountSpec.

(** The characters of the class [[0-9.\-]] of the specification. *)
Definition amount_char (c : char) : bool :=
  (is_digit c || char_eqb c 46 || char_eqb c 45)%bool.

(** The characters the code keeps, [[\d.\-]]: the digits are those of
    every script. *)
Definition kept_char (c : char) : bool :=
  (is_decimal c || char_eqb c 46 || char_eqb c 45)%bool.

(** The number a cleaned string writes, as the nearest double: 0.0
    when it is empty, ["-"] or ["."], and when it writes no decimal. *)
Definition decimal_or_zero (s : text) : float :=
  if text_in s [[]; str "-"; str "."] then Finite 0%Q
  else match py_float s with
       | Return x => x
       | Raise _ => Finite 0%Q
       end.

(** [s] without a [CR] or [DR] at its end. *)
Definition without_suffix (s : text) : text :=
  match rev s with
  | 82%N :: 67%N :: r => rev r
  | 82%N :: 68%N :: r => rev r
  | _ => s
  end.

(** A value between parentheses becomes the value after a minus
    sign. *)
Definition negate_parenthesized (s : text) : text :=
  match s with
  | 40%N :: t =>
      match rev t with
      | 41%N :: r => 45%N :: rev r
      | _ => s
      end
  | _ => s
  end.

Definition without_separators (s : text) : text :=
  filter (fun c => negb (char_eqb c 44)) s.

Definition spaces_normalized (s : text) : text :=
  map (fun c => if char_eqb c 160 then 32%N else c) s.

(** The rules of the specification, in its words and order. *)
Definition amount_token_rules (token : text) : float :=
  (* uppercase the token *)
  let s := upper token in
  (* strip CR/DR suffixes *)
  let s := without_suffix s in
  (* strip thousands separators *)
  let s := without_separators s in
  (* normalize non-breaking space to space *)
  let s := spaces_normalized s in
  (* convert a parenthesized value to a negated value *)
  let s := negate_parenthesized s in
  (* strip any remaining characters outside [0-9.\-] *)
  let s := filter amount_char s in
  (* empty, "-" or "." is 0.0; otherwise parse as a decimal, malformed
     input degrading to 0.0 *)
  decimal_or_zero s.

(** An opening parenthesis counts as a minus sign. *)
Definition paren_to_minus (c : char) : char :=
  if char_eqb c 40 then 45%N else c.

(** The same rules with the two changes the code makes: every opening
    parenthesis becomes a minus sign and every closing one is dropped,
    wherever they stand, and the digits that are kept and read are
    the decimal digits of every script. *)
Definition amended_rules (token : text) : float :=
  let s := upper token in
  let s := without_suffix s in
  let s := without_separators s in
  let s := spaces_normalized s in
  let s :=
    filter (fun c => negb (char_eqb c 41)) (map paren_to_minus s) in
  let s := filter kept_char s in
  decimal_or_zero s.

End AmountSpec.

(** ** LineNormalizer *)

Module NormSpec.
Import Re.

(** A line that none of the four patterns accepts. *)
Definition inert (x : text) : Prop :=
  matches day_mon_re x = false /\ matches short_day_re x = false /\
  matches short_mon_re x = false /\ matches year_re x = false.

(** The two merge conditions of the loop. *)
Definition fires2 (a b : text) : bool :=
  (matches day_mon_re a && matches year_re b)%bool.
Definition fires3 (a b c : text) : bool :=
  (matches short_day_re a && matches short_mon_re b
   && matches year_re c)%bool.

End NormSpec.

(** ** Parsers *)

Module ParseSpec.

(** Mutually exclusive movement: the other movement is [0.0]. *)
Definition exclusive (t : TransactionRecord) : Prop :=
  debit t = 0%Q \/ credit t = 0%Q.

(** The records of a parse that returned. *)
Definition records (r : result ParsedStatement) : list TransactionRecord :=
  match r with
  | Return ps => transactions ps
  | Raise _ => []
  end.

Definition returns {A} (r : result A) : Prop :=
  exists a, r = Return a.

End ParseSpec.

(** ** PostValue segmenter *)

Module SegSpec.

(** The table is entered only after the header has been seen. *)
Definition seg_ok (st : SegState) : Prop :=
  in_table st = true -> header_seen st = true.

End SegSpec.

(** ** Layout classification, in the words of the specification *)

Module LayoutSpec.

Inductive LayoutVariant : Type := PostValue | TxnValue | DateDetails.

Definition variant_name (v : LayoutVariant) : text :=
  match v with
  | PostValue => SBI_POST_VALUE
  | TxnValue => SBI_TXN_VALUE
  | DateDetails => SBI_DATE_DETAILS
  end.

(** The decision rules, in order: the keywords a sample must contain
    and the variant they select. *)
Definition rules : list (list text * LayoutVariant) :=
  [([str "POST DATE"; str "VALUE DATE"; str "DESCRIPTION"], PostValue);
   ([str "TXN DATE"; str "VALUE DATE"], TxnValue);
   ([str "TXN DATE"; str "DETAILS"], DateDetails)].

(** First match wins. *)
Fixpoint first_match (rs : list (list text * LayoutVariant)) (sample : text)
  : option LayoutVariant :=
  match rs with
  | [] => None
  | (keywords, v) :: rs' =>
      if forallb (fun k => contains k sample) keywords then Some v
      else first_match rs' sample
  end.

(** The first 120 lines, upper-cased and concatenated. *)
Definition sample_of (lines : list text) : text :=
  upper (join (str " ") (firstn 120 lines)).

(** The explicit layout of the caller, when one is given: a hint that
    is not blank, trimmed and upper-cased. *)
Definition given (hint : option text) : option text :=
  match hint with
  | Some h => if truthy (strip h) then Some (upper (strip h)) else None
  | None => None
  end.

(** Explicit layout if given, else the auto-detected one, else
    PostValue. *)
Definition final_layout (lines : list text) (hint : option text) : text :=
  match given hint with
  | Some h => h
  | None =>
      match first_match rules (sample_of lines) with
      | Some v => variant_name v
      | None => variant_name PostValue
      end
  end.

(** The lines the dispatcher classifies and the layout it resolves. *)
Definition classified_lines (file_obj : document) : list text :=
  _normalize_multiline_dates (_extract_all_lines file_obj).

Definition resolved_layout (file_obj : document) (hint : option text) : text :=
  use_layout hint (auto_detect (classified_lines file_obj)).

End LayoutSpec.

(** ** Sample documents *)

Module Samples.

Definition lines_doc (lines : list text) : document :=
  [join [10%N] lines].

(** The PostValue row of the specification after a header line and a
    table-start line. *)
Definition post_header : text := str "POST DATE VALUE DATE DESCRIPTION".
Definition table_start : text := str "DEBIT CREDIT BALANCE".

Definition spec_row_doc : document :=
  lines_doc [post_header; table_start;
             str "01-04-2024 02-04-2024 ATM WDL 500.00 4500.00"].

(** The same row with the balance printed with its separator. *)
Definition grouped_row_doc : document :=
  lines_doc [post_header; table_start;
             str "01-04-2024 02-04-2024 ATM WDL 500.00 4,500.00"].

(** No opening-balance line; the first transaction has balance
    1000.00, debit 200.00 and credit 0.0. *)
Definition no_opening_row : text :=
  str "01-04-2024 02-04-2024 ATM WDL 200.00 1,000.00".

Definition no_opening_post_doc : document :=
  lines_doc [post_header; table_start; no_opening_row].

Definition no_opening_txn_doc : document :=
  lines_doc [str "TXN DATE VALUE DATE DESCRIPTION"; table_start;
             no_opening_row].

(** A document with the header of the DateDetails layout. *)
Definition date_details_doc : document :=
  lines_doc [str "Txn Date Details Ref No. Debit Credit Balance";
             str "01 Apr 2024 ATM WDL 200.00 1,000.00"].

(** Lines between the table start and the first anchored row. *)
Definition junk_lines : list text :=
  [str "BROUGHT FORWARD 1,200.00CR"; str "carried from previous sheet"].

End Samples.

(** ** Renderer *)

Module RenderSpec.

(** The body rows of a story: the rows of every transaction table
    (the tables that repeat their first row), without the header row
    and, for the PostValue layout, without the blank footer row. *)
Definition table_body (layout : text) (table_data : list (list flowable))
  : list (list flowable) :=
  let rows := tl table_data in
  if text_eqb layout SBI_POST_VALUE then removelast rows else rows.

Definition body_rows (layout : text) (story : list flowable)
  : list (list flowable) :=
  flat_map
    (fun f =>
       match f with
       | Table table_data 1 => table_body layout table_data
       | _ => []
       end)
    story.

(** The text of a paragraph cell. *)
Definition cell_text (f : flowable) : text :=
  match f with
  | Paragraph t _ => t
  | _ => []
  end.

(** The debit, credit and balance cells of a row. *)
Definition financial_cells (row : list flowable) : text * text * text :=
  (cell_text (nth 4 row PageBreak), cell_text (nth 5 row PageBreak),
   cell_text (nth 6 row PageBreak)).

(** The number a finite float denotes. *)
Definition value (x : float) : Q :=
  match x with
  | Finite q => q
  | _ => 0%Q
  end.

(** Sum of [credit - debit] over rows, in exact arithmetic. *)
Fixpoint net_movement (txns : list TransactionRecord) : Q :=
  match txns with
  | [] => 0%Q
  | t :: rest =>
      (value (credit t) - value (debit t) + net_movement rest)%Q
  end.

(** The closed form of the specification computed in floats, in the
    order it is written: [B] plus the sum of the [credit - debit] of
    the rows. *)
Definition float_closed_form (opening : float)
  (txns : list TransactionRecord) : float :=
  fadd opening
    (fold_left (fun acc t => fadd acc (fsub (credit t) (debit t))) txns
       (Finite 0%Q)).

(** The running total the renderer carries after its first [i] rows. *)
Definition carried (layout : text) (opening : float)
  (txns : list TransactionRecord) (i : nat) : float :=
  fst (render_rows layout (or_zero opening) (firstn i txns)).

(** One row's update of the running total, in the arithmetic of the
    code: a subtraction and an addition of floats, each rounded. *)
Definition row_update (running : float) (t : TransactionRecord) : float :=
  fadd (fsub running (or_zero (debit t))) (or_zero (credit t)).

(** The same record with another stored balance. *)
Definition with_balance (b : float) (t : TransactionRecord)
  : TransactionRecord :=
  mkTxn (date t) (value_date t) (description t) (description_line1 t)
    (description_line2 t) (cheque_ref t) (debit t) (credit t) b
    (orig_debit_text t) (orig_credit_text t) (orig_balance_text t).

Definition rebalance (f : TransactionRecord -> float) (s : Statement)
  : Statement :=
  mkStatement (stmt_layout s)
    (mkParsed (meta (data s))
       (map (fun t => with_balance (f t) t) (transactions (data s))))
    (stmt_id s).

(** A cell shows the value [v]: the two-decimal display of [v], with or
    without the [CR] suffix, or nothing for a zero. *)
Definition shows (cell : text) (v : float) : Prop :=
  cell = format_2f v \/ cell = format_2f v ++ str "CR"
  \/ (cell = [] /\ is_zero v = true).

(** A statement of one credit of 50.00 whose stored balance, 100.00,
    differs from the balance the movements give. *)
Definition sample_txn : TransactionRecord :=
  mkTxn (str "01-04-2024") (str "01-04-2024") (str "BY TRANSFER")
    (str "BY TRANSFER") [] [] 0%Q 50%Q 100%Q [] [] (str "100.00").

Definition sample_stmt : Statement :=
  mkStatement None
    (mkParsed (mkMeta [] [] [] 0%Q (str "SBI") SBI_POST_VALUE) [sample_txn])
    1.

(** A statement that opens at 0.10 and has one credit of 0.20, each
    the double nearest to that decimal; the stored balance is the
    double nearest to 0.30. *)
Definition rounding_txn : TransactionRecord :=
  mkTxn (str "01-04-2024") (str "01-04-2024") (str "BY TRANSFER")
    (str "BY TRANSFER") [] [] 0%Q (float_of_decimal false 20 2)
    (float_of_decimal false 30 2) [] (str "0.20") (str "0.30").

Definition rounding_stmt : Statement :=
  mkStatement None
    (mkParsed
       (mkMeta [] [] [] (float_of_decimal false 10 2) (str "SBI")
          SBI_POST_VALUE)
       [rounding_txn])
    1.

(** A statement that opens at 0.30 and has a debit of 0.10 and a debit
    of 0.20. *)
Definition cancelling_txns : list TransactionRecord :=
  [mkTxn (str "01-04-2024") (str "01-04-2024") (str "ATM WDL")
     (str "ATM WDL") [] [] (float_of_decimal false 10 2) 0%Q
     (float_of_decimal false 20 2) (str "0.10") [] (str "0.20");
   mkTxn (str "02-04-2024") (str "02-04-2024") (str "ATM WDL")
     (str "ATM WDL") [] [] (float_of_decimal false 20 2) 0%Q
     0%Q (str "0.20") [] (str "0.00")].

Definition cancelling_stmt : Statement :=
  mkStatement None
    (mkParsed
       (mkMeta [] [] [] (float_of_decimal false 30 2) (str "SBI")
          SBI_POST_VALUE)
       cancelling_txns)
    1.

End RenderSpec.

(** ** Lines handed to the parsers *)

Module LineSpec.

(** No white space at either end. *)
Definition trimmed (l : text) : Prop :=
  lstrip l = l /\ lstrip (rev l) = rev l.

(** A line as the extraction delivers it: not empty, trimmed, and
    without a line break inside. *)
Definition clean_line (l : text) : Prop :=
  l <> [] /\ trimmed l /\ forallb (fun c => negb (is_linebreak c)) l = true.

End LineSpec.

(** ** What an amount token says *)

Module AmountSpec2.
Import AmountSpec.

(** The characters that end up significant. *)
Definition sig (c : char) : bool := kept_char (paren_to_minus c).

(** The characters of a token that bear on its value: the decimal
    digits of every script, points and minus signs, in order, an
    opening parenthesis counting as a minus sign. *)
Definition significant (token : text) : text :=
  filter kept_char (map paren_to_minus token).

(** A token whose only decimal digits are [0] to [9]. *)
Definition plain_digits (token : text) : bool :=
  forallb (fun c => implb (is_decimal c) (is_digit c)) token.

(** A token without an opening parenthesis. *)
Definition no_opening (token : text) : bool :=
  forallb (fun c => negb (char_eqb c 40)) token.

(** The token after the first rules of the specification, the suffix
    apart: uppercased, without separators, its spaces normalized. *)
Definition unspaced (token : text) : text :=
  spaces_normalized (without_separators (upper token)).

(** The number of points of a string. *)
Definition points (s : text) : nat :=
  length (filter (fun c => char_eqb c 46) s).

(** An amount that is a whole number of hundredths. *)
Definition hundredths (z : Z) : Q := Qmake z 100.

(** The float that holds an amount of [z] hundredths: the double
    nearest to it. *)
Definition float_of_hundredths (z : Z) : float :=
  float_of_decimal (z <? 0)%Z (Z.abs z) 2.

(** The number of hundredths [f"{x:,.2f}"] displays, with the sign of
    [x]. *)
Definition displayed_hundredths (x : Q) : Z :=
  let h := round_half_even (Z.abs (Qnum x) * 100) (Zpos (Qden x)) in
  if (Qnum x <? 0)%Z then (- h)%Z else h.

End AmountSpec2.

(** ** The pages of a rendering *)

Module PageSpec.
Import RenderSpec.

(** The transaction tables of a story: the tables that repeat their
    first row. *)
Definition transaction_tables (story : list flowable)
  : list (list (list flowable)) :=
  flat_map
    (fun f =>
       match f with
       | Table table_data 1 => [table_data]
       | _ => []
       end)
    story.

(** Pages with a page break between any two, and nowhere else. *)
Fixpoint separated (pages : list flowable) : list flowable :=
  match pages with
  | [] => []
  | p :: rest =>
      match rest with
      | [] => [p]
      | _ :: _ => p :: PageBreak :: separated rest
      end
  end.

(** The number of pages [n] rows need at [k] rows a page. *)
Definition pages_needed (n k : nat) : nat := (n + k - 1) / k.

(** A well-formed page: the header row first, then between one and
    [k] body rows, then the blank footer row in the PostValue layout
    only. *)
Definition page_ok (layout : text) (k : nat)
  (table_data : list (list flowable)) : Prop :=
  hd [] table_data = header_row layout /\
  1 <= length (table_body layout table_data) <= k /\
  length table_data
  = 1 + length (table_body layout table_data)
      + (if text_eqb layout SBI_POST_VALUE then 1 else 0) /\
  (text_eqb layout SBI_POST_VALUE = true ->
   last table_data [] = footer_row).

End PageSpec.

(** ** What a record keeps of its source text *)

Module RecordSpec.

(** The kept text of an amount reads as the amount. *)
Definition reads_as (tok : text) (v : float) : Prop :=
  _parse_amount tok = Return v.

Definition balance_kept (t : TransactionRecord) : Prop :=
  reads_as (orig_balance_text t) (balance t).

Definition movements_kept (t : TransactionRecord) : Prop :=
  reads_as (orig_debit_text t) (debit t) /\
  reads_as (orig_credit_text t) (credit t).

(** The description is its two lines, one under the other. *)
Definition described (t : TransactionRecord) : Prop :=
  description t
  = make_description (description_line1 t) (description_line2 t).

(** A record of the TxnValue parser. *)
Definition txn_record (t : TransactionRecord) : Prop :=
  balance_kept t /\ movements_kept t /\ described t.

(** A record of the PostValue parser: no reference and no movement
    text is kept. *)
Definition post_record (t : TransactionRecord) : Prop :=
  balance_kept t /\ described t /\
  cheque_ref t = [] /\ orig_debit_text t = [] /\ orig_credit_text t = [].

End RecordSpec.

(** ** The rows of a TxnValue statement, read in one pass *)

Module SegmentSpec.

(** The lines that continue a row: those before the next line that
    starts a row or stops the table. *)
Fixpoint continuation (lines : list text) : list text :=
  match lines with
  | [] => []
  | l :: rest =>
      if (Re.matches row_start l || primary_stop l)%bool then []
      else l :: continuation rest
  end.

(** One block for each line that starts a row: its two dates, and its
    remainder followed by its continuation lines, joined by spaces. *)
Fixpoint primary_blocks (lines : list text) : list TxnBlock :=
  match lines with
  | [] => []
  | line :: after =>
      match Re.match_ row_start line with
      | Some m =>
          mkTxnBlock (strip (Re.group 1 line m)) (strip (Re.group 2 line m))
            (strip (join (str " ")
                      (strip (Re.group 3 line m) :: continuation after)))
            :: primary_blocks after
      | None => primary_blocks after
      end
  end.

(** The dates of the lines that start a row. *)
Definition row_dates (lines : list text) : list (text * text) :=
  flat_map
    (fun line =>
       match Re.match_ row_start line with
       | Some m => [(strip (Re.group 1 line m), strip (Re.group 2 line m))]
       | None => []
       end)
    lines.

(** The second pair of loops: a row begins at a line with one date at
    its beginning, and its dates are the first two words of the
    line. *)
Fixpoint permissive_continuation (lines : list text) : list text :=
  match lines with
  | [] => []
  | l :: rest =>
      if (Re.matches permissive l || permissive_stop l)%bool then []
      else l :: permissive_continuation rest
  end.

Fixpoint permissive_blocks (lines : list text) : list TxnBlock :=
  match lines with
  | [] => []
  | line :: after =>
      if Re.matches permissive line
      then
        match words line with
        | d1 :: d2 :: more =>
            mkTxnBlock d1 d2
              (strip (join (str " ")
                        (join (str " ") more
                           :: permissive_continuation after)))
              :: permissive_blocks after
        | _ => permissive_blocks after
        end
      else permissive_blocks after
  end.

End SegmentSpec.

(** ** The metadata lines of a statement *)

Module MetaSpec.

Definition names_account (line : text) : bool :=
  startswith_any honorifics line.

Definition account_number_of (line : text) : text :=
  strip (last_piece (split (str "Account No") line)).

Definition period_of (line : text) : text :=
  strip (replace (str ":") [] (last_piece (split (str "Statement From") line))).

(** The opening balance a line gives: the last amount of a line that
    begins with [BROUGHT FORWARD] or [BALANCE B/F], in any case. *)
Definition opening_of (line : text) : list text :=
  if startswith_any [str "BROUGHT FORWARD"; str "BALANCE B/F"] (upper line)
  then
    match rev (Re.findall amount_token_re line) with
    | last_tok :: _ => [last_tok]
    | [] => []
    end
  else [].

(** The amount a token gives. *)
Definition amount_of (tok : text) : float :=
  AmountSpec.decimal_or_zero (AmountSpec2.significant tok).

(** The field the last of the qualifying lines sets, or the value it
    had before. *)
Definition last_set {A} (values : list A) (before : A) : A :=
  last values before.

End MetaSpec.

(** ** The lines that open the PostValue table *)

Module TableSpec.

Definition header_line (line : text) : bool :=
  let u := upper line in
  (contains (str "POST DATE") u && contains (str "VALUE DATE") u
   && contains (str "DESCRIPTION") u)%bool.

Definition columns_line (line : text) : bool :=
  let u := upper line in
  (contains (str "DEBIT") u && contains (str "CREDIT") u
   && contains (str "BALANCE") u)%bool.

(** A line that can open the table: it names the amount columns and
    is not itself the header line. *)
Definition opens_table (line : text) : bool :=
  (columns_line line && negb (header_line line))%bool.

(** The state of the segmenter before the table: nothing read. *)
Definition outside (st : SegState) : Prop :=
  in_table st = false /\ current st = None /\ transactions_raw st = [].

(** A statement whose header is one line, naming the dates, the
    description and the amount columns, followed by a row. *)
Definition one_line_header_doc : document :=
  Samples.lines_doc
    [str "Post Date Value Date Description Cheque No Debit Credit Balance";
     str "01-04-2024 02-04-2024 ATM WDL 200.00 1,000.00"].

End TableSpec.

(** ** The segments of a description *)

Module CellSpec.

(** The segments between slashes, trimmed, the empty ones dropped. *)
Definition segments (text : text) : list Py.text :=
  let s := strip (replace [160%N] (str " ") text) in
  filter truthy (map strip (split (str "/") s)).

(** The text that is wrapped when there are fewer segments than
    lines: the segments with a slash between spaces, or the text
    itself. *)
Definition flowed (text : text) : Py.text :=
  let s := strip (replace [160%N] (str " ") text) in
  if 0 <? length (segments text) then join (str " / ") (segments text)
  else s.

(** A word: not empty and without white space. *)
Definition word (w : text) : Prop :=
  w <> [] /\ forallb (fun c => negb (is_space c)) w = true.

(** The words put one after the other on the line being filled. *)
Definition glue (cur : text) (todo : list text) : text :=
  fold_left
    (fun c w => match c with [] => w | _ :: _ => c ++ str " " ++ w end)
    todo cur.

End CellSpec.

(** ** The rows of a PostValue statement, read in one pass *)

Module PostSegmentSpec.
Import TableSpec.

(** Inside the table, header and column lines are passed over. *)
Definition passed_over (line : text) : bool :=
  (header_line line || columns_line line)%bool.

(** The lines that continue a row: those before the next dated line,
    without the lines passed over and the lines that begin with
    [page], in any case. *)
Fixpoint post_continuation (lines : list text) : list text :=
  match lines with
  | [] => []
  | l :: rest =>
      if passed_over l then post_continuation rest
      else if Re.matches date_line_pattern l then []
      else if startswith (str "page") (lower l) then post_continuation rest
      else l :: post_continuation rest
  end.

(** One block for each dated line: its two dates, then what follows
    them on the line, if anything, and the continuation lines. *)
Fixpoint post_blocks (lines : list text) : list RawBlock :=
  match lines with
  | [] => []
  | l :: rest =>
      if passed_over l then post_blocks rest
      else
        match Re.match_ date_line_pattern l with
        | Some m =>
            let tail := strip (slice_from (Re.m_pos m) l) in
            mkRaw (Re.group 1 l m) (Re.group 2 l m)
              ((if truthy tail then [tail] else []) ++ post_continuation rest)
              :: post_blocks rest
        | None => post_blocks rest
        end
  end.

(** The blocks read so far, the one being read last. *)
Definition blocks_of (st : SegState) : list RawBlock :=
  flush (current st) (transactions_raw st).

(** The block being read, with more lines. *)
Definition extended (c : RawBlock) (more : list text) : RawBlock :=
  mkRaw (rb_date c) (rb_value_date c) (rb_lines c ++ more).

End PostSegmentSpec.

(** ** The dates of the rows *)

Module DateSpec.
Import PostSegmentSpec.

(** The two dates of a record. *)
Definition dates (t : TransactionRecord) : text * text :=
  (date t, value_date t).

(** The dates of the dated lines of a PostValue table. *)
Definition post_row_dates (lines : list text) : list (text * text) :=
  flat_map
    (fun l =>
       if passed_over l then []
       else
         match Re.match_ date_line_pattern l with
         | Some m => [(Re.group 1 l m, Re.group 2 l m)]
         | None => []
         end)
    lines.

End DateSpec.

(** ** The amounts of a PostValue block *)

Module BlockSpec.

(** The lines of the block on one line, single-spaced. *)
Definition post_merged (block : RawBlock) : text :=
  strip (Re.sub (Re.plus Re.space) (fun _ => str " ")
           (join (str " ") (rb_lines block))).

(** The amount tokens of the block with their places. *)
Definition post_amounts (block : RawBlock) : list (text * nat * nat) :=
  amount_spans amount_token_re (post_merged block).

(** The token of the movement: the amount before the last one, or the
    only one. *)
Definition movement_token (amounts : list (text * nat * nat)) : text :=
  match rev amounts with
  | _ :: (tok, _, _) :: _ => tok
  | [(tok, _, _)] => tok
  | [] => []
  end.

(** The description of a record names a debit. *)
Definition names_debit (t : TransactionRecord) : bool :=
  existsb
    (fun k =>
       contains k
         (upper (description_line1 t ++ str " " ++ description_line2 t)))
    post_debit_keys.

End BlockSpec.

(** ** What the renderer reads *)

Module ShownSpec.

(** The fields of a record the renderer reads. *)
Definition shown (t : TransactionRecord)
  : text * text * text * text * text * float * float :=
  (date t, value_date t, description_line1 t, description_line2 t,
   cheque_ref t, debit t, credit t).

(** The fields of the metadata the renderer reads. *)
Definition shown_meta (m : StatementMetadata)
  : text * text * text * float * text :=
  (account_name m, account_number m, period m, opening_balance m, layout m).

(** Two records that differ in the description, the stored balance
    and the kept texts only. *)
Definition shown_sample : TransactionRecord :=
  mkTxn (str "01-04-2024") (str "02-04-2024") (str "ATM WDL")
    (str "ATM WDL") [] [] 200%Q 0%Q 1000%Q [] [] (str "1,000.00").

Definition shown_sample_edited : TransactionRecord :=
  mkTxn (str "01-04-2024") (str "02-04-2024") (str "CASH")
    (str "ATM WDL") [] [] 200%Q 0%Q 7%Q (str "200.00") [] [].

End ShownSpec.

(** ** Pages of clean lines *)

Module PageTextSpec.

(** The text of a page whose lines are [lines], one line feed between
    two lines. *)
Definition page_text (lines : list text) : text := join [10%N] lines.

End PageTextSpec.

(** ** The back-fill and the first row *)

Module BackfillSpec.
Import Samples.

(** A TxnValue statement without an opening-balance line whose first
    row has a debit of 0.20 and a balance of 0.10. *)
Definition rounding_txn_doc : document :=
  lines_doc [str "TXN DATE VALUE DATE DESCRIPTION"; table_start;
             str "01-04-2024 02-04-2024 ATM WDL 0.20 0.10"].

End BackfillSpec.

(* ================================================================== *)
(** * Supporting lemmas *)

(** ** Decimal digits *)

Module DigitFacts.

Lemma find_block_range (lo hi c : N) (l : list N) :
  (lo <= c <= hi)%N ->
  forallb (fun b => (hi <? b) || (b + 9 <? lo))%N l = true ->
  find (fun b => between b (b + 9) c) l = None.
Proof.
  intros Hc. induction l as [|b l IH]; [reflexivity|].
  cbn [forallb find]. rewrite andb_true_iff. intros [Hb Hl].
  replace (between b (b + 9) c) with false; [now apply IH|].
  symmetry. unfold between. apply orb_true_iff in Hb.
  rewrite !N.ltb_lt in Hb. apply andb_false_iff. rewrite !N.leb_gt. lia.
Qed.

(** Below the Arabic-Indic digits the only decimal digits are [0] to
    [9]. *)
Lemma decimal_block_low c :
  (c < 1632)%N ->
  decimal_block c = if is_digit c then Some 48%N else None.
Proof.
  intros Hc. unfold decimal_block.
  change decimal_blocks with (48%N :: tl decimal_blocks).
  cbn [find]. change (between 48 (48 + 9) c) with (is_digit c).
  destruct (is_digit c); [reflexivity|].
  apply (find_block_range 0 1631); [lia | vm_compute; reflexivity].
Qed.

Lemma is_decimal_low c : (c < 1632)%N -> is_decimal c = is_digit c.
Proof.
  intros Hc. unfold is_decimal. rewrite (decimal_block_low c Hc).
  now destruct (is_digit c).
Qed.

Lemma is_digit_bounds c : is_digit c = true <-> (48 <= c <= 57)%N.
Proof.
  unfold is_digit, between. now rewrite andb_true_iff, !N.leb_le.
Qed.

Lemma is_digit_decimal c : is_digit c = true -> is_decimal c = true.
Proof.
  intros H. rewrite is_decimal_low; [exact H|].
  apply is_digit_bounds in H. lia.
Qed.

Lemma decimal_value_digit c :
  is_digit c = true -> decimal_value c = Z.of_N (c - 48).
Proof.
  intros H. unfold decimal_value. rewrite decimal_block_low.
  - now rewrite H.
  - apply is_digit_bounds in H. lia.
Qed.

Lemma is_decimal_range (lo hi c : N) :
  (lo <= c <= hi)%N ->
  forallb (fun b => (hi <? b) || (b + 9 <? lo))%N decimal_blocks = true ->
  is_decimal c = false.
Proof.
  intros Hc H. unfold is_decimal, decimal_block.
  now rewrite (find_block_range lo hi c _ Hc H).
Qed.

(** No decimal digit is white space. *)
Lemma space_not_decimal c : is_space c = true -> is_decimal c = false.
Proof.
  unfold is_space, between, char_eqb.
  rewrite !orb_true_iff, !andb_true_iff, !N.leb_le, !N.eqb_eq.
  intros H.
  assert (R : ((0 <= c <= 47) \/ (58 <= c <= 1631) \/ (5760 <= c <= 5760)
              \/ (8192 <= c <= 12288))%N) by lia.
  destruct R as [R|[R|[R|R]]];
    refine (is_decimal_range _ _ c R _); vm_compute; reflexivity.
Qed.

Lemma decimal_not_space c : is_decimal c = true -> is_space c = false.
Proof.
  intros H. destruct (is_space c) eqn:E; [|reflexivity].
  apply space_not_decimal in E. congruence.
Qed.

(** No decimal digit is an ASCII letter, and none is changed by
    [upper]. *)
Lemma decimal_not_alpha c : is_decimal c = true -> is_alpha c = false.
Proof.
  intros H. destruct (is_alpha c) eqn:E; [|reflexivity].
  assert (L : (c < 1632)%N).
  { unfold is_alpha, is_upper, is_lower, between in E.
    rewrite orb_true_iff, !andb_true_iff, !N.leb_le in E. lia. }
  rewrite (is_decimal_low c L) in H. apply is_digit_bounds in H.
  unfold is_alpha, is_upper, is_lower, between in E.
  rewrite orb_true_iff, !andb_true_iff, !N.leb_le in E. lia.
Qed.

End DigitFacts.

(** ** AmountToken *)


Module AmountFacts.
Import Re AmountSpec AmountSpec2 DigitFacts.

(** Searching for one character of a class. *)
Lemma search_at_cls p pos prev rest :
  search_at (Cls p) pos prev rest =
  match rest with
  | [] => None
  | c :: t =>
      if p c then Some (pos, MState (S pos) (Some c) t [])
      else search_at (Cls p) (S pos) (Some c) t
  end.
Proof.
  destruct rest as [|c t]; [reflexivity|].
  simpl. destruct (p c); reflexivity.
Qed.

Lemma slice_app_here (pre rest : text) k :
  slice (length pre) (length pre + k) (pre ++ rest) = firstn k rest.
Proof.
  unfold slice. replace (length pre + k - length pre) with k by lia.
  rewrite skipn_app, skipn_all, Nat.sub_diag. reflexivity.
Qed.

Lemma slice_from_app_here (pre rest : text) :
  slice_from (length pre) (pre ++ rest) = rest.
Proof.
  unfold slice_from. rewrite skipn_app, skipn_all, Nat.sub_diag. reflexivity.
Qed.

(** Deleting the matches of a class keeps the other characters. *)
Lemma sub_cls_delete_go p :
  forall rest fuel pre prev k u,
    length rest < fuel ->
    length u = k -> forallb (fun c => negb (p c)) u = true ->
    sub_build ((pre ++ u) ++ rest) (length pre)
      (finditer_go (Cls p) fuel (length pre + k) prev rest)
      (fun _ => []) =
    u ++ filter (fun c => negb (p c)) rest.
Proof.
  induction rest as [|c t IH]; intros fuel pre prev k u Hf Hk Hu.
  - destruct fuel; [simpl in Hf; lia|]. simpl.
    rewrite app_nil_r. rewrite <- app_nil_r with (l := pre ++ u) at 1.
    rewrite <- app_assoc. rewrite slice_from_app_here. now rewrite !app_nil_r.
  - destruct fuel as [|fuel]; [simpl in Hf; lia|].
    destruct (p c) eqn:Pc.
    + cbn [finditer_go]. rewrite search_at_cls, Pc. cbn [m_pos fst snd].
      replace (length pre + k <? S (length pre + k)) with true
        by (symmetry; apply Nat.ltb_lt; lia).
      cbn [sub_build m_start m_end fst snd m_pos m_prev m_rest filter].
      rewrite Pc. cbn [negb app].
      rewrite <- app_assoc. rewrite slice_app_here.
      rewrite firstn_app, firstn_all2 by lia.
      replace (k - length u) with 0 by lia. cbn [firstn]. rewrite app_nil_r.
      f_equal.
      replace (pre ++ u ++ c :: t) with (((pre ++ u ++ [c]) ++ []) ++ t)
        by (rewrite app_nil_r, <- !app_assoc; reflexivity).
      replace (S (length pre + k)) with (length (pre ++ u ++ [c]) + 0)
        by (rewrite !length_app; simpl; lia).
      replace (length (pre ++ u ++ [c]) + 0) with (length (pre ++ u ++ [c]))
        at 1 by lia.
      rewrite (IH fuel (pre ++ u ++ [c]) (Some c) 0 []); simpl in *;
        auto; lia.
    + assert (E : finditer_go (Cls p) (S fuel) (length pre + k) prev (c :: t)
                  = finditer_go (Cls p) (S fuel) (length pre + S k)
                      (Some c) t).
      { cbn [finditer_go]. rewrite search_at_cls, Pc.
        replace (S (length pre + k)) with (length pre + S k) by lia.
        reflexivity. }
      rewrite E. cbn [filter]. rewrite Pc. cbn [negb].
      replace ((pre ++ u) ++ c :: t) with ((pre ++ u ++ [c]) ++ t)
        by (rewrite <- !app_assoc; reflexivity).
      rewrite (IH (S fuel) pre (Some c) (S k) (u ++ [c])).
      * rewrite <- app_assoc. reflexivity.
      * simpl in Hf. lia.
      * rewrite length_app. simpl. lia.
      * rewrite forallb_app, Hu. simpl. now rewrite Pc.
Qed.

Lemma sub_cls_delete p s :
  sub (Cls p) (fun _ => []) s = filter (fun c => negb (p c)) s.
Proof.
  unfold sub, finditer.
  exact (sub_cls_delete_go p s (S (length s)) [] None 0 []
           (Nat.lt_succ_diag_r _) eq_refl eq_refl).
Qed.

(** A string without white space at its ends is its own [strip]. *)
Lemma lstrip_no_space s :
  forallb (fun c => negb (is_space c)) s = true -> lstrip s = s.
Proof.
  destruct s as [|c t]; [reflexivity|]. simpl.
  rewrite andb_true_iff, negb_true_iff. intros [-> _]. reflexivity.
Qed.

Lemma strip_no_space s :
  forallb (fun c => negb (is_space c)) s = true -> strip s = s.
Proof.
  intros H. unfold strip, rstrip. rewrite (lstrip_no_space s H).
  rewrite lstrip_no_space, rev_involutive; [reflexivity|].
  rewrite forallb_forall in *. intros x Hx. apply H. now apply in_rev.
Qed.

Lemma kept_char_not_space c : kept_char c = true -> is_space c = false.
Proof.
  unfold kept_char. rewrite !orb_true_iff. intros [[H|H]|H].
  - now apply decimal_not_space.
  - apply N.eqb_eq in H. now subst c.
  - apply N.eqb_eq in H. now subst c.
Qed.

Lemma filter_kept_no_space s :
  forallb (fun c => negb (is_space c)) (filter kept_char s) = true.
Proof.
  apply forallb_forall. intros x Hx. apply filter_In in Hx.
  destruct Hx as [_ Hx]. now rewrite (kept_char_not_space _ Hx).
Qed.

Lemma cleaned_is_filter s :
  strip (sub (Cls not_amount_char) (fun _ => []) s)
  = filter kept_char s.
Proof.
  rewrite sub_cls_delete.
  assert (E : filter (fun c => negb (not_amount_char c)) s
              = filter kept_char s).
  { apply filter_ext. intros c. unfold not_amount_char, kept_char.
    now rewrite negb_involutive. }
  rewrite E. apply strip_no_space, filter_kept_no_space.
Qed.

Lemma char_eqb_eq a b : char_eqb a b = true <-> a = b.
Proof. unfold char_eqb. apply N.eqb_eq. Qed.

Lemma startswith_firstn : forall p s,
  startswith p s = true -> firstn (length p) s = p.
Proof.
  induction p as [|x p IH]; intros [|y s] H; try reflexivity;
    try discriminate.
  cbn [startswith] in H. apply andb_true_iff in H. destruct H as [E H].
  apply char_eqb_eq in E. subst y. cbn [length firstn]. f_equal.
  now apply IH.
Qed.

(** Characters a filter drops can be replaced without the filter
    seeing it. *)
Lemma filter_out (p : char -> bool) l :
  forallb (fun c => negb (p c)) l = true -> filter p l = [].
Proof.
  induction l as [|c l IH]; [reflexivity|].
  cbn [forallb filter]. rewrite andb_true_iff, negb_true_iff.
  intros [-> H]. now apply IH.
Qed.

Lemma filter_replace_go (p : char -> bool) o old new :
  forallb (fun c => negb (p c)) (o :: old) = true ->
  forallb (fun c => negb (p c)) new = true ->
  forall s skip,
  forallb (fun c => negb (p c)) (firstn skip s) = true ->
  filter p (replace_go (o :: old) new skip s) = filter p s.
Proof.
  intros old_out new_out.
  induction s as [|c t IH]; intros skip Hs; [reflexivity|].
  cbn [replace_go]. destruct skip as [|k].
  - destruct (startswith (o :: old) (c :: t)) eqn:E.
    + apply startswith_firstn in E.
      cbn [length firstn] in E. injection E as -> E.
      cbn [forallb] in old_out. apply andb_true_iff in old_out.
      destruct old_out as [Hc Hold].
      rewrite filter_app, (filter_out p new new_out). cbn [app filter].
      apply negb_true_iff in Hc. rewrite Hc.
      apply IH. cbn [length Nat.sub]. rewrite ?Nat.sub_0_r. now rewrite E.
    + cbn [filter]. rewrite (IH 0 eq_refl). reflexivity.
  - cbn [firstn forallb] in Hs. apply andb_true_iff in Hs.
    destruct Hs as [Hc Hs]. apply negb_true_iff in Hc.
    cbn [filter]. rewrite Hc. now apply IH.
Qed.

Lemma filter_replace (p : char -> bool) old new s :
  forallb (fun c => negb (p c)) old = true ->
  forallb (fun c => negb (p c)) new = true ->
  filter p (replace old new s) = filter p s.
Proof.
  intros Ho Hn. unfold replace. destruct old as [|o old]; [reflexivity|].
  now apply filter_replace_go.
Qed.

Lemma replace_single a b : forall s,
  replace [a] [b] s = map (fun c => if char_eqb c a then b else c) s.
Proof.
  unfold replace. induction s as [|c t IH]; [reflexivity|].
  cbn [replace_go startswith map length Nat.sub app].
  rewrite andb_true_r. unfold char_eqb at 1 2. rewrite N.eqb_sym.
  fold (char_eqb c a). destruct (char_eqb c a); cbn [app]; now rewrite IH.
Qed.

Lemma filter_map_fixed (q : char -> bool) (f : char -> char) :
  (forall c, q (f c) = q c) -> (forall c, q c = true -> f c = c) ->
  forall l, filter q (map f l) = filter q l.
Proof.
  intros H1 H2. induction l as [|c l IH]; [reflexivity|].
  cbn [map filter]. rewrite H1. destruct (q c) eqn:E; [|exact IH].
  rewrite (H2 c E). now f_equal.
Qed.

Lemma paren_to_minus_cases c :
  (c = 40%N /\ paren_to_minus c = 45%N)
  \/ (c <> 40%N /\ paren_to_minus c = c).
Proof.
  unfold paren_to_minus, char_eqb. destruct (N.eqb c 40) eqn:E.
  - left. now apply N.eqb_eq in E.
  - right. now apply N.eqb_neq in E.
Qed.

Lemma sig_cases c :
  sig c = true <->
  (is_decimal c = true \/ c = 46 \/ c = 45 \/ c = 40)%N.
Proof.
  unfold sig. destruct (paren_to_minus_cases c) as [[-> ->]|[N ->]].
  - split; [now auto|reflexivity].
  - unfold kept_char, char_eqb.
    rewrite !orb_true_iff, !N.eqb_eq. intuition.
Qed.

Lemma sig_low c :
  (c < 1632)%N ->
  sig c = true <-> (48 <= c <= 57 \/ c = 46 \/ c = 45 \/ c = 40)%N.
Proof.
  intros L. rewrite sig_cases, (is_decimal_low c L), is_digit_bounds.
  reflexivity.
Qed.

Lemma sig_false c :
  (c < 40 \/ 40 < c < 45 \/ c = 47 \/ 57 < c < 1632)%N -> sig c = false.
Proof.
  intros H. destruct (sig c) eqn:E; [|reflexivity].
  apply sig_low in E; lia.
Qed.

Lemma sig_upper c : sig (upper_char c) = sig c.
Proof.
  unfold upper_char, is_lower, between.
  destruct (97 <=? c)%N eqn:E1; [|reflexivity].
  destruct (c <=? 122)%N eqn:E2; [|reflexivity]. cbn [andb].
  apply N.leb_le in E1, E2.
  rewrite !sig_false; [reflexivity | lia | lia].
Qed.

Lemma upper_sig_fixed c : sig c = true -> upper_char c = c.
Proof.
  intros H.
  unfold upper_char, is_lower, between.
  destruct (97 <=? c)%N eqn:E1; [|reflexivity].
  destruct (c <=? 122)%N eqn:E2; [|reflexivity]. cbn [andb].
  apply N.leb_le in E1, E2.
  rewrite sig_false in H; [discriminate | lia].
Qed.

Lemma filter_kept_paren l :
  filter kept_char (map paren_to_minus l)
  = map paren_to_minus (filter sig l).
Proof.
  induction l as [|c l IH]; [reflexivity|].
  cbn [map filter]. unfold sig at 1. destruct (kept_char _);
    [cbn [map]|]; now rewrite IH.
Qed.

(** After the replacements, the filter keeps what it would have kept
    of the token itself, parentheses apart. *)
Lemma cleaned_is_significant s :
  filter kept_char
    (replace (str ")") []
       (replace (str "(") (str "-")
          (replace [160%N] (str " ")
             (replace (str ",") []
                (replace (str "DR") [] (replace (str "CR") [] (upper s)))))))
  = significant s.
Proof.
  rewrite (filter_replace kept_char (str ")") [] _ eq_refl eq_refl).
  change (str "(") with [40%N]. change (str "-") with [45%N].
  rewrite replace_single.
  change (fun c => if char_eqb c 40 then 45%N else c) with paren_to_minus.
  rewrite filter_kept_paren.
  rewrite (filter_replace sig [160%N] (str " ") _ eq_refl eq_refl).
  rewrite (filter_replace sig (str ",") [] _ eq_refl eq_refl).
  rewrite (filter_replace sig (str "DR") [] _ eq_refl eq_refl).
  rewrite (filter_replace sig (str "CR") [] _ eq_refl eq_refl).
  unfold upper.
  rewrite (filter_map_fixed sig upper_char sig_upper upper_sig_fixed).
  unfold significant. now rewrite filter_kept_paren.
Qed.

(** [_parse_amount] reads the significant characters of its token and
    returns. *)
Lemma parse_amount_significant s :
  _parse_amount s = Return (decimal_or_zero (significant s)).
Proof.
  unfold _parse_amount, decimal_or_zero.
  destruct s as [|c t]; [reflexivity|].
  cbn [truthy negb]. rewrite cleaned_is_filter, cleaned_is_significant.
  match goal with |- context [text_in ?x ?l] => destruct (text_in x l) end;
    cbn [negb try_except]; [reflexivity|].
  match goal with |- context [py_float ?x] => destruct (py_float x) end;
    reflexivity.
Qed.

(** The amended rules keep the same characters. *)
Lemma filter_sig_rev_tail (a b : char) r :
  sig a = false -> sig b = false ->
  filter sig (rev r) = filter sig (rev (a :: b :: r)).
Proof.
  intros Ha Hb. cbn [rev]. rewrite !filter_app. cbn [filter].
  rewrite Ha, Hb. now rewrite !app_nil_r.
Qed.

Lemma filter_sig_without_suffix s :
  filter sig (without_suffix s) = filter sig s.
Proof.
  unfold without_suffix.
  assert (H : forall r u, u = rev r ->
    filter sig match r with
               | 82%N :: 67%N :: r' => rev r'
               | 82%N :: 68%N :: r' => rev r'
               | _ => u
               end = filter sig u).
  { intros r u ->. destruct r as [|a [|b r]]; [reflexivity| |].
    - destruct a as [|p]; [reflexivity|].
      do 7 (try (destruct p as [p|p|]; try reflexivity)).
    - destruct a as [|p]; [now destruct b|].
      do 7 (try (destruct p as [p|p|]; try (now destruct b))).
      destruct b as [|p]; [reflexivity|].
      do 7 (try (destruct p as [p|p|]; try reflexivity));
        apply filter_sig_rev_tail; reflexivity. }
  apply H. symmetry. apply rev_involutive.
Qed.

Lemma filter_sig_without_separators s :
  filter sig (without_separators s) = filter sig s.
Proof.
  unfold without_separators. induction s as [|c t IH]; [reflexivity|].
  cbn [filter]. unfold char_eqb at 1. destruct (N.eqb c 44) eqn:E.
  - apply N.eqb_eq in E. subst c. cbn [negb]. exact IH.
  - cbn [negb filter]. now rewrite IH.
Qed.

Lemma filter_sig_spaces_normalized s :
  filter sig (spaces_normalized s) = filter sig s.
Proof.
  unfold spaces_normalized. induction s as [|c t IH]; [reflexivity|].
  cbn [map filter]. destruct (char_eqb c 160) eqn:E.
  - apply char_eqb_eq in E. subst c. exact IH.
  - now rewrite IH.
Qed.

Lemma filter_kept_closing s :
  filter kept_char (filter (fun c => negb (char_eqb c 41)) s)
  = filter kept_char s.
Proof.
  induction s as [|c t IH]; [reflexivity|].
  cbn [filter]. unfold char_eqb at 1. destruct (N.eqb c 41) eqn:E.
  - apply N.eqb_eq in E. subst c. cbn [negb]. exact IH.
  - cbn [negb filter]. now rewrite IH.
Qed.

Lemma amended_is_significant s :
  amended_rules s = decimal_or_zero (significant s).
Proof.
  unfold amended_rules. f_equal.
  rewrite filter_kept_closing, filter_kept_paren.
  rewrite filter_sig_spaces_normalized, filter_sig_without_separators,
    filter_sig_without_suffix.
  unfold upper.
  rewrite (filter_map_fixed sig upper_char sig_upper upper_sig_fixed).
  unfold significant. now rewrite filter_kept_paren.
Qed.

(** [_parse_amount] computes the amended rules and returns. *)
Lemma parse_amount_rules s :
  _parse_amount s = Return (amended_rules s).
Proof.
  rewrite parse_amount_significant. now rewrite amended_is_significant.
Qed.

Lemma parse_amount_total s : exists q, _parse_amount s = Return q.
Proof. eexists. apply parse_amount_rules. Qed.

End AmountFacts.

(* ================================================================== *)
(** ** Facts about the matcher *)

Module ReFacts.
Import Re ReSpec.


Lemma reads_refl s : reads s s [].
Proof. split; simpl; [reflexivity | lia]. Qed.

Lemma reads_trans s1 s2 s3 t u :
  reads s1 s2 t -> reads s2 s3 u -> reads s1 s3 (t ++ u).
Proof.
  intros [R1 P1] [R2 P2]. split.
  - rewrite R1, R2, app_assoc. reflexivity.
  - rewrite P2, P1, length_app. lia.
Qed.

Lemma in_run_seq a b s e :
  In e (run (Seq a b) s) <-> exists s1, In s1 (run a s) /\ In e (run b s1).
Proof. simpl. apply in_flat_map. Qed.

Lemma in_run_cls p s e :
  In e (run (Cls p) s) ->
  exists c, p c = true /\ m_prev e = Some c /\ reads s e [c].
Proof.
  simpl. destruct (m_rest s) as [|c t] eqn:E; [easy|].
  destruct (p c) eqn:P; [|easy]. intros [<-|[]].
  exists c. repeat split; simpl; auto. lia.
Qed.

Lemma in_run_bol s e : In e (run Bol s) -> e = s /\ m_pos s = 0.
Proof.
  simpl. destruct (m_pos s =? 0) eqn:E; [|easy].
  intros [<-|[]]. split; [reflexivity | now apply Nat.eqb_eq].
Qed.

Lemma in_run_eol s e :
  In e (run Eol s) -> e = s /\ (m_rest s = [] \/ m_rest s = [10%N]).
Proof.
  simpl. destruct (m_rest s) as [|c [|c' t]] eqn:E; try easy.
  - intros [<-|[]]. auto.
  - unfold char_eqb. destruct (N.eqb c 10) eqn:C; [|easy].
    apply N.eqb_eq in C. subst c. intros [<-|[]]. auto.
Qed.

Lemma star_loop_reads f :
  (forall s e, In e (f s) -> exists t, reads s e t) ->
  forall n s e, In e (star_loop f n s) -> exists t, reads s e t.
Proof.
  intros Hf. induction n as [|n IH]; intros s e; simpl.
  - intros [<-|[]]. exists []. apply reads_refl.
  - rewrite in_app_iff, in_flat_map. intros [[s1 [H1 H2]]|[<-|[]]].
    + destruct (m_pos s <? m_pos s1); [|easy].
      destruct (Hf _ _ H1) as [t Ht]. destruct (IH _ _ H2) as [u Hu].
      exists (t ++ u). eapply reads_trans; eauto.
    + exists []. apply reads_refl.
Qed.

Lemma lazy_loop_reads f :
  (forall s e, In e (f s) -> exists t, reads s e t) ->
  forall n s e, In e (lazy_loop f n s) -> exists t, reads s e t.
Proof.
  intros Hf. induction n as [|n IH]; intros s e; simpl.
  - intros [<-|[]]. exists []. apply reads_refl.
  - rewrite in_flat_map. intros [<-|[s1 [H1 H2]]].
    + exists []. apply reads_refl.
    + destruct (m_pos s <? m_pos s1); [|easy].
      destruct (Hf _ _ H1) as [t Ht]. destruct (IH _ _ H2) as [u Hu].
      exists (t ++ u). eapply reads_trans; eauto.
Qed.

Lemma run_reads r : forall s e, In e (run r s) -> exists t, reads s e t.
Proof.
  induction r; intros s e H.
  - destruct H as [<-|[]]. exists []. apply reads_refl.
  - apply in_run_cls in H. destruct H as [c [_ [_ H]]]. eauto.
  - apply in_run_seq in H. destruct H as [s1 [H1 H2]].
    destruct (IHr1 _ _ H1) as [t Ht]. destruct (IHr2 _ _ H2) as [u Hu].
    exists (t ++ u). eapply reads_trans; eauto.
  - simpl in H. apply in_app_iff in H. destruct H; eauto.
  - eapply star_loop_reads with (f := run r); [exact IHr | exact H].
  - eapply lazy_loop_reads with (f := run r); [exact IHr | exact H].
  - simpl in H. apply in_map_iff in H. destruct H as [s1 [<- H]].
    destruct (IHr _ _ H) as [t [Ht1 Ht2]]. exists t. split; simpl; auto.
  - apply in_run_bol in H. destruct H as [-> _]. exists []. apply reads_refl.
  - apply in_run_eol in H. destruct H as [-> _]. exists []. apply reads_refl.
  - simpl in H. destruct (xorb _ _); [|easy]. destruct H as [<-|[]].
    exists []. apply reads_refl.
  - simpl in H. destruct (run r s); [easy|]. destruct H as [<-|[]].
    exists []. apply reads_refl.
Qed.

Lemma in_run_alt a b s e :
  In e (run (Alt a b) s) <-> In e (run a s) \/ In e (run b s).
Proof. simpl. apply in_app_iff. Qed.

Lemma in_run_eps s e : In e (run Eps s) -> e = s.
Proof. intros [<-|[]]. reflexivity. Qed.

Lemma matches_in r s :
  matches r s = true -> exists e, In e (run r (start_state 0 None s)).
Proof.
  unfold matches, match_.
  destruct (run r (start_state 0 None s)) as [|e l]; [easy|].
  intros _. exists e. now left.
Qed.

(** Inversion of a run along the structure of the expression. *)
Ltac inv_run :=
  repeat match goal with
  | H : In _ (run (Seq _ _) _) |- _ =>
      apply in_run_seq in H; destruct H as [? [? ?]]
  | H : In _ (run (Alt _ _) _) |- _ =>
      apply in_run_alt in H; destruct H
  | H : In _ (run (Cls _) _) |- _ =>
      apply in_run_cls in H; destruct H as [? [? [? ?]]]
  | H : In _ (run Eps _) |- _ => apply in_run_eps in H; subst
  | H : In _ (run Bol _) |- _ => apply in_run_bol in H; destruct H as [? ?]; subst
  | H : In _ (run Eol _) |- _ => apply in_run_eol in H; destruct H as [? ?]; subst
  | H : In _ (run (Star _) _) |- _ =>
      apply run_reads in H; destruct H as [? ?]
  end.

End ReFacts.

(* ================================================================== *)
(** ** The four line classes of the normaliser *)

Module NormFacts.
Import Re ReSpec ReFacts NormSpec.

Lemma digit_not_alpha c : is_decimal c = true -> is_alpha c = true -> False.
Proof.
  intros D A. apply DigitFacts.decimal_not_alpha in D. congruence.
Qed.

Ltac chain :=
  repeat match goal with
  | H : reads _ _ _ |- _ => destruct H as [? ?]
  end; cbn [m_rest m_pos m_prev start_state app] in *.

(** Rewrite the subject as the characters read followed by what the
    final state has left. *)
Ltac unchain :=
  repeat match goal with
  | H : m_rest ?x = _, H' : _ = ?rhs |- _ =>
      match rhs with context [m_rest x] => rewrite H in H' end
  end.

Ltac shape_start H e :=
  apply matches_in in H; destruct H as [e H];
  cbv [day_mon_re year_re short_day_re short_mon_re
       seqs times rep upto opt plus digit alpha space Nat.sub] in H;
  inv_run; chain; unchain.

Lemma year_shape s :
  matches year_re s = true ->
  4 <= length s <= 5 /\
  exists t d nl, s = t ++ d :: nl /\ is_decimal d = true
                 /\ (nl = [] \/ nl = [10%N]).
Proof.
  intros H. shape_start H e.
  match goal with
  | E : s = ?a :: ?b :: ?c :: ?d :: ?r, D : is_decimal ?d = true,
    N : ?r = [] \/ _ |- _ =>
      split;
      [ rewrite E; simpl; destruct N as [-> | ->]; simpl; lia
      | exists [a; b; c], d, r; auto ]
  end.
Qed.

Lemma short_day_len s :
  matches short_day_re s = true -> 1 <= length s <= 3.
Proof.
  intros H. shape_start H e;
  match goal with
  | E : s = _, N : ?r = [] \/ _ |- _ =>
      rewrite E; simpl; destruct N as [-> | ->]; simpl; lia
  end.
Qed.

Lemma short_mon_len s :
  matches short_mon_re s = true -> 3 <= length s <= 4.
Proof.
  intros H. shape_start H e;
  match goal with
  | E : s = _, N : ?r = [] \/ _ |- _ =>
      rewrite E; simpl; destruct N as [-> | ->]; simpl; lia
  end.
Qed.

Lemma day_mon_shape s :
  matches day_mon_re s = true ->
  5 <= length s /\
  exists t l nl, s = t ++ l :: nl /\ is_alpha l = true
                 /\ (nl = [] \/ nl = [10%N]).
Proof.
  intros H. shape_start H e.
  all: match goal with
       | E : ?s0 = _ |- _ <= length ?s0 /\ _ =>
           split; [rewrite E; simpl; rewrite ?length_app; simpl; lia|]
       end.
  - match goal with
    | E : s = ?a :: ?b :: ?c :: ?x ++ ?d :: ?e :: ?l :: ?r |- _ =>
        exists (a :: b :: c :: x ++ [d; e]), l, r; split;
        [rewrite E; simpl; rewrite <- app_assoc; reflexivity | auto]
    end.
  - match goal with
    | E : s = ?a :: ?c :: ?x ++ ?d :: ?e :: ?l :: ?r |- _ =>
        exists (a :: c :: x ++ [d; e]), l, r; split;
        [rewrite E; simpl; rewrite <- app_assoc; reflexivity | auto]
    end.
Qed.


Lemma is_digit_10 : is_decimal 10 = false.
Proof. reflexivity. Qed.

Lemma is_alpha_10 : is_alpha 10 = false.
Proof. reflexivity. Qed.

(** A string that ends like a year line is not a day-month line. *)
Lemma year_tail_not_day_mon pre y :
  matches year_re y = true -> matches day_mon_re (pre ++ y) = false.
Proof.
  intros Hy. destruct (matches day_mon_re (pre ++ y)) eqn:Hm; [|reflexivity].
  exfalso.
  apply year_shape in Hy. destruct Hy as [_ [t [d [nl [-> [Hd Hnl]]]]]].
  apply day_mon_shape in Hm.
  destruct Hm as [_ [t' [l [nl' [E [Hl Hnl']]]]]].
  assert (Hd10 := is_digit_10). assert (Hl10 := is_alpha_10).
  destruct Hnl as [-> | ->], Hnl' as [-> | ->].
  - replace (pre ++ t ++ [d]) with ((pre ++ t) ++ [d]) in E
      by (rewrite <- app_assoc; reflexivity).
    apply app_inj_tail in E. destruct E as [_ ->].
    eapply digit_not_alpha; eauto.
  - replace (pre ++ t ++ [d]) with ((pre ++ t) ++ [d]) in E
      by (rewrite <- app_assoc; reflexivity).
    replace (t' ++ [l; 10%N]) with ((t' ++ [l]) ++ [10%N]) in E
      by (rewrite <- app_assoc; reflexivity).
    apply app_inj_tail in E. destruct E as [_ ->]. congruence.
  - replace (pre ++ t ++ [d; 10%N]) with ((pre ++ t ++ [d]) ++ [10%N]) in E
      by (rewrite <- !app_assoc; reflexivity).
    apply app_inj_tail in E. destruct E as [_ <-]. congruence.
  - replace (pre ++ t ++ [d; 10%N]) with (((pre ++ t) ++ [d]) ++ [10%N]) in E
      by (rewrite <- !app_assoc; reflexivity).
    replace (t' ++ [l; 10%N]) with ((t' ++ [l]) ++ [10%N]) in E
      by (rewrite <- app_assoc; reflexivity).
    apply app_inj_tail in E. destruct E as [E _].
    apply app_inj_tail in E. destruct E as [_ ->].
    eapply digit_not_alpha; eauto.
Qed.

Lemma long_inert x :
  6 <= length x -> matches day_mon_re x = false -> inert x.
Proof.
  intros L Hdm. repeat split; auto.
  - destruct (matches short_day_re x) eqn:E; [|reflexivity].
    apply short_day_len in E. lia.
  - destruct (matches short_mon_re x) eqn:E; [|reflexivity].
    apply short_mon_len in E. lia.
  - destruct (matches year_re x) eqn:E; [|reflexivity].
    apply year_shape in E. lia.
Qed.

Lemma merged2_inert a b :
  matches day_mon_re a = true -> matches year_re b = true ->
  inert (a ++ str " " ++ b).
Proof.
  intros Ha Hb. apply long_inert.
  - apply day_mon_shape in Ha. apply year_shape in Hb.
    rewrite !length_app. simpl. lia.
  - rewrite app_assoc. now apply year_tail_not_day_mon.
Qed.

Lemma merged3_inert a b c :
  matches short_day_re a = true -> matches short_mon_re b = true ->
  matches year_re c = true ->
  inert (a ++ str " " ++ b ++ str " " ++ c).
Proof.
  intros Ha Hb Hc. apply long_inert.
  - apply short_day_len in Ha. apply short_mon_len in Hb.
    apply year_shape in Hc.
    repeat (rewrite length_app; cbn [length str map list_ascii_of_string]).
    lia.
  - replace (a ++ str " " ++ b ++ str " " ++ c)
      with ((a ++ str " " ++ b ++ str " ") ++ c)
      by (rewrite <- !app_assoc; reflexivity).
    now apply year_tail_not_day_mon.
Qed.


Local Abbreviation N := _normalize_multiline_dates.


Lemma N_cons2 a b r :
  N (a :: b :: r) =
  if fires2 a b then (a ++ str " " ++ b) :: N r
  else match r with
       | [] => a :: N [b]
       | c :: r' =>
           if fires3 a b c
           then (a ++ str " " ++ b ++ str " " ++ c) :: N r'
           else a :: N (b :: r)
       end.
Proof. destruct r; reflexivity. Qed.

Lemma fires2_inert_l x b : inert x -> fires2 x b = false.
Proof. intros [H _]. unfold fires2. now rewrite H. Qed.

Lemma fires2_inert_r a x : inert x -> fires2 a x = false.
Proof. intros [_ [_ [_ H]]]. unfold fires2. now rewrite H, andb_false_r. Qed.

Lemma fires3_inert_1 x b c : inert x -> fires3 x b c = false.
Proof. intros [_ [H _]]. unfold fires3. now rewrite H. Qed.

Lemma fires3_inert_2 a x c : inert x -> fires3 a x c = false.
Proof.
  intros [_ [_ [H _]]]. unfold fires3. now rewrite H, andb_false_r.
Qed.

Lemma fires3_inert_3 a b x : inert x -> fires3 a b x = false.
Proof. intros [_ [_ [_ H]]]. unfold fires3. now rewrite H, andb_false_r. Qed.

Lemma fires2_merged a b : fires2 a b = true -> inert (a ++ str " " ++ b).
Proof.
  unfold fires2. rewrite andb_true_iff. intros [? ?].
  now apply merged2_inert.
Qed.

Lemma fires3_merged a b c :
  fires3 a b c = true -> inert (a ++ str " " ++ b ++ str " " ++ c).
Proof.
  unfold fires3. rewrite !andb_true_iff. intros [[? ?] ?].
  now apply merged3_inert.
Qed.

(** An inert line is copied, whatever follows it. *)
Lemma N_inert_cons x out : inert x -> N (x :: out) = x :: N out.
Proof.
  intros Hx. destruct out as [|b [|c r]]; [reflexivity| |];
    rewrite N_cons2, (fires2_inert_l _ _ Hx); [reflexivity|].
  now rewrite (fires3_inert_1 _ _ _ Hx).
Qed.

(** The first line of the output is the first line of the input or a
    merged, hence inert, line. *)
Lemma N_head c r :
  exists y rest, N (c :: r) = y :: rest /\ (y = c \/ inert y).
Proof.
  destruct r as [|d r]; [exists c, []; auto|].
  rewrite N_cons2. destruct (fires2 c d) eqn:F2.
  - eexists _, _. split; [reflexivity|]. right. now apply fires2_merged.
  - destruct r as [|e r]; [eexists _, _; eauto|].
    destruct (fires3 c d e) eqn:F3.
    + eexists _, _. split; [reflexivity|]. right. now apply fires3_merged.
    + eexists _, _. eauto.
Qed.

(** After an inert line, the copy of a line [a] that started no merge
    stays a copy, when the lines after it are already normalised. *)
Lemma N_keep_before_inert a m out :
  inert m -> N (m :: out) = m :: out -> N (a :: m :: out) = a :: m :: out.
Proof.
  intros Hm Hfix. rewrite N_cons2, (fires2_inert_r _ _ Hm).
  destruct out as [|c out'].
  - reflexivity.
  - now rewrite (fires3_inert_2 _ _ _ Hm), Hfix.
Qed.

End NormFacts.

(* ================================================================== *)
(** ** Renderer: running balance and body rows *)

Module RenderFacts.
Import RenderSpec.

Lemma or_zero_value x : (value (or_zero x) == value x)%Q.
Proof.
  unfold or_zero. destruct x as [q| | |]; cbn [is_zero value];
    try reflexivity.
  destruct (Qeq_bool q 0) eqn:E; [|reflexivity].
  apply Qeq_bool_eq in E. cbn [value]. now rewrite E.
Qed.

Lemma or_zero_idem x : or_zero (or_zero x) = or_zero x.
Proof.
  unfold or_zero. destruct (is_zero x) eqn:E; [reflexivity|].
  now rewrite E.
Qed.

Lemma render_rows_cons layout r t txns :
  render_rows layout r (t :: txns) =
  (fst (render_rows layout (fst (render_row layout r t)) txns),
   snd (render_row layout r t)
     :: snd (render_rows layout (fst (render_row layout r t)) txns)).
Proof.
  cbn [render_rows]. destruct (render_row layout r t) as [r1 row].
  cbn [fst snd]. destruct (render_rows layout r1 txns). reflexivity.
Qed.

Lemma render_row_running layout r t :
  fst (render_row layout r t) = row_update r t.
Proof. reflexivity. Qed.

Lemma render_rows_app layout : forall a b r,
  render_rows layout r (a ++ b) =
  (fst (render_rows layout (fst (render_rows layout r a)) b),
   snd (render_rows layout r a)
     ++ snd (render_rows layout (fst (render_rows layout r a)) b)).
Proof.
  induction a as [|t a IH]; intros b r.
  - cbn [app render_rows fst snd]. now destruct (render_rows layout r b).
  - cbn [app]. rewrite !render_rows_cons. cbn [fst snd]. rewrite IH.
    reflexivity.
Qed.

Lemma render_rows_length layout : forall txns r,
  length (snd (render_rows layout r txns)) = length txns.
Proof.
  induction txns as [|t txns IH]; intros r; [reflexivity|].
  rewrite render_rows_cons. cbn [snd length]. now rewrite IH.
Qed.

(** The carried total is the row updates applied in order. *)
Lemma render_rows_total layout : forall txns r,
  fst (render_rows layout r txns) = fold_left row_update txns r.
Proof.
  induction txns as [|t txns IH]; intros r; [reflexivity|].
  rewrite render_rows_cons. cbn [fst fold_left].
  now rewrite IH, render_row_running.
Qed.

(** The stored balance of a row plays no part in a rendered row. *)
Lemma render_row_with_balance layout r b t :
  render_row layout r (with_balance b t) = render_row layout r t.
Proof. reflexivity. Qed.

Lemma render_rows_with_balance layout f : forall txns r,
  render_rows layout r (map (fun t => with_balance (f t) t) txns)
  = render_rows layout r txns.
Proof.
  induction txns as [|t txns IH]; intros r; [reflexivity|].
  cbn [map]. rewrite !render_rows_cons, render_row_with_balance, IH.
  reflexivity.
Qed.

Lemma removelast_snoc {A} (l : list A) x : removelast (l ++ [x]) = l.
Proof. apply removelast_last. Qed.

Lemma table_body_page layout rows :
  table_body layout
    (header_row layout :: rows
       ++ (if text_eqb layout SBI_POST_VALUE then [footer_row] else []))
  = rows.
Proof.
  unfold table_body. cbn [tl].
  destruct (text_eqb layout SBI_POST_VALUE).
  - apply removelast_snoc.
  - apply app_nil_r.
Qed.

(** Pagination: the pages together hold the rows of all the
    transactions, and the total is carried across the pages. *)
Lemma render_pages_rows layout rpp :
  0 < rpp ->
  forall fuel txns r,
    length txns <= fuel ->
    render_pages fuel layout rpp r txns
    = (fst (render_pages fuel layout rpp r txns),
       snd (render_pages fuel layout rpp r txns)) /\
    fst (render_pages fuel layout rpp r txns)
      = fst (render_rows layout r txns) /\
    body_rows layout (snd (render_pages fuel layout rpp r txns))
      = snd (render_rows layout r txns).
Proof.
  intros Hrpp. induction fuel as [|fuel IH]; intros txns r Hlen.
  - destruct txns; [|simpl in Hlen; lia]. repeat split; reflexivity.
  - destruct txns as [|t txns]; [repeat split; reflexivity|].
    split; [now destruct (render_pages _ _ _ _ _)|].
    cbn [render_pages].
    set (all := t :: txns) in *.
    destruct (render_rows layout r (firstn rpp all)) as [r1 rows] eqn:E1.
    assert (Hlater : length (skipn rpp all) <= fuel).
    { rewrite length_skipn. subst all. cbn [length] in *. lia. }
    destruct (IH (skipn rpp all) r1 Hlater) as [_ [IHr IHb]].
    destruct (render_pages fuel layout rpp r1 (skipn rpp all))
      as [final more] eqn:E2.
    cbn [fst snd] in *.
    assert (Esplit : render_rows layout r all
                     = render_rows layout r (firstn rpp all ++ skipn rpp all))
      by now rewrite firstn_skipn.
    rewrite render_rows_app, E1 in Esplit. cbn [fst snd] in Esplit.
    rewrite Esplit. cbn [fst snd]. split; [exact IHr|].
    unfold body_rows. cbn [flat_map]. rewrite table_body_page.
    rewrite flat_map_app.
    fold (body_rows layout more). rewrite IHb.
    replace (flat_map _ (if truthy_list (skipn rpp all) then [PageBreak] else []))
      with (@nil (list flowable)) by (destruct (truthy_list _); reflexivity).
    reflexivity.
Qed.

Lemma rows_per_page_pos layout : 0 < ROWS_PER_PAGE layout.
Proof. unfold ROWS_PER_PAGE. destruct (text_eqb layout SBI_TXN_VALUE); lia. Qed.


Lemma body_rows_app layout a b :
  body_rows layout (a ++ b) = body_rows layout a ++ body_rows layout b.
Proof. apply flat_map_app. Qed.

(** The body rows of the story are the rows of the transactions in
    order, whatever the pagination. *)
Lemma generate_body_rows s :
  body_rows (renderer_layout s) (story (generate_pdf_from_data s))
  = snd (render_rows (renderer_layout s)
           (or_zero (opening_balance (meta (data s))))
           (transactions (data s))).
Proof.
  unfold generate_pdf_from_data.
  set (L := renderer_layout s).
  set (B := or_zero (opening_balance (meta (data s)))).
  set (txns := transactions (data s)).
  destruct (render_pages_rows L (ROWS_PER_PAGE L) (rows_per_page_pos L)
              (length txns) txns B (Nat.le_refl _)) as [E [_ Hb]].
  rewrite E. cbn [story]. rewrite body_rows_app, Hb.
  destruct (truthy _ || truthy _ || truthy _)%bool; reflexivity.
Qed.

Lemma firstn_snoc {A} : forall (l : list A) i x,
  nth_error l i = Some x -> firstn (S i) l = firstn i l ++ [x].
Proof.
  induction l as [|a l IH]; intros [|i] x H; try discriminate.
  - injection H as ->. reflexivity.
  - cbn [firstn app]. f_equal. now apply IH.
Qed.

Lemma carried_step layout B txns i t :
  nth_error txns i = Some t ->
  carried layout B txns (S i)
  = fst (render_row layout (carried layout B txns i) t).
Proof.
  intros H. unfold carried. rewrite (firstn_snoc txns i t H).
  rewrite render_rows_app. cbn [fst].
  rewrite render_rows_cons. reflexivity.
Qed.

Lemma carried_past layout B txns i :
  nth_error txns i = None ->
  carried layout B txns (S i) = carried layout B txns i.
Proof.
  intros H. apply nth_error_None in H. unfold carried.
  now rewrite !firstn_all2 by lia.
Qed.

Lemma render_rows_nth layout : forall txns r i,
  nth_error (snd (render_rows layout r txns)) i
  = option_map
      (fun t =>
         snd (render_row layout
                (fst (render_rows layout r (firstn i txns))) t))
      (nth_error txns i).
Proof.
  induction txns as [|t txns IH]; intros r i.
  - destruct i; reflexivity.
  - rewrite render_rows_cons. destruct i as [|i]; [reflexivity|].
    cbn [snd nth_error firstn]. rewrite IH, render_rows_cons. reflexivity.
Qed.

Lemma amount_cell_or_zero x :
  amount_cell_text (or_zero x) = amount_cell_text x.
Proof.
  unfold or_zero. destruct (is_zero x) eqn:E; [|reflexivity].
  unfold amount_cell_text. now rewrite E.
Qed.

(** What the debit, credit and balance cells of a rendered row show. *)
Lemma financial_cells_row layout r t :
  financial_cells (snd (render_row layout r t))
  = (amount_cell_text (debit t), amount_cell_text (credit t),
     format_2f (fst (render_row layout r t)) ++ cr_suffix layout).
Proof.
  unfold financial_cells, render_row. cbn [snd fst nth cell_text].
  now rewrite !amount_cell_or_zero.
Qed.

Lemma render_pages_with_balance layout rpp f : forall fuel txns r,
  render_pages fuel layout rpp r (map (fun t => with_balance (f t) t) txns)
  = render_pages fuel layout rpp r txns.
Proof.
  induction fuel as [|fuel IH]; intros txns r; [reflexivity|].
  destruct txns as [|t txns]; [reflexivity|].
  cbn [render_pages map].
  change (with_balance (f t) t :: map (fun t0 => with_balance (f t0) t0) txns)
    with (map (fun t0 => with_balance (f t0) t0) (t :: txns)).
  rewrite firstn_map, skipn_map, render_rows_with_balance.
  destruct (render_rows layout r (firstn rpp (t :: txns))) as [r1 rows].
  rewrite IH.
  destruct (skipn rpp (t :: txns)); reflexivity.
Qed.

Lemma generate_with_balance f s :
  generate_pdf_from_data (rebalance f s) = generate_pdf_from_data s.
Proof.
  unfold generate_pdf_from_data, rebalance.
  cbn [data transactions meta stmt_id].
  change (renderer_layout
            (mkStatement (stmt_layout s)
               (mkParsed (meta (data s))
                  (map (fun t => with_balance (f t) t)
                     (transactions (data s))))
               (stmt_id s)))
    with (renderer_layout s).
  now rewrite length_map, render_pages_with_balance.
Qed.

End RenderFacts.

(* ================================================================== *)
(** ** The parsers return, and their records move one way *)

Module ParseFacts.
Import ParseSpec AmountFacts.

Lemma mapM_total {A B} (f : A -> result B) (P : B -> Prop) :
  (forall x, exists y, f x = Return y /\ P y) ->
  forall xs, exists ys, mapM f xs = Return ys /\ Forall P ys.
Proof.
  intros Hf. induction xs as [|x xs [ys [E HP]]].
  - exists []. split; [reflexivity | constructor].
  - destruct (Hf x) as [y [Ey Py]]. exists (y :: ys).
    cbn [mapM]. rewrite Ey, E. split; [reflexivity | now constructor].
Qed.

Lemma foldM_total {A B} (f : A -> B -> result A) :
  (forall a x, exists a', f a x = Return a') ->
  forall xs a, exists a', foldM f a xs = Return a'.
Proof.
  intros Hf. induction xs as [|x xs IH]; intros a.
  - now exists a.
  - cbn [foldM]. destruct (Hf a x) as [a' ->]. cbn [bind]. apply IH.
Qed.

Lemma meta_step_total m line : exists m', meta_step m line = Return m'.
Proof.
  unfold meta_step.
  destruct (startswith_any [str "BROUGHT FORWARD"; str "BALANCE B/F"] _);
    [|eauto].
  destruct (rev _); [eauto|].
  rewrite parse_amount_rules. cbn [bind]. eauto.
Qed.

Lemma scan_meta_total lines : exists m, scan_meta lines = Return m.
Proof. apply foldM_total, meta_step_total. Qed.

(** Case analysis on the tests of a classifier, amounts parsed on the
    way. *)
Ltac classify :=
  repeat first
    [ rewrite parse_amount_rules
    | progress cbn [bind try_except]
    | match goal with
      | |- context [match ?x with _ => _ end] => destruct x
      end ].

Lemma post_value_block_exclusive block :
  exists t, post_value_block block = Return t /\ exclusive t.
Proof.
  unfold post_value_block, exclusive. classify;
    (eexists; split; [reflexivity | cbn [debit credit]; auto]).
Qed.

Lemma classify_movement_exclusive txn_tok desc_main cheque_ref :
  exists d c od oc,
    classify_movement txn_tok desc_main cheque_ref = Return (d, c, od, oc)
    /\ (d = 0%Q \/ c = 0%Q).
Proof.
  unfold classify_movement. classify; eauto 10.
Qed.

Lemma unglue_reference_total normalized t_start txn_tok :
  exists r, unglue_reference normalized t_start txn_tok = Return r.
Proof. unfold unglue_reference. classify; eauto. Qed.

Lemma txn_value_block_exclusive block :
  exists t, txn_value_block block = Return t /\ exclusive t.
Proof.
  unfold txn_value_block, exclusive.
  set (normalized := normalize_block_text _).
  destruct (rev (amount_spans txn_amt_re normalized))
    as [|[[balance_tok b_start] b_end] before].
  - cbn [bind].
    destruct (split_reference normalized) as [cheque_ref desc_main].
    destruct (split_description _) as [l1 l2].
    destruct (classify_movement_exclusive []
                (strip (Re.sub (Re.plus Re.space) (fun _ => str " ") desc_main))
                cheque_ref)
      as [d [c [od [oc [-> H]]]]].
    cbn [bind]. eexists. split; [reflexivity | exact H].
  - rewrite parse_amount_rules. cbn [bind].
    destruct before as [|[[tok a] e] before'].
    + destruct (unglue_reference_total normalized b_start balance_tok)
        as [fixed ->].
      cbn [try_except bind].
      destruct fixed as [[desc_part' txn_tok']|]; cbn [bind].
      * destruct (split_reference desc_part') as [cheque_ref desc_main].
        destruct (split_description _) as [l1 l2].
        destruct (classify_movement_exclusive txn_tok'
                    (strip (Re.sub (Re.plus Re.space) (fun _ => str " ")
                              desc_main))
                    cheque_ref)
          as [d [c [od [oc [-> H]]]]].
        cbn [bind]. eexists. split; [reflexivity | exact H].
      * destruct (split_reference _) as [cheque_ref desc_main].
        destruct (split_description _) as [l1 l2].
        destruct (classify_movement_exclusive balance_tok
                    (strip (Re.sub (Re.plus Re.space) (fun _ => str " ")
                              desc_main))
                    cheque_ref)
          as [d [c [od [oc [-> H]]]]].
        cbn [bind]. eexists. split; [reflexivity | exact H].
    + destruct (unglue_reference_total normalized a tok) as [fixed ->].
      cbn [try_except bind].
      destruct fixed as [[desc_part' txn_tok']|]; cbn [bind].
      * destruct (split_reference desc_part') as [cheque_ref desc_main].
        destruct (split_description _) as [l1 l2].
        destruct (classify_movement_exclusive txn_tok'
                    (strip (Re.sub (Re.plus Re.space) (fun _ => str " ")
                              desc_main))
                    cheque_ref)
          as [d [c [od [oc [-> H]]]]].
        cbn [bind]. eexists. split; [reflexivity | exact H].
      * destruct (split_reference _) as [cheque_ref desc_main].
        destruct (split_description _) as [l1 l2].
        destruct (classify_movement_exclusive tok
                    (strip (Re.sub (Re.plus Re.space) (fun _ => str " ")
                              desc_main))
                    cheque_ref)
          as [d [c [od [oc [-> H]]]]].
        cbn [bind]. eexists. split; [reflexivity | exact H].
Qed.

Lemma post_value_returns file_obj :
  exists ps, _parse_sbi_post_value file_obj = Return ps
             /\ Forall exclusive (transactions ps).
Proof.
  unfold _parse_sbi_post_value.
  destruct (scan_meta_total
              (_normalize_multiline_dates (_extract_all_lines file_obj)))
    as [m ->].
  cbn [bind].
  destruct (mapM_total post_value_block exclusive post_value_block_exclusive
              (post_value_segment
                 (_normalize_multiline_dates (_extract_all_lines file_obj))))
    as [ts [-> H]].
  cbn [bind]. eexists. split; [reflexivity | exact H].
Qed.

Lemma txn_value_returns file_obj :
  exists ps, _parse_sbi_txn_value file_obj = Return ps
             /\ Forall exclusive (transactions ps).
Proof.
  unfold _parse_sbi_txn_value.
  destruct (scan_meta_total
              (_normalize_multiline_dates (_extract_all_lines file_obj)))
    as [m ->].
  cbn [bind].
  destruct (mapM_total txn_value_block exclusive txn_value_block_exclusive
              (txn_value_segment
                 (_normalize_multiline_dates (_extract_all_lines file_obj))))
    as [ts [-> H]].
  cbn [bind]. eexists. split; [reflexivity | exact H].
Qed.

End ParseFacts.

(* ================================================================== *)
(** ** PostValue segmenter *)

Module SegFacts.
Import SegSpec.

Lemma seg_step_ok st line : seg_ok st -> seg_ok (seg_step st line).
Proof.
  unfold seg_ok, seg_step. intros H.
  repeat match goal with
         | |- context [if ?c then _ else _] => destruct c eqn:?
         | |- context [match ?x with _ => _ end] => destruct x eqn:?
         end; cbn [in_table header_seen]; auto.
  intros _. rewrite andb_true_iff in *. tauto.
Qed.

Lemma seg_run_ok lines : forall st,
  seg_ok st -> seg_ok (fold_left seg_step lines st).
Proof.
  induction lines as [|l lines IH]; intros st H; [exact H|].
  cbn [fold_left]. apply IH, seg_step_ok, H.
Qed.

Lemma seg_init_ok : seg_ok seg_init.
Proof. intros H. discriminate H. Qed.

(** In the table and before the first anchor, a line that is not an
    anchor changes nothing. *)
Lemma seg_step_discards st line :
  header_seen st = true -> in_table st = true -> current st = None ->
  Re.match_ date_line_pattern line = None ->
  seg_step st line = st.
Proof.
  destruct st as [hs it cur raw]. cbn [header_seen in_table current].
  intros -> -> -> Hm. unfold seg_step.
  cbn [header_seen in_table current transactions_raw negb andb].
  rewrite Hm.
  repeat match goal with
         | |- context [if ?c then _ else _] => destruct c
         end; reflexivity.
Qed.

Lemma seg_run_discards junk : forall st,
  header_seen st = true -> in_table st = true -> current st = None ->
  Forall (fun line => Re.matches date_line_pattern line = false) junk ->
  fold_left seg_step junk st = st.
Proof.
  induction junk as [|l junk IH]; intros st Hh Ht Hc HF; [reflexivity|].
  inversion HF as [|? ? Hl HF']; subst. cbn [fold_left].
  assert (Hm : Re.match_ date_line_pattern l = None).
  { unfold Re.matches in Hl.
    destruct (Re.match_ date_line_pattern l); [discriminate | reflexivity]. }
  rewrite (seg_step_discards st l Hh Ht Hc Hm). now apply IH.
Qed.

End SegFacts.

(* ================================================================== *)
(** * The properties of the specification *)

Import AmountSpec AmountFacts NormSpec NormFacts ParseSpec ParseFacts.
Import SegSpec SegFacts LayoutSpec Samples.


(** ** AmountToken *)

(** C3, counterexample.  An opening parenthesis negates also when
    nothing closes it: [(5] is read as -5.0, where the rules of the
    specification, which negate a parenthesized value, give 5.0.  And
    the digits of every script are kept and read: the Arabic-Indic
    digit five is read as 5.0, where the rules, which strip what is
    outside [[0-9.-]], give 0.0. *)
Lemma parse_amount_departs_from_rules :
  _parse_amount (str "(5") = Return (Finite (-5 # 1)%Q) /\
  amount_token_rules (str "(5") = Finite (5 # 1)%Q /\
  _parse_amount [1637%N] = Return (Finite (5 # 1)%Q) /\
  amount_token_rules [1637%N] = Finite 0%Q.
Proof. repeat split; vm_compute; reflexivity. Qed.

(** C3, amended.  For every string, [_parse_amount] returns (it never
    raises) the value the ordered rules give once every opening
    parenthesis counts as a minus sign and every closing one is
    dropped, and the digits kept and read are the decimal digits of
    every script; the value is the double nearest to the decimal
    written.  In particular 1,234.50CR is 1234.50, (500.00) is -500.00
    and the empty string is 0.0. *)
Theorem parse_amount_follows_amended_rules :
  (forall s : text, _parse_amount s = Return (amended_rules s)) /\
  (exists q, _parse_amount (str "1,234.50CR") = Return (Finite q)
             /\ (q == 1234.50)%Q) /\
  (exists q, _parse_amount (str "(500.00)") = Return (Finite q)
             /\ (q == -500.00)%Q) /\
  _parse_amount [] = Return (Finite 0%Q).
Proof.
  split; [exact parse_amount_rules|].
  split; [|split].
  - eexists. split; [vm_compute; reflexivity | reflexivity].
  - eexists. split; [vm_compute; reflexivity | reflexivity].
  - reflexivity.
Qed.

(** ** LineNormalizer *)

(** C7.  Normalising twice is normalising once: a merged line matches
    none of the four patterns, and lines the first pass left unmerged
    are still not to be merged in the second. *)
Theorem normalize_idempotent :
  forall L : list text,
    _normalize_multiline_dates (_normalize_multiline_dates L)
    = _normalize_multiline_dates L.
Proof.
  intros L. remember (length L) as n eqn:Hn. revert L Hn.
  induction n as [n IH] using lt_wf_ind. intros L Hn.
  destruct L as [|a [|b r]]; [reflexivity | reflexivity |].
  rewrite N_cons2. destruct (fires2 a b) eqn:F2.
  { rewrite N_inert_cons by now apply fires2_merged.
    f_equal. apply (IH (length r)); simpl in *; lia. }
  destruct r as [|c r'].
  { change (_normalize_multiline_dates [b]) with [b].
    now rewrite N_cons2, F2. }
  destruct (fires3 a b c) eqn:F3.
  { rewrite N_inert_cons by now apply fires3_merged.
    f_equal. apply (IH (length r')); simpl in *; lia. }
  assert (IHt : _normalize_multiline_dates
                  (_normalize_multiline_dates (b :: c :: r'))
                = _normalize_multiline_dates (b :: c :: r'))
    by (apply (IH (length (b :: c :: r'))); simpl in *; lia).
  rewrite (N_cons2 b c r') in *.
  destruct (fires2 b c) eqn:G2.
  { apply N_keep_before_inert; [now apply fires2_merged | exact IHt]. }
  destruct r' as [|d r''].
  { change (_normalize_multiline_dates [c]) with [c].
    now rewrite N_cons2, F2, F3, N_cons2, G2. }
  destruct (fires3 b c d) eqn:G3.
  { apply N_keep_before_inert; [now apply fires3_merged | exact IHt]. }
  destruct (N_head c (d :: r'')) as [y [rest [E Hy]]].
  rewrite E in *. rewrite N_cons2, F2.
  assert (Fy : fires3 a b y = false).
  { destruct Hy as [-> | Hy]; [exact F3 | now apply fires3_inert_3]. }
  now rewrite Fy, IHt.
Qed.

(** ** LayoutClassifier *)

Lemma auto_detect_first_match lines :
  auto_detect lines
  = option_map variant_name (first_match rules (sample_of lines)).
Proof.
  unfold auto_detect, sample_of, rules, first_match, forallb.
  repeat match goal with
         | |- context [contains ?k ?s] => destruct (contains k s)
         end; reflexivity.
Qed.

Lemma use_layout_final lines hint :
  use_layout hint (auto_detect lines) = final_layout lines hint.
Proof.
  unfold use_layout, final_layout, given. rewrite auto_detect_first_match.
  assert (Eauto :
    or_text (option_map variant_name (first_match rules (sample_of lines)))
      SBI_POST_VALUE
    = match first_match rules (sample_of lines) with
      | Some v => variant_name v
      | None => variant_name PostValue
      end).
  { destruct (first_match rules (sample_of lines)) as [[| |]|]; reflexivity. }
  rewrite Eauto.
  destruct hint as [[|c l]|]; [reflexivity| |reflexivity].
  cbn [truthy or_text].
  destruct (strip (c :: l)) as [|c' l']; reflexivity.
Qed.

(** C6.  The classifier reads the first 120 normalised lines,
    upper-cased and joined; the first rule whose keywords the sample
    contains selects the layout (PostValue, else TxnValue, else
    DateDetails, else none); the final layout is the explicit layout
    when one is given, else the detected one, else PostValue; and this
    is the layout the entry point dispatches on. *)
Theorem layout_classifier_decision :
  forall (file_obj : document) (lines : list text) (hint : option text),
    auto_detect lines
      = option_map variant_name (first_match rules (sample_of lines)) /\
    use_layout hint (auto_detect lines) = final_layout lines hint /\
    resolved_layout file_obj hint
      = final_layout
          (_normalize_multiline_dates (_extract_all_lines file_obj)) hint /\
    parse_pdf_to_data file_obj hint
      = (if text_eqb (resolved_layout file_obj hint) SBI_POST_VALUE
         then call_global "_parse_sbi_post_value" file_obj
         else if text_eqb (resolved_layout file_obj hint) SBI_TXN_VALUE
         then call_global "_parse_sbi_txn_value" file_obj
         else if text_eqb (resolved_layout file_obj hint) SBI_DATE_DETAILS
         then call_global "_parse_sbi_date_details" file_obj
         else Raise (ValueError "Unsupported layout")) /\
    use_layout None
      (auto_detect [str "Statement"; str "POST DATE VALUE DATE DESCRIPTION"])
      = SBI_POST_VALUE /\
    use_layout None (auto_detect [str "TXN DATE VALUE DATE"; str "x"])
      = SBI_TXN_VALUE /\
    use_layout None (auto_detect [str "no keyword here"]) = SBI_POST_VALUE.
Proof.
  intros file_obj lines hint.
  split; [apply auto_detect_first_match|].
  split; [apply use_layout_final|].
  split; [apply use_layout_final|].
  split; [reflexivity|].
  repeat split; vm_compute; reflexivity.
Qed.

(** ** Dispatcher *)

(** C5, at the failing input.  With the DateDetails layout, given by
    the caller for any document or detected from the header of a
    document, the entry point raises [NameError]: the parser it calls
    is not defined. *)
Theorem date_details_raises_name_error :
  (forall file_obj : document,
      parse_pdf_to_data file_obj (Some SBI_DATE_DETAILS)
      = Raise (NameError "_parse_sbi_date_details")) /\
  resolved_layout date_details_doc None = SBI_DATE_DETAILS /\
  parse_pdf_to_data date_details_doc None
  = Raise (NameError "_parse_sbi_date_details").
Proof.
  split; [intros file_obj; reflexivity|].
  split; vm_compute; reflexivity.
Qed.

(** The rest of the dispatch: the two parsers that exist return, and
    [ValueError] is raised exactly for an unrecognised layout. *)
Lemma text_eqb_eq : forall a b : text, text_eqb a b = true <-> a = b.
Proof.
  induction a as [|x a IH]; intros [|y b]; cbn [text_eqb];
    try (split; [discriminate | discriminate]); [tauto|].
  unfold char_eqb. rewrite andb_true_iff, N.eqb_eq, IH.
  split; [intros [-> ->]; reflexivity | intros H; injection H; auto].
Qed.

Lemma text_eqb_neq a b : text_eqb a b = false <-> a <> b.
Proof.
  rewrite <- text_eqb_eq. destruct (text_eqb a b); split; congruence.
Qed.

Lemma dispatch_other_layouts file_obj hint :
  let L := resolved_layout file_obj hint in
  (L = SBI_POST_VALUE ->
   parse_pdf_to_data file_obj hint = _parse_sbi_post_value file_obj) /\
  (L = SBI_TXN_VALUE ->
   parse_pdf_to_data file_obj hint = _parse_sbi_txn_value file_obj) /\
  (parse_pdf_to_data file_obj hint = Raise (ValueError "Unsupported layout")
   <-> L <> SBI_POST_VALUE /\ L <> SBI_TXN_VALUE /\ L <> SBI_DATE_DETAILS).
Proof.
  intros L.
  change (parse_pdf_to_data file_obj hint)
    with (if text_eqb L SBI_POST_VALUE
          then _parse_sbi_post_value file_obj
          else if text_eqb L SBI_TXN_VALUE
          then _parse_sbi_txn_value file_obj
          else if text_eqb L SBI_DATE_DETAILS
          then Raise (NameError "_parse_sbi_date_details")
          else Raise (ValueError "Unsupported layout")).
  destruct (post_value_returns file_obj) as [ps [Ep _]].
  destruct (txn_value_returns file_obj) as [pt [Et _]].
  split; [intros ->; reflexivity|].
  split; [intros ->; reflexivity|].
  destruct (text_eqb L SBI_POST_VALUE) eqn:E1.
  { apply text_eqb_eq in E1. rewrite Ep. split; [discriminate | tauto]. }
  destruct (text_eqb L SBI_TXN_VALUE) eqn:E2.
  { apply text_eqb_eq in E2. rewrite Et. split; [discriminate | tauto]. }
  destruct (text_eqb L SBI_DATE_DETAILS) eqn:E3.
  { apply text_eqb_eq in E3. split; [discriminate | tauto]. }
  apply text_eqb_neq in E1, E2, E3. tauto.
Qed.

(** ** PostValue parser at the row of the specification *)

(** C9, at the failing input.  The row
    [01-04-2024 02-04-2024 ATM WDL 500.00 4500.00] yields one
    transaction with the dates, debit 500.00 and credit 0.0 of the
    claim, but with balance 500.00: the amount pattern finds [500.00]
    inside [4500.00].  Printed as [4,500.00], the balance is 4500.00. *)
Theorem spec_row_balance_truncated :
  _parse_sbi_post_value spec_row_doc
  = Return
      (mkParsed (mkMeta [] [] [] 0%Q (str "SBI") SBI_POST_VALUE)
         [mkTxn (str "01-04-2024") (str "02-04-2024") (str "ATM WDL")
            (str "ATM WDL") [] [] 500%Q 0%Q 500%Q [] [] (str "500.00")]) /\
  map balance (records (_parse_sbi_post_value grouped_row_doc))
  = [Finite 4500%Q].
Proof. split; vm_compute; reflexivity. Qed.

(** ** BalanceReconciler, parsing side *)

(** C4, at the failing input.  Without an opening-balance line and
    with a first transaction of balance 1000.00, debit 200.00 and
    credit 0.0, the PostValue parser leaves the opening balance at
    0.0; the TxnValue parser back-fills 1200.00 from the same row. *)
Theorem post_value_no_backfill :
  (exists ps,
      parse_pdf_to_data no_opening_post_doc None = Return ps /\
      layout (meta ps) = SBI_POST_VALUE /\
      map (fun t => (balance t, debit t, credit t)) (transactions ps)
        = [(Finite 1000%Q, Finite 200%Q, Finite 0%Q)] /\
      opening_balance (meta ps) = Finite 0%Q) /\
  (exists ps,
      parse_pdf_to_data no_opening_txn_doc None = Return ps /\
      layout (meta ps) = SBI_TXN_VALUE /\
      map (fun t => (balance t, debit t, credit t)) (transactions ps)
        = [(Finite 1000%Q, Finite 200%Q, Finite 0%Q)] /\
      opening_balance (meta ps) = Finite 1200%Q).
Proof.
  split; eexists; (split; [vm_compute; reflexivity|]);
    repeat split; reflexivity.
Qed.

(** The back-fill of the TxnValue parser, in general. *)
Lemma txn_value_backfill file_obj :
  exists m ps,
    scan_meta (_normalize_multiline_dates (_extract_all_lines file_obj))
      = Return m /\
    _parse_sbi_txn_value file_obj = Return ps /\
    opening_balance (meta ps)
      = backfill_opening (mf_opening_balance m) (transactions ps).
Proof.
  unfold _parse_sbi_txn_value.
  destruct (scan_meta_total
              (_normalize_multiline_dates (_extract_all_lines file_obj)))
    as [m Em].
  destruct (mapM_total txn_value_block exclusive txn_value_block_exclusive
              (txn_value_segment
                 (_normalize_multiline_dates (_extract_all_lines file_obj))))
    as [ts [Et _]].
  exists m. rewrite Em. cbn [bind]. rewrite Et. cbn [bind].
  eexists. repeat split; reflexivity.
Qed.

(** ** Invariant of the records *)

(** C8.  Both parsers return for every document, and every record
    they produce, and so every record the entry point returns, has
    debit 0.0 or credit 0.0. *)
Theorem parsed_movements_exclusive :
  forall (file_obj : document) (hint : option text),
    returns (_parse_sbi_post_value file_obj) /\
    Forall exclusive (records (_parse_sbi_post_value file_obj)) /\
    returns (_parse_sbi_txn_value file_obj) /\
    Forall exclusive (records (_parse_sbi_txn_value file_obj)) /\
    Forall exclusive (records (parse_pdf_to_data file_obj hint)).
Proof.
  intros file_obj hint.
  destruct (post_value_returns file_obj) as [ps [Ep Hp]].
  destruct (txn_value_returns file_obj) as [pt [Et Ht]].
  assert (Rp : Forall exclusive (records (_parse_sbi_post_value file_obj)))
    by (rewrite Ep; exact Hp).
  assert (Rt : Forall exclusive (records (_parse_sbi_txn_value file_obj)))
    by (rewrite Et; exact Ht).
  split; [now exists ps|]. split; [exact Rp|].
  split; [now exists pt|]. split; [exact Rt|].
  unfold parse_pdf_to_data.
  repeat match goal with
         | |- context [if ?c then _ else _] => destruct c
         end; try assumption; constructor.
Qed.

(** ** PostValue segmenter *)

(** C10.  Inside the table and before the first anchor line, lines
    that are not anchor lines are discarded: the blocks of the
    segmenter, and the records made of them, are those of the input
    without these lines. *)
Theorem lines_before_first_anchor_discarded :
  forall pre junk rest : list text,
    in_table (fold_left seg_step pre seg_init) = true ->
    current (fold_left seg_step pre seg_init) = None ->
    Forall (fun line => Re.matches date_line_pattern line = false) junk ->
    post_value_segment (pre ++ junk ++ rest)
      = post_value_segment (pre ++ rest) /\
    mapM post_value_block (post_value_segment (pre ++ junk ++ rest))
      = mapM post_value_block (post_value_segment (pre ++ rest)).
Proof.
  intros pre junk rest Ht Hc HF.
  assert (E : post_value_segment (pre ++ junk ++ rest)
              = post_value_segment (pre ++ rest)).
  { unfold post_value_segment. rewrite !fold_left_app.
    rewrite (seg_run_discards junk (fold_left seg_step pre seg_init));
      auto.
    apply (seg_run_ok pre seg_init seg_init_ok Ht). }
  split; [exact E | now rewrite E].
Qed.

Lemma lines_before_first_anchor_discarded_witness :
  in_table (fold_left seg_step [post_header; table_start] seg_init) = true /\
  current (fold_left seg_step [post_header; table_start] seg_init) = None /\
  Forall (fun line => Re.matches date_line_pattern line = false) junk_lines /\
  post_value_segment
    ([post_header; table_start] ++ junk_lines ++ [no_opening_row])
  = post_value_segment ([post_header; table_start] ++ [no_opening_row]).
Proof.
  assert (H1 : in_table (fold_left seg_step [post_header; table_start]
                           seg_init) = true) by (vm_compute; reflexivity).
  assert (H2 : current (fold_left seg_step [post_header; table_start]
                          seg_init) = None) by (vm_compute; reflexivity).
  assert (H3 : Forall (fun line => Re.matches date_line_pattern line = false)
                 junk_lines)
    by (repeat constructor; vm_compute; reflexivity).
  split; [exact H1|]. split; [exact H2|]. split; [exact H3|].
  exact (proj1 (lines_before_first_anchor_discarded
                  [post_header; table_start] junk_lines [no_opening_row]
                  H1 H2 H3)).
Defined.

(** ** Renderer *)

Import RenderSpec RenderFacts.

(** C1, counterexample.  The carried total is a float, and each
    row's subtraction and addition is rounded.  Opening at 0.10 with
    one credit of 0.20, the total after the row is not the opening
    balance plus the sum of [credit - debit]; opening at 0.30 with
    debits of 0.10 and 0.20, it is -2^-55, shown as [-0.00CR], where
    the sum computed in floats as it is written gives -2^-54, and the
    sum of the three amounts is zero, which would show as [0.00CR]. *)
Lemma carried_total_is_rounded :
  (let B := opening_balance (meta (data rounding_stmt)) in
   let txns := transactions (data rounding_stmt) in
   Qeq_bool (value (carried SBI_POST_VALUE B txns 1))
     (value B + net_movement (firstn 1 txns)) = false) /\
  (let B := opening_balance (meta (data cancelling_stmt)) in
   let txns := transactions (data cancelling_stmt) in
   carried SBI_POST_VALUE B txns 2 = Finite (-1 # 36028797018963968)%Q /\
   float_closed_form B (firstn 2 txns)
     = Finite (-1 # 18014398509481984)%Q /\
   option_map (fun row => cell_text (nth 6 row PageBreak))
     (nth_error
        (body_rows SBI_POST_VALUE
           (story (generate_pdf_from_data cancelling_stmt))) 1)
   = Some (str "-0.00CR") /\
   format_2f
     (Finite (AmountSpec2.hundredths 30 - AmountSpec2.hundredths 10
              - AmountSpec2.hundredths 20)%Q) ++ cr_suffix SBI_POST_VALUE
   = str "0.00CR").
Proof. repeat split; vm_compute; reflexivity. Qed.

(** C1, amended.  The renderer's carried running total is seeded with
    the opening balance [B] (0.0 for a zero); after the first [i] rows
    it is the result of the row updates applied in order, each row
    updating it as [running - debit + credit] in floating-point
    arithmetic, the subtraction and the addition each rounded (a zero
    for a missing value); the balance cell of body row [i] of the story
    shows this total; and the stored [balance] fields play no part:
    replacing them by any others leaves the rendering unchanged. *)
Theorem running_balance_row_updates :
  forall (s : Statement) (i : nat),
    let L := renderer_layout s in
    let B := opening_balance (meta (data s)) in
    let txns := transactions (data s) in
    carried L B txns 0 = or_zero B /\
    carried L B txns i = fold_left row_update (firstn i txns) (or_zero B) /\
    match nth_error txns i with
    | Some t =>
        carried L B txns (S i)
        = fadd (fsub (carried L B txns i) (or_zero (debit t)))
            (or_zero (credit t))
    | None => carried L B txns (S i) = carried L B txns i
    end /\
    option_map (fun row => cell_text (nth 6 row PageBreak))
      (nth_error (body_rows L (story (generate_pdf_from_data s))) i)
    = option_map
        (fun _ => format_2f (carried L B txns (S i)) ++ cr_suffix L)
        (nth_error txns i) /\
    (forall f : TransactionRecord -> float,
        generate_pdf_from_data (rebalance f s) = generate_pdf_from_data s).
Proof.
  intros s i L B txns. repeat split.
  - unfold carried. apply render_rows_total.
  - destruct (nth_error txns i) as [t|] eqn:E.
    + now rewrite (carried_step L B txns i t E), render_row_running.
    + now apply carried_past.
  - subst L B txns. rewrite generate_body_rows, render_rows_nth.
    destruct (nth_error (transactions (data s)) i) as [t|] eqn:E;
      [|reflexivity].
    cbn [option_map]. f_equal.
    rewrite (carried_step _ _ _ i t E). reflexivity.
  - intros f. apply generate_with_balance.
Qed.

(** C2, counterexample.  A statement whose only row stores the balance
    100.00 is rendered with the balance cell [50.00CR], the running
    total, which does not show the stored value. *)
Lemma stored_balance_not_shown :
  exists row,
    nth_error
      (body_rows SBI_POST_VALUE (story (generate_pdf_from_data sample_stmt)))
      0 = Some row /\
    cell_text (nth 6 row PageBreak) = str "50.00CR" /\
    ~ shows (cell_text (nth 6 row PageBreak)) (balance sample_txn).
Proof.
  eexists. split; [vm_compute; reflexivity|]. split; [reflexivity|].
  intros [H | [H | [H _]]]; vm_compute in H; discriminate.
Qed.

(** C2, amended.  Every transaction yields exactly one body row, in
    order; its debit and credit cells show the row's debit and credit
    to two decimals (nothing for a zero), and its balance cell shows
    the running total the renderer recomputes in floating-point
    arithmetic, to two decimals, not the stored balance. *)
Theorem rendered_rows_show_movements :
  forall (s : Statement) (i : nat),
    let L := renderer_layout s in
    let B := opening_balance (meta (data s)) in
    let txns := transactions (data s) in
    let rows := body_rows L (story (generate_pdf_from_data s)) in
    length rows = length txns /\
    option_map financial_cells (nth_error rows i)
    = option_map
        (fun t =>
           (amount_cell_text (debit t), amount_cell_text (credit t),
            format_2f (carried L B txns (S i)) ++ cr_suffix L))
        (nth_error txns i).
Proof.
  intros s i L B txns rows. subst rows L B txns.
  rewrite generate_body_rows. split; [apply render_rows_length|].
  rewrite render_rows_nth.
  destruct (nth_error (transactions (data s)) i) as [t|] eqn:E;
    [|reflexivity].
  cbn [option_map]. f_equal. rewrite financial_cells_row.
  now rewrite (carried_step _ _ _ i t E).
Qed.

(* ================================================================== *)
(** * Further lemmas *)

(** ** Stripping *)

Module StripFacts.
Import LineSpec.

Lemma lstrip_idem s : lstrip (lstrip s) = lstrip s.
Proof.
  induction s as [|c t IH]; [reflexivity|].
  cbn [lstrip]. destruct (is_space c) eqn:E; [exact IH|].
  cbn [lstrip]. now rewrite E.
Qed.

Lemma lstrip_suffix s : exists p, s = p ++ lstrip s.
Proof.
  induction s as [|c t [p IH]]; [now exists []|].
  cbn [lstrip]. destruct (is_space c).
  - exists (c :: p). cbn [app]. now f_equal.
  - now exists [].
Qed.

Lemma lstrip_fixed_iff s :
  lstrip s = s <-> s = [] \/ exists c t, s = c :: t /\ is_space c = false.
Proof.
  destruct s as [|c t]; [intuition|].
  cbn [lstrip]. destruct (is_space c) eqn:E.
  - split.
    + intros H. exfalso. destruct (lstrip_suffix t) as [p Hp].
      rewrite H in Hp. apply (f_equal (@length char)) in Hp.
      rewrite length_app in Hp. simpl in Hp. lia.
    + intros [H | [c' [t' [H E']]]]; [discriminate|].
      injection H as -> ->. congruence.
  - split; [right; eauto | reflexivity].
Qed.

(** A non-empty prefix of a left-stripped string is left-stripped. *)
Lemma lstrip_prefix a t r : lstrip a = a -> a = t ++ r -> lstrip t = t.
Proof.
  intros Ha E. apply lstrip_fixed_iff.
  destruct t as [|c t']; [now left|]. right.
  apply lstrip_fixed_iff in Ha. destruct Ha as [-> | [c' [a' [-> Hc]]]];
    [discriminate|].
  injection E as -> _. eauto.
Qed.

Lemma strip_trimmed s : trimmed (strip s).
Proof.
  unfold trimmed, strip, rstrip. split.
  - destruct (lstrip_suffix (rev (lstrip s))) as [p Hp].
    apply (f_equal (@rev char)) in Hp.
    rewrite rev_involutive, rev_app_distr in Hp.
    eapply lstrip_prefix; [apply lstrip_idem | exact Hp].
  - rewrite rev_involutive. apply lstrip_idem.
Qed.

Lemma trimmed_strip s : trimmed s -> strip s = s.
Proof.
  intros [H1 H2]. unfold strip, rstrip.
  now rewrite H1, H2, rev_involutive.
Qed.

Lemma strip_idem s : strip (strip s) = strip s.
Proof. apply trimmed_strip, strip_trimmed. Qed.

(** Stripping keeps a part of the string. *)
Lemma strip_part s : exists p q, s = p ++ strip s ++ q.
Proof.
  unfold strip, rstrip.
  destruct (lstrip_suffix s) as [p Hp].
  destruct (lstrip_suffix (rev (lstrip s))) as [q Hq].
  apply (f_equal (@rev char)) in Hq.
  rewrite rev_involutive, rev_app_distr in Hq.
  exists p, (rev q). now rewrite <- Hq.
Qed.

Lemma strip_forallb f s :
  forallb f s = true -> forallb f (strip s) = true.
Proof.
  intros H. destruct (strip_part s) as [p [q E]].
  rewrite E, !forallb_app, !andb_true_iff in H. tauto.
Qed.

End StripFacts.

(** ** Line extraction *)

Module ExtractFacts.
Import LineSpec StripFacts.

Lemma forallb_rev_true {A} (f : A -> bool) l :
  forallb f l = true -> forallb f (rev l) = true.
Proof.
  rewrite !forallb_forall. intros H x Hx. apply H. now apply in_rev.
Qed.

Lemma splitlines_go_no_break : forall s cur after_cr,
  forallb (fun c => negb (is_linebreak c)) cur = true ->
  Forall (fun l => forallb (fun c => negb (is_linebreak c)) l = true)
    (splitlines_go cur after_cr s).
Proof.
  induction s as [|c t IH]; intros cur after_cr Hcur.
  - cbn [splitlines_go]. destruct cur; constructor; [|constructor].
    apply forallb_rev_true. exact Hcur.
  - cbn [splitlines_go]. destruct (after_cr && char_eqb c 10)%bool.
    + now apply IH.
    + destruct (is_linebreak c) eqn:E.
      * constructor; [apply forallb_rev_true; exact Hcur | now apply IH].
      * apply IH. cbn [forallb]. now rewrite E, Hcur.
Qed.

Lemma extracted_lines_clean file_obj :
  Forall clean_line (_extract_all_lines file_obj).
Proof.
  unfold _extract_all_lines. apply Forall_flat_map, Forall_forall.
  intros page _. apply Forall_forall. intros l Hl.
  apply filter_In in Hl. destruct Hl as [Hl Hne].
  apply in_map_iff in Hl. destruct Hl as [raw [<- Hraw]].
  split; [|split].
  - destruct (strip raw); [discriminate | discriminate].
  - apply strip_trimmed.
  - apply strip_forallb.
    pose proof (splitlines_go_no_break page [] false eq_refl) as HF.
    rewrite Forall_forall in HF. now apply HF.
Qed.

End ExtractFacts.

(** ** More on the normaliser *)

Module NormMore.
Import Re LineSpec StripFacts NormSpec NormFacts.

(** Induction along the cases of the loop. *)
Lemma normalize_cases (P : list text -> list text -> Prop) :
  P [] [] ->
  (forall a, P [a] [a]) ->
  (forall a b r,
      fires2 a b = true ->
      P r (_normalize_multiline_dates r) ->
      P (a :: b :: r)
        ((a ++ str " " ++ b) :: _normalize_multiline_dates r)) ->
  (forall a b c r,
      fires2 a b = false -> fires3 a b c = true ->
      P r (_normalize_multiline_dates r) ->
      P (a :: b :: c :: r)
        ((a ++ str " " ++ b ++ str " " ++ c)
           :: _normalize_multiline_dates r)) ->
  (forall a b r,
      fires2 a b = false ->
      match r with c :: _ => fires3 a b c = false | [] => True end ->
      P (b :: r) (_normalize_multiline_dates (b :: r)) ->
      P (a :: b :: r) (a :: _normalize_multiline_dates (b :: r))) ->
  forall l, P l (_normalize_multiline_dates l).
Proof.
  intros H0 H1 H2 H3 H4 l.
  remember (length l) as n eqn:Hn. revert l Hn.
  induction n as [n IH] using lt_wf_ind. intros l Hn.
  destruct l as [|a [|b r]]; [exact H0 | apply H1 |].
  rewrite N_cons2. destruct (fires2 a b) eqn:F2.
  { apply H2; [exact F2|]. apply (IH (length r)); simpl in *; lia. }
  destruct r as [|c r'].
  { apply (H4 a b []); [exact F2 | exact I |].
    apply (IH 1); simpl in *; lia. }
  destruct (fires3 a b c) eqn:F3.
  { apply H3; auto. apply (IH (length r')); simpl in *; lia. }
  apply (H4 a b (c :: r')); auto.
  apply (IH (length (b :: c :: r'))); simpl in *; lia.
Qed.

Lemma normalize_nil_inv l : _normalize_multiline_dates l = [] -> l = [].
Proof.
  apply (normalize_cases (fun l out => out = [] -> l = []));
    intros; try discriminate; reflexivity.
Qed.

Lemma join_cons sep a l :
  join sep (a :: l) = match l with [] => a | _ :: _ => a ++ sep ++ join sep l end.
Proof. destruct l; reflexivity. Qed.

Lemma join_normalized_tail x r :
  join (str " ") (_normalize_multiline_dates r) = join (str " ") r ->
  join (str " ") (x :: _normalize_multiline_dates r)
  = join (str " ") (x :: r).
Proof.
  intros E. rewrite !join_cons.
  destruct (_normalize_multiline_dates r) as [|y out] eqn:En.
  - apply normalize_nil_inv in En. now subst r.
  - destruct r as [|z r']; [discriminate En|]. now rewrite E.
Qed.

Lemma normalize_join l :
  join (str " ") (_normalize_multiline_dates l) = join (str " ") l.
Proof.
  apply (normalize_cases
           (fun l out => join (str " ") out = join (str " ") l)).
  - reflexivity.
  - reflexivity.
  - intros a b r _ IH. rewrite (join_normalized_tail _ r IH).
    rewrite (join_cons _ a), !join_cons.
    destruct r; rewrite <- ?app_assoc; reflexivity.
  - intros a b c r _ _ IH. rewrite (join_normalized_tail _ r IH).
    rewrite (join_cons _ a), (join_cons _ b), !join_cons.
    destruct r; rewrite <- ?app_assoc; cbn [app]; rewrite <- ?app_assoc;
      reflexivity.
  - intros a b r _ _ IH.
    rewrite (join_cons _ a (_normalize_multiline_dates (b :: r))).
    rewrite (join_cons _ a (b :: r)).
    destruct (_normalize_multiline_dates (b :: r)) eqn:En.
    + apply normalize_nil_inv in En. discriminate En.
    + now rewrite IH.
Qed.

Lemma normalize_length l :
  length (_normalize_multiline_dates l) <= length l.
Proof.
  apply (normalize_cases (fun l out => length out <= length l));
    intros; simpl in *; lia.
Qed.

Lemma normalize_no_year l :
  Forall (fun x => matches year_re x = false) l ->
  _normalize_multiline_dates l = l.
Proof.
  apply (normalize_cases
           (fun l out =>
              Forall (fun x => matches year_re x = false) l -> out = l)).
  - reflexivity.
  - reflexivity.
  - intros a b r F _ HF. exfalso.
    inversion HF as [|? ? _ HF']; subst. inversion HF' as [|? ? Hb _]; subst.
    unfold fires2 in F. rewrite Hb, andb_false_r in F. discriminate.
  - intros a b c r _ F _ HF. exfalso.
    inversion HF as [|? ? _ HF']; subst. inversion HF' as [|? ? _ HF'']; subst.
    inversion HF'' as [|? ? Hc _]; subst.
    unfold fires3 in F. rewrite Hc, andb_false_r in F. discriminate.
  - intros a b r _ _ IH HF. inversion HF; subst. f_equal. now apply IH.
Qed.

Lemma trimmed_cons_iff c t :
  lstrip (c :: t) = c :: t <-> is_space c = false.
Proof.
  rewrite lstrip_fixed_iff. split.
  - intros [H | [c' [t' [H E]]]]; [discriminate|]. now injection H as -> _.
  - intros E. right. eauto.
Qed.

Lemma clean_merge a b :
  clean_line a -> clean_line b -> clean_line (a ++ str " " ++ b).
Proof.
  intros [Ha [[Ha1 Ha2] Ha3]] [Hb [[Hb1 Hb2] Hb3]].
  split; [|split; [split|]].
  - destruct a; [contradiction | discriminate].
  - destruct a as [|c a']; [contradiction|].
    apply trimmed_cons_iff in Ha1. cbn [app]. now apply trimmed_cons_iff.
  - rewrite !rev_app_distr.
    destruct (rev b) as [|c rb] eqn:Eb.
    { apply (f_equal (@rev char)) in Eb. rewrite rev_involutive in Eb.
      now subst b. }
    apply trimmed_cons_iff in Hb2.
    cbn [app]. now apply trimmed_cons_iff.
  - rewrite !forallb_app, Ha3, Hb3. reflexivity.
Qed.

Lemma normalize_clean l :
  Forall clean_line l -> Forall clean_line (_normalize_multiline_dates l).
Proof.
  apply (normalize_cases
           (fun l out => Forall clean_line l -> Forall clean_line out)).
  - auto.
  - auto.
  - intros a b r _ IH HF.
    inversion HF as [|? ? Ha HF']; subst. inversion HF' as [|? ? Hb Hr]; subst.
    constructor; [now apply clean_merge | now apply IH].
  - intros a b c r _ _ IH HF.
    inversion HF as [|? ? Ha HF']; subst. inversion HF' as [|? ? Hb HF'']; subst.
    inversion HF'' as [|? ? Hc Hr]; subst.
    constructor; [|now apply IH].
    apply clean_merge; [exact Ha | now apply clean_merge].
  - intros a b r _ _ IH HF. inversion HF; subst.
    constructor; [assumption | now apply IH].
Qed.

End NormMore.

(** ** Printed amounts read back *)

Module FormatFacts.
Import AmountSpec AmountSpec2 DigitFacts AmountFacts.

Lemma digits_val_snoc ds d :
  digits_val (ds ++ [d]) = (digits_val ds * 10 + decimal_value d)%Z.
Proof. unfold digits_val. now rewrite fold_left_app. Qed.

Lemma is_digit_of n : (n < 10)%N -> is_digit (48 + n) = true.
Proof.
  intros H. unfold is_digit, between.
  apply andb_true_iff. rewrite !N.leb_le. lia.
Qed.

Lemma digit_val_of n : (n < 10)%N -> decimal_value (48 + n) = Z.of_N n.
Proof.
  intros H. rewrite decimal_value_digit by now apply is_digit_of.
  f_equal. lia.
Qed.

Lemma digits_go_S f n acc :
  digits_go (S f) n acc
  = if (n / 10 =? 0)%N then (48 + n mod 10)%N :: acc
    else digits_go f (n / 10)%N ((48 + n mod 10)%N :: acc).
Proof. reflexivity. Qed.

Lemma digits_go_spec : forall f n acc,
  (n < 2 ^ N.of_nat (S f))%N ->
  exists ds, digits_go (S f) n acc = ds ++ acc /\ ds <> [] /\
             forallb is_digit ds = true /\ digits_val ds = Z.of_N n.
Proof.
  induction f as [|f IH]; intros n acc Hn.
  - assert (n / 10 = 0)%N as E.
    { apply N.div_small. change (2 ^ N.of_nat 1)%N with 2%N in Hn. lia. }
    rewrite digits_go_S, E. cbn [N.eqb].
    exists [(48 + n mod 10)%N]. repeat split; try discriminate.
    + cbn [forallb]. rewrite is_digit_of; [reflexivity|].
      apply N.mod_lt. discriminate.
    + unfold digits_val. cbn [fold_left].
      rewrite digit_val_of by (apply N.mod_lt; discriminate).
      rewrite N.mod_small; [lia|]. change (2 ^ N.of_nat 1)%N with 2%N in Hn.
      lia.
  - rewrite digits_go_S.
    destruct (n / 10 =? 0)%N eqn:E.
    + apply N.eqb_eq in E. exists [(48 + n mod 10)%N].
      repeat split; try discriminate.
      * cbn [forallb]. rewrite is_digit_of; [reflexivity|].
        apply N.mod_lt. discriminate.
      * unfold digits_val. cbn [fold_left].
        rewrite digit_val_of by (apply N.mod_lt; discriminate).
        pose proof (N.div_mod n 10 ltac:(discriminate)). lia.
    + destruct (IH (n / 10)%N ((48 + n mod 10)%N :: acc)) as (ds & E1 & _ & D & V).
      { replace (N.of_nat (S (S f))) with (N.succ (N.of_nat (S f))) in Hn by lia.
        rewrite N.pow_succ_r' in Hn.
        apply N.Div0.div_lt_upper_bound. lia. }
      exists (ds ++ [(48 + n mod 10)%N]). repeat split.
      * rewrite E1, <- app_assoc. reflexivity.
      * destruct ds; discriminate.
      * rewrite forallb_app, D. cbn [forallb]. rewrite is_digit_of;
          [reflexivity|]. apply N.mod_lt. discriminate.
      * rewrite digits_val_snoc, V.
        rewrite digit_val_of by (apply N.mod_lt; discriminate).
        pose proof (N.div_mod n 10 ltac:(discriminate)). lia.
Qed.

Lemma digits_of_spec n :
  digits_of n <> [] /\ forallb is_digit (digits_of n) = true /\
  digits_val (digits_of n) = Z.of_N n.
Proof.
  unfold digits_of.
  destruct (digits_go_spec (N.to_nat (N.size n)) n []) as (ds & E & H).
  - destruct n as [|p]; [reflexivity|].
    pose proof (N.size_gt (N.pos p)) as G.
    replace (N.of_nat (S (N.to_nat (N.size (N.pos p)))))
      with (N.succ (N.size (N.pos p))) by lia.
    rewrite N.pow_succ_r'. lia.
  - rewrite E, app_nil_r. exact H.
Qed.

Lemma significant_app a b :
  significant (a ++ b) = significant a ++ significant b.
Proof. unfold significant. now rewrite map_app, filter_app. Qed.

Lemma digit_significant c :
  is_digit c = true -> kept_char (paren_to_minus c) = true /\
                       paren_to_minus c = c.
Proof.
  intros H. pose proof (is_digit_decimal c H) as D.
  apply is_digit_bounds in H.
  destruct (paren_to_minus_cases c) as [[E _]|[_ ->]]; [lia|].
  split; [|reflexivity]. unfold kept_char. now rewrite D.
Qed.

Lemma significant_digits ds :
  forallb is_digit ds = true -> significant ds = ds.
Proof.
  unfold significant. induction ds as [|c ds IH]; [reflexivity|].
  cbn [forallb map filter]. rewrite andb_true_iff. intros [Hc H].
  destruct (digit_significant c Hc) as [-> ->]. now rewrite IH.
Qed.

Lemma significant_rev l : significant (rev l) = rev (significant l).
Proof.
  unfold significant. rewrite map_rev.
  induction (map paren_to_minus l) as [|c m IH]; [reflexivity|].
  cbn [rev filter]. rewrite filter_app, IH. cbn [filter].
  destruct (kept_char c); [reflexivity|]. now rewrite app_nil_r.
Qed.

Lemma significant_group3_go : forall l k,
  forallb is_digit l = true -> significant (group3_go k l) = l.
Proof.
  induction l as [|c l IH]; intros k H; [reflexivity|].
  cbn [forallb] in H. apply andb_true_iff in H. destruct H as [Hc H].
  destruct (digit_significant c Hc) as [A B].
  assert (significant (c :: group3_go 1 l) = c :: l) as E1.
  { change (c :: group3_go 1 l) with ([c] ++ group3_go 1 l).
    rewrite significant_app, IH by exact H.
    unfold significant. cbn [map filter]. now rewrite A, B. }
  cbn [group3_go].
  destruct k as [|[|[|[|k]]]];
    try (change (c :: group3_go ?j l) with ([c] ++ group3_go j l);
         rewrite significant_app, IH by exact H;
         unfold significant; cbn [map filter]; now rewrite A, B).
  change (44%N :: c :: group3_go 1 l) with ([44%N] ++ c :: group3_go 1 l).
  rewrite significant_app, E1. reflexivity.
Qed.

(** Grouping adds commas only. *)
Lemma significant_group3 ds :
  forallb is_digit ds = true -> significant (group3 ds) = ds.
Proof.
  intros H. unfold group3.
  rewrite significant_rev, significant_group3_go, rev_involutive;
    [reflexivity|].
  rewrite forallb_forall in *. intros x Hx. apply H. now apply in_rev.
Qed.

Lemma significant_cr layout : significant (cr_suffix layout) = [].
Proof. unfold cr_suffix. now destruct (text_eqb layout SBI_POST_VALUE). Qed.

Lemma span_digits ds rest :
  forallb is_digit ds = true ->
  match rest with [] => True | c :: _ => is_decimal c = false end ->
  span is_decimal (ds ++ rest) = (ds, rest).
Proof.
  intros H R. induction ds as [|c ds IH].
  - destruct rest as [|c r]; [reflexivity|]. cbn [app span]. now rewrite R.
  - cbn [forallb] in H. apply andb_true_iff in H. destruct H as [Hc H].
    cbn [app span]. rewrite (is_digit_decimal c Hc), (IH H). reflexivity.
Qed.

Lemma digits_no_space ds :
  forallb is_digit ds = true ->
  forallb (fun c => negb (is_space c)) ds = true.
Proof.
  intros H. rewrite forallb_forall in *. intros c Hc.
  apply negb_true_iff, kept_char_not_space.
  destruct (digit_significant c (H c Hc)) as [A B]. now rewrite B in A.
Qed.

(** [float] on an optional minus sign, digits, a point and digits. *)
Lemma py_float_decimal (neg : bool) ds fp :
  ds <> [] -> forallb is_digit ds = true -> forallb is_digit fp = true ->
  py_float ((if neg then [45%N] else []) ++ ds ++ 46%N :: fp)
  = Return (float_of_decimal neg (digits_val (ds ++ fp)) (length fp)).
Proof.
  intros Hne Hds Hfp. unfold py_float.
  rewrite strip_no_space.
  2:{ destruct neg; cbn [app forallb];
      rewrite ?forallb_app; cbn [forallb];
      rewrite !digits_no_space by assumption; reflexivity. }
  assert (span is_decimal (ds ++ 46%N :: fp) = (ds, 46%N :: fp)) as S1
    by (now apply span_digits).
  assert (span is_decimal fp = (fp, [])) as S2.
  { rewrite <- (app_nil_r fp) at 1. now apply span_digits. }
  destruct ds as [|d ds']; [now destruct Hne|].
  assert (is_digit d = true) as Hd
    by (cbn [forallb] in Hds; now apply andb_true_iff in Hds).
  destruct neg; cbn [app].
  - cbn [app] in S1. rewrite S1, S2. cbn [truthy negb andb orb].
    reflexivity.
  - assert (d <> 45 /\ d <> 43)%N as [N1 N2].
    { unfold is_digit, between in Hd. apply andb_true_iff in Hd.
      rewrite !N.leb_le in Hd. lia. }
    cbn [app] in S1.
    match goal with
    | |- (let '(_, _) := ?m in _) = _ =>
        replace m with (false, d :: ds' ++ 46%N :: fp)
    end.
    + cbv beta iota. rewrite S1, S2. cbn [truthy negb andb orb].
      reflexivity.
    + destruct d as [|p]; [reflexivity|].
      do 6 (destruct p as [p|p|]; try reflexivity); try lia;
        destruct p; reflexivity || lia.
Qed.

Lemma round_half_even_bounds a d :
  (0 <= a)%Z -> (0 < d)%Z ->
  (0 <= round_half_even a d)%Z /\
  (2 * Z.abs (round_half_even a d * d - a) <= d)%Z.
Proof.
  intros Ha Hd. unfold round_half_even.
  pose proof (Z.div_mod a d ltac:(lia)) as E.
  pose proof (Z.mod_pos_bound a d Hd) as B.
  pose proof (Z.div_pos a d Ha Hd) as P.
  destruct (2 * (a mod d) ?= d)%Z eqn:C.
  - apply Z.compare_eq in C. destruct (Z.even (a / d)); split; nia.
  - rewrite Z.compare_lt_iff in C. split; nia.
  - rewrite Z.compare_gt_iff in C. split; nia.
Qed.

Lemma text_eqb_length a : forall b,
  text_eqb a b = true -> length a = length b.
Proof.
  induction a as [|x a IH]; intros [|y b] H; try discriminate;
    [reflexivity|].
  cbn [text_eqb] in H. apply andb_true_iff in H. cbn [length].
  f_equal. now apply IH.
Qed.

Lemma text_in_long s :
  2 <= length s -> text_in s [[]; str "-"; str "."] = false.
Proof.
  intros H. unfold text_in. cbn [existsb].
  repeat match goal with
  | |- context [text_eqb s ?t] =>
      let E := fresh in
      destruct (text_eqb s t) eqn:E;
        [apply text_eqb_length in E; cbn in E; lia|]
  end. reflexivity.
Qed.

(** What the parser reads in a printed amount. *)
Lemma fixed_readback x suffix :
  significant suffix = [] ->
  _parse_amount (fixed_2 x ++ suffix)
  = Return (float_of_decimal (Qnum x <? 0)%Z
              (Z.abs (displayed_hundredths x)) 2).
Proof.
  intros Hs. rewrite parse_amount_significant.
  unfold fixed_2, displayed_hundredths.
  set (h := round_half_even (Z.abs (Qnum x) * 100) (Z.pos (Qden x))).
  destruct (round_half_even_bounds (Z.abs (Qnum x) * 100) (Z.pos (Qden x)))
    as [Hh _]; [lia | lia |]. fold h in Hh.
  set (whole := Z.to_N (h / 100)). set (cents := Z.to_N (h mod 100)).
  assert (cents < 100)%N as Hc.
  { unfold cents. pose proof (Z.mod_pos_bound h 100 eq_refl). lia. }
  destruct (digits_of_spec whole) as (Dne & Dd & Dv).
  set (d1 := (48 + cents / 10)%N). set (d2 := (48 + cents mod 10)%N).
  assert (cents / 10 < 10)%N as L1
    by (apply N.Div0.div_lt_upper_bound; lia).
  assert (cents mod 10 < 10)%N as L2 by (apply N.mod_lt; discriminate).
  assert (is_digit d1 = true) as H1 by now apply is_digit_of.
  assert (is_digit d2 = true) as H2 by now apply is_digit_of.
  assert (significant
            ((if (Qnum x <? 0)%Z then str "-" else [])
               ++ group3 (digits_of whole) ++ str "." ++ [d1; d2])
          = (if (Qnum x <? 0)%Z then [45%N] else [])
              ++ digits_of whole ++ 46%N :: [d1; d2]) as E.
  { rewrite !significant_app, significant_group3 by exact Dd.
    rewrite (significant_digits [d1; d2])
      by (cbn [forallb]; now rewrite H1, H2).
    now destruct (Qnum x <? 0)%Z. }
  rewrite significant_app, Hs, app_nil_r, E.
  unfold decimal_or_zero. rewrite text_in_long.
  2:{ rewrite !length_app. cbn [length]. lia. }
  rewrite (py_float_decimal (Qnum x <? 0)%Z (digits_of whole) [d1; d2] Dne Dd)
    by (cbn [forallb]; now rewrite H1, H2).
  assert (digits_val (digits_of whole ++ [d1; d2]) = h) as V.
  { change [d1; d2] with ([d1] ++ [d2]).
    rewrite app_assoc, !digits_val_snoc, Dv.
    unfold d1, d2. rewrite !digit_val_of by assumption.
    pose proof (N.div_mod cents 10 ltac:(discriminate)) as M.
    pose proof (Z.div_mod h 100 ltac:(discriminate)) as M'.
    pose proof (Z.mod_pos_bound h 100 eq_refl).
    pose proof (Z.div_pos h 100 Hh eq_refl).
    unfold whole, cents in *. lia. }
  rewrite V. cbn [length].
  replace (Z.abs (if (Qnum x <? 0)%Z then (- h)%Z else h)) with h
    by (destruct (Qnum x <? 0)%Z; lia).
  reflexivity.
Qed.

Lemma displayed_hundredths_exact z :
  displayed_hundredths (hundredths z) = z.
Proof.
  unfold displayed_hundredths, hundredths, round_half_even. cbn [Qnum Qden].
  rewrite Z.mod_mul, Z.div_mul by discriminate.
  cbn [Z.mul Z.compare]. destruct (z <? 0)%Z eqn:E.
  - apply Z.ltb_lt in E. lia.
  - apply Z.ltb_ge in E. lia.
Qed.


Lemma displayed_hundredths_eq x z :
  (x == hundredths z)%Q -> displayed_hundredths x = z.
Proof.
  unfold Qeq, hundredths, displayed_hundredths, round_half_even.
  cbn [Qnum Qden]. intros E.
  assert (Z.abs (Qnum x) * 100 = Z.abs z * Z.pos (Qden x))%Z as A.
  { transitivity (Z.abs (Qnum x * 100)); [rewrite Z.abs_mul; lia|].
    rewrite E, Z.abs_mul. lia. }
  rewrite A, Z.mod_mul, Z.div_mul by lia.
  cbn [Z.mul]. change (0 ?= Z.pos (Qden x))%Z with Lt.
  destruct (Qnum x <? 0)%Z eqn:S.
  - apply Z.ltb_lt in S. nia.
  - apply Z.ltb_ge in S. nia.
Qed.


Lemma round_half_even_unique a d k :
  (0 <= a)%Z -> (0 < d)%Z -> (2 * Z.abs (k * d - a) < d)%Z ->
  round_half_even a d = k.
Proof.
  intros Ha Hd Hk.
  destruct (round_half_even_bounds a d Ha Hd) as [_ B].
  set (r := round_half_even a d) in *.
  assert (Z.abs (r - k) * d < 2 * d)%Z as L by nia.
  assert (Z.abs (r - k) < 2)%Z as L' by nia.
  assert (r - k = 1 \/ r - k = 0 \/ r - k = -1)%Z as [E|[E|E]] by lia;
    [nia | lia | nia].
Qed.

(** The display of an amount that is within half a hundredth of a
    whole number of hundredths. *)
Lemma displayed_hundredths_unique x z :
  (2 * Z.abs (z * Z.pos (Qden x) - Qnum x * 100) < Z.pos (Qden x))%Z ->
  displayed_hundredths x = z.
Proof.
  intros H. unfold displayed_hundredths.
  destruct (Qnum x <? 0)%Z eqn:S.
  - apply Z.ltb_lt in S.
    rewrite (round_half_even_unique _ _ (- z)%Z); [lia | lia | lia | nia].
  - apply Z.ltb_ge in S.
    apply round_half_even_unique; [lia | lia | nia].
Qed.

Lemma leading_exponent_le n d :
  (leading_exponent n d <= Z.log2 n - Z.log2 d)%Z.
Proof.
  unfold leading_exponent.
  repeat match goal with
         | |- context [if ?c then _ else _] => destruct c
         end; lia.
Qed.

(** The double nearest to an amount of [z] hundredths below 10^13
    displays as [z] hundredths and has the sign of [z]. *)
Lemma nearest_hundredths z :
  (0 < Z.abs z < 10 ^ 15)%Z ->
  exists q, nearest_double (Qmake z 100) = Finite q /\
            (Qnum q <? 0)%Z = (z <? 0)%Z /\ displayed_hundredths q = z.
Proof.
  intros Hz. unfold nearest_double, nearest_magnitude. cbn [Qnum Qden].
  pose proof (leading_exponent_le (Z.abs z) 100) as Le.
  change (Z.log2 100) with 6%Z in Le.
  assert (Z.log2 (Z.abs z) < 50)%Z as Lg.
  { apply Z.log2_lt_pow2; [lia|].
    eapply Z.lt_trans; [apply Hz | reflexivity]. }
  set (unit := Z.max (leading_exponent (Z.abs z) 100 - 52) (-1074)) in *.
  assert (-1074 <= unit <= -9)%Z as Hu by (unfold unit; lia).
  replace (0 <=? unit)%Z with false by (symmetry; apply Z.leb_gt; lia).
  set (T := (2 ^ (- unit))%Z).
  assert (512 <= T)%Z as HT.
  { unfold T. change 512%Z with (2 ^ 9)%Z.
    apply Z.pow_le_mono_r; lia. }
  set (m := round_half_even (Z.abs z * T) 100).
  destruct (round_half_even_bounds (Z.abs z * T) 100) as [M0 MB];
    [nia | lia |]. fold m in M0, MB.
  assert (0 < m)%Z as Mpos by nia.
  set (r := Qred (Qmake m (Z.to_pos T))).
  assert (Qnum r * T = m * Z.pos (Qden r))%Z as Er.
  { pose proof (Qred_correct (Qmake m (Z.to_pos T))) as C. fold r in C.
    unfold Qeq in C. cbn [Qnum Qden] in C.
    rewrite Z2Pos.id in C by lia. exact C. }
  assert (0 < Qnum r)%Z as Rpos by nia.
  replace (Qeq_bool r 0) with false.
  2:{ symmetry. unfold Qeq_bool, Z.eqb. cbn [Qnum Qden].
      rewrite Z.mul_1_r. destruct (Qnum r); [lia | reflexivity | lia]. }
  assert (2 * Z.abs (Z.abs z * Z.pos (Qden r) - Qnum r * 100)
          < Z.pos (Qden r))%Z as Near.
  { assert (Z.abs (Z.abs z * Z.pos (Qden r) - Qnum r * 100) * T
            = Z.pos (Qden r) * Z.abs (Z.abs z * T - m * 100))%Z as E.
    { rewrite <- (Z.abs_eq T) at 1 by lia.
      rewrite <- (Z.abs_eq (Z.pos (Qden r))) at 2 by lia.
      rewrite <- !Z.abs_mul. f_equal. nia. }
    nia. }
  destruct (z <? 0)%Z eqn:S.
  - apply Z.ltb_lt in S. exists (Qopp r). split; [reflexivity|].
    split; [cbn [Qopp Qnum]; apply Z.ltb_lt; lia|].
    apply displayed_hundredths_unique. cbn [Qopp Qnum Qden]. lia.
  - apply Z.ltb_ge in S. exists r. split; [reflexivity|].
    split; [apply Z.ltb_ge; lia|].
    apply displayed_hundredths_unique. lia.
Qed.

Lemma float_of_hundredths_nearest z :
  z <> 0%Z -> float_of_hundredths z = nearest_double (Qmake z 100).
Proof.
  intros Hz. unfold float_of_hundredths, float_of_decimal.
  replace (Z.abs z =? 0)%Z with false by (symmetry; apply Z.eqb_neq; lia).
  change (Z.to_pos (10 ^ Z.of_nat 2)) with 100%positive.
  destruct (z <? 0)%Z eqn:S; [apply Z.ltb_lt in S | apply Z.ltb_ge in S];
    do 2 f_equal; lia.
Qed.

(** The display of the float that holds an amount of [z] hundredths is
    read back as this float. *)
Lemma hundredths_readback z suffix :
  (Z.abs z < 10 ^ 15)%Z -> significant suffix = [] ->
  _parse_amount (format_2f (float_of_hundredths z) ++ suffix)
  = Return (float_of_hundredths z).
Proof.
  intros Hz Hs. destruct (Z.eq_dec z 0) as [->|Nz].
  - change (float_of_hundredths 0) with (Finite 0%Q).
    cbn [format_2f]. now rewrite fixed_readback.
  - destruct (nearest_hundredths z) as (q & E & Sg & D); [lia|].
    pose proof (float_of_hundredths_nearest z Nz) as F. rewrite E in F.
    rewrite F. cbn [format_2f].
    rewrite fixed_readback by exact Hs. rewrite Sg, D, <- F. reflexivity.
Qed.

End FormatFacts.

(** ** Pagination *)

Module PageFacts.
Import RenderSpec RenderFacts PageSpec.

Lemma pages_needed_one n k : 0 < n -> n <= k -> pages_needed n k = 1.
Proof.
  intros H1 H2. unfold pages_needed.
  symmetry. apply (Nat.div_unique _ _ _ (n - 1)); lia.
Qed.

Lemma pages_needed_more n k :
  0 < k -> k < n -> pages_needed n k = S (pages_needed (n - k) k).
Proof.
  intros H1 H2. unfold pages_needed.
  replace (n + k - 1) with ((n - k + k - 1) + 1 * k) by lia.
  rewrite Nat.div_add by lia. lia.
Qed.

Lemma pages_needed_zero k : 0 < k -> pages_needed 0 k = 0.
Proof. intros H. unfold pages_needed. apply Nat.div_small. lia. Qed.

Lemma page_ok_built layout k rows :
  1 <= length rows <= k ->
  page_ok layout k
    (header_row layout :: rows
       ++ (if text_eqb layout SBI_POST_VALUE then [footer_row] else [])).
Proof.
  intros H. unfold page_ok. rewrite table_body_page.
  repeat split; try lia.
  - cbn [length]. rewrite length_app.
    destruct (text_eqb layout SBI_POST_VALUE); cbn [length]; lia.
  - intros E. rewrite E.
    change (header_row layout :: rows ++ [footer_row])
      with ((header_row layout :: rows) ++ [footer_row]).
    apply last_last.
Qed.

Lemma separated_cons p q rest :
  separated (p :: q :: rest) = p :: PageBreak :: separated (q :: rest).
Proof. reflexivity. Qed.

(** The story of the transaction pages. *)
Lemma render_pages_structure layout k :
  0 < k ->
  forall fuel txns r,
    length txns <= fuel ->
    exists tables,
      snd (render_pages fuel layout k r txns)
        = separated (map (fun td => Table td 1) tables) /\
      length tables = pages_needed (length txns) k /\
      Forall (page_ok layout k) tables /\
      Forall (fun td => length (table_body layout td) = k)
        (removelast tables).
Proof.
  intros Hk. induction fuel as [|fuel IH]; intros txns r Hf.
  - destruct txns; [|cbn [length] in Hf; lia].
    exists []. cbn [render_pages snd map separated length removelast].
    rewrite pages_needed_zero by exact Hk.
    refine (conj eq_refl (conj eq_refl (conj _ _))); constructor.
  - destruct txns as [|t txns].
    + exists []. cbn [render_pages snd map separated length removelast].
      rewrite pages_needed_zero by exact Hk.
    refine (conj eq_refl (conj eq_refl (conj _ _))); constructor.
    + set (all := t :: txns) in *.
      assert (0 < length all) as Hn by (cbn [all length]; lia).
      assert (snd (render_pages (S fuel) layout k r all)
              = Table (header_row layout
                         :: snd (render_rows layout r (firstn k all))
                         ++ (if text_eqb layout SBI_POST_VALUE
                             then [footer_row] else [])) 1
                  :: (if truthy_list (skipn k all) then [PageBreak] else [])
                  ++ snd (render_pages fuel layout k
                            (fst (render_rows layout r (firstn k all)))
                            (skipn k all))) as E.
      { unfold all. cbn [render_pages]. fold all.
        destruct (render_rows layout r (firstn k all)) as [r1 rows].
        cbn [fst snd].
        destruct (render_pages fuel layout k r1 (skipn k all)).
        reflexivity. }
      rewrite E. clear E.
      set (rows := snd (render_rows layout r (firstn k all))).
      set (r1 := fst (render_rows layout r (firstn k all))).
      set (td := header_row layout :: rows
                   ++ (if text_eqb layout SBI_POST_VALUE
                       then [footer_row] else [])).
      assert (length rows = Nat.min k (length all)) as Hrows.
      { unfold rows. rewrite render_rows_length. apply length_firstn. }
      destruct (IH (skipn k all) r1) as (tables & E1 & E2 & E3 & E4).
      { rewrite length_skipn. cbn [all length] in *. lia. }
      rewrite E1. rewrite length_skipn in E2.
      exists (td :: tables).
      destruct (skipn k all) as [|x later] eqn:Es.
      * assert (length all <= k) as Hle.
        { apply (f_equal (@length _)) in Es.
          rewrite length_skipn in Es. cbn [length] in Es. lia. }
        replace (length all - k) with 0 in E2 by lia.
        rewrite pages_needed_zero in E2 by exact Hk.
        destruct tables; [|discriminate E2].
        cbn [truthy_list app map separated length removelast].
        rewrite pages_needed_one by lia.
        refine (conj eq_refl (conj eq_refl (conj _ _))).
        -- constructor; [|constructor]. apply page_ok_built. lia.
        -- constructor.
      * assert (k < length all) as Hlt.
        { apply (f_equal (@length _)) in Es.
          rewrite length_skipn in Es. cbn [length] in Es. lia. }
        rewrite (pages_needed_more (length all) k) by lia.
        destruct tables as [|td' tables'].
        { exfalso. cbn [length] in E2.
          assert (0 < length all - k) as Hp by lia.
          destruct (Nat.le_gt_cases (length all - k) k) as [Hc|Hc].
          - rewrite pages_needed_one in E2 by lia. discriminate.
          - rewrite pages_needed_more in E2 by lia. discriminate. }
        cbn [truthy_list app map]. rewrite separated_cons.
        refine (conj eq_refl (conj _ (conj _ _))).
        -- cbn [length]. now rewrite <- E2.
        -- constructor; [|exact E3]. apply page_ok_built. lia.
        -- change (removelast (td :: td' :: tables'))
             with (td :: removelast (td' :: tables')).
           constructor; [|exact E4].
           unfold td. rewrite table_body_page. lia.
Qed.

Lemma transaction_tables_separated tables :
  transaction_tables (separated (map (fun td => Table td 1) tables))
  = tables.
Proof.
  induction tables as [|td [|td' rest] IH]; try reflexivity.
  change (td :: transaction_tables
                  (separated (map (fun td => Table td 1) (td' :: rest)))
          = td :: td' :: rest).
  now rewrite IH.
Qed.

Lemma rows_per_page_value layout :
  ROWS_PER_PAGE layout = if text_eqb layout SBI_TXN_VALUE then 16 else 24.
Proof.
  unfold ROWS_PER_PAGE. now destruct (text_eqb layout SBI_TXN_VALUE).
Qed.

End PageFacts.

(** ** The records of the parsers *)

Module RecordFacts.
Import ParseSpec RecordSpec AmountFacts ParseFacts.

Lemma post_value_block_record block :
  exists t, post_value_block block = Return t /\ post_record t.
Proof.
  unfold post_value_block, post_record, balance_kept, described, reads_as.
  classify;
    (eexists; split; [reflexivity|];
     cbn [orig_balance_text balance description description_line1
          description_line2 cheque_ref orig_debit_text orig_credit_text];
     repeat split; try reflexivity; apply parse_amount_rules).
Qed.

Lemma classify_movement_kept txn_tok desc_main cheque_ref :
  exists d c od oc,
    classify_movement txn_tok desc_main cheque_ref = Return (d, c, od, oc)
    /\ reads_as od d /\ reads_as oc c.
Proof.
  unfold classify_movement, reads_as. classify;
    (do 4 eexists; split; [reflexivity|];
     split; try reflexivity; apply parse_amount_rules).
Qed.

Lemma txn_value_block_tail bal bal_tok txn_tok desc_part d1 d2 :
  reads_as bal_tok bal ->
  exists t,
    (let '(cheque_ref, desc_main) := split_reference desc_part in
     let desc_main :=
       strip (Re.sub (Re.plus Re.space) (fun _ => str " ") desc_main) in
     let '(desc_line1, desc_line2) := split_description desc_main in
     '(debit, credit, orig_debit_text, orig_credit_text) <-
       classify_movement txn_tok desc_main cheque_ref ;;
     Return (mkTxn d1 d2 (make_description desc_line1 desc_line2)
               desc_line1 desc_line2 cheque_ref debit credit bal
               orig_debit_text orig_credit_text bal_tok))
    = Return t /\ txn_record t.
Proof.
  intros Hb.
  destruct (split_reference desc_part) as [cheque_ref desc_main].
  cbv zeta.
  destruct (split_description
              (strip (Re.sub (Re.plus Re.space) (fun _ => str " ") desc_main)))
    as [l1 l2].
  destruct (classify_movement_kept txn_tok
              (strip (Re.sub (Re.plus Re.space) (fun _ => str " ") desc_main))
              cheque_ref)
    as [d [c [od [oc [-> [H1 H2]]]]]].
  cbn [bind]. eexists. split; [reflexivity|].
  unfold txn_record, balance_kept, movements_kept, described.
  cbn [orig_balance_text balance description description_line1
       description_line2 orig_debit_text orig_credit_text debit credit].
  repeat split; assumption.
Qed.

Lemma txn_value_block_record block :
  exists t, txn_value_block block = Return t /\ txn_record t.
Proof.
  unfold txn_value_block.
  set (normalized := normalize_block_text _).
  destruct (rev (amount_spans txn_amt_re normalized))
    as [|[[balance_tok b_start] b_end] before].
  - cbn [bind]. now apply txn_value_block_tail.
  - rewrite parse_amount_rules. cbn [bind].
    destruct before as [|[[tok a] e] before'].
    + destruct (unglue_reference_total normalized b_start balance_tok)
        as [fixed ->].
      cbn [try_except bind].
      destruct fixed as [[desc_part' txn_tok']|]; cbn [bind];
        apply txn_value_block_tail, parse_amount_rules.
    + destruct (unglue_reference_total normalized a tok) as [fixed ->].
      cbn [try_except bind].
      destruct fixed as [[desc_part' txn_tok']|]; cbn [bind];
        apply txn_value_block_tail, parse_amount_rules.
Qed.

Lemma post_value_records file_obj :
  exists ps, _parse_sbi_post_value file_obj = Return ps
             /\ Forall post_record (transactions ps).
Proof.
  unfold _parse_sbi_post_value.
  destruct (scan_meta_total
              (_normalize_multiline_dates (_extract_all_lines file_obj)))
    as [m ->].
  cbn [bind].
  destruct (mapM_total post_value_block post_record post_value_block_record
              (post_value_segment
                 (_normalize_multiline_dates (_extract_all_lines file_obj))))
    as [ts [-> H]].
  cbn [bind]. eexists. split; [reflexivity | exact H].
Qed.

Lemma txn_value_records file_obj :
  exists ps, _parse_sbi_txn_value file_obj = Return ps
             /\ Forall txn_record (transactions ps).
Proof.
  unfold _parse_sbi_txn_value.
  destruct (scan_meta_total
              (_normalize_multiline_dates (_extract_all_lines file_obj)))
    as [m ->].
  cbn [bind].
  destruct (mapM_total txn_value_block txn_record txn_value_block_record
              (txn_value_segment
                 (_normalize_multiline_dates (_extract_all_lines file_obj))))
    as [ts [-> H]].
  cbn [bind]. eexists. split; [reflexivity | exact H].
Qed.

End RecordFacts.

(** ** The TxnValue segmenter *)

Module SegmentFacts.
Import SegmentSpec.

Lemma join_space_cons (p : text) (rest : list text) :
  join (str " ") (p :: rest)
  = p ++ concat (map (fun l => str " " ++ l) rest).
Proof.
  revert p. induction rest as [|q rest IH]; intros p.
  - cbn [join map concat]. now rewrite app_nil_r.
  - change (join (str " ") (p :: q :: rest))
      with (p ++ str " " ++ join (str " ") (q :: rest)).
    rewrite IH. cbn [map concat]. now rewrite <- !app_assoc.
Qed.

Lemma primary_blocks_skip l rest :
  Re.matches row_start l = false ->
  primary_blocks (l :: rest) = primary_blocks rest.
Proof.
  unfold Re.matches. cbn [primary_blocks].
  now destruct (Re.match_ row_start l).
Qed.

(** The nested loops read the lines as one pass does. *)
Lemma segment_primary_blocks lines :
  segment_primary lines = primary_blocks lines.
Proof.
  induction lines as [lines IH] using (induction_ltof1 _ (@length text)).
  unfold ltof in IH.
  destruct lines as [|line after]; [reflexivity|].
  cbn [segment_primary primary_blocks].
  destruct (Re.match_ row_start line) as [m|];
    [|apply IH; cbn [length]; lia].
  rewrite join_space_cons.
  assert (forall ls, length ls <= length after ->
                     segment_primary ls = primary_blocks ls) as IH'
    by (intros ls H; apply IH; cbn [length]; lia).
  clear IH.
  generalize (strip (Re.group 3 line m)) as block.
  generalize (strip (Re.group 1 line m)) as d1.
  generalize (strip (Re.group 2 line m)) as d2.
  intros d2 d1.
  induction after as [|lj after_j IHa]; intros block.
  - cbn [continuation map concat]. now rewrite app_nil_r.
  - cbn [continuation].
    destruct (Re.matches row_start lj) eqn:E1.
    + cbn [orb map concat]. rewrite app_nil_r.
      now rewrite (IH' (lj :: after_j)) by lia.
    + destruct (primary_stop lj) eqn:E2.
      * cbn [orb map concat]. rewrite app_nil_r.
        now rewrite (IH' (lj :: after_j)) by lia.
      * cbn [orb map concat].
        rewrite IHa by (intros ls H; apply IH'; cbn [length]; lia).
        rewrite primary_blocks_skip by exact E1.
        now rewrite <- !app_assoc.
Qed.

Lemma primary_blocks_dates lines :
  map (fun b => (tb_date b, tb_value_date b)) (primary_blocks lines)
  = row_dates lines.
Proof.
  induction lines as [|line after IH]; [reflexivity|].
  cbn [primary_blocks row_dates flat_map].
  destruct (Re.match_ row_start line); cbn [map app tb_date tb_value_date];
    now rewrite IH.
Qed.

Lemma row_dates_nil lines :
  row_dates lines = [] <->
  Forall (fun l => Re.matches row_start l = false) lines.
Proof.
  unfold Re.matches. induction lines as [|l lines IH].
  - split; [constructor | reflexivity].
  - cbn [row_dates flat_map]. destruct (Re.match_ row_start l) eqn:E.
    + split; [discriminate|].
      intros H. inversion H as [|? ? Hd _]. cbv beta in Hd.
      rewrite E in Hd. discriminate Hd.
    + cbn [app]. rewrite IH. split.
      * intros H. constructor; [now rewrite E | exact H].
      * now inversion 1.
Qed.

Lemma permissive_blocks_skip l rest :
  Re.matches permissive l = false ->
  permissive_blocks (l :: rest) = permissive_blocks rest.
Proof. intros H. cbn [permissive_blocks]. now rewrite H. Qed.

Lemma segment_permissive_blocks lines :
  segment_permissive lines = permissive_blocks lines.
Proof.
  induction lines as [lines IH] using (induction_ltof1 _ (@length text)).
  unfold ltof in IH.
  destruct lines as [|line after]; [reflexivity|].
  cbn [segment_permissive permissive_blocks].
  destruct (Re.matches permissive line);
    [|apply IH; cbn [length]; lia].
  destruct (words line) as [|d1 [|d2 more]];
    try (apply IH; cbn [length]; lia).
  rewrite join_space_cons.
  assert (forall ls, length ls <= length after ->
                     segment_permissive ls = permissive_blocks ls) as IH'
    by (intros ls H; apply IH; cbn [length]; lia).
  clear IH.
  generalize (join (str " ") more) as block.
  induction after as [|lj after_j IHa]; intros block.
  - cbn [permissive_continuation map concat]. now rewrite app_nil_r.
  - cbn [permissive_continuation].
    destruct (Re.matches permissive lj) eqn:E1.
    + cbn [orb map concat]. rewrite app_nil_r.
      now rewrite (IH' (lj :: after_j)) by lia.
    + destruct (permissive_stop lj) eqn:E2.
      * cbn [orb map concat]. rewrite app_nil_r.
        now rewrite (IH' (lj :: after_j)) by lia.
      * cbn [orb map concat].
        rewrite IHa by (intros ls H; apply IH'; cbn [length]; lia).
        rewrite permissive_blocks_skip by exact E1.
        now rewrite <- !app_assoc.
Qed.

Lemma txn_value_segment_cases lines :
  txn_value_segment lines
  = match row_dates lines with
    | [] => permissive_blocks lines
    | _ :: _ => primary_blocks lines
    end.
Proof.
  unfold txn_value_segment.
  rewrite segment_primary_blocks, segment_permissive_blocks.
  rewrite <- primary_blocks_dates.
  now destruct (primary_blocks lines).
Qed.

End SegmentFacts.

(** ** Metadata *)

Module MetaFacts.
Import MetaSpec AmountFacts.

Lemma last_cons {A} (x : A) l d : last (x :: l) d = last l x.
Proof.
  revert x d. induction l as [|y l IH]; intros x d; [reflexivity|].
  change (last (x :: y :: l) d) with (last (y :: l) d).
  now rewrite !IH.
Qed.

Lemma last_set_filter {A} (p : A -> bool) x l d :
  last_set (filter p (x :: l)) d
  = last_set (filter p l) (if p x then x else d).
Proof.
  unfold last_set. cbn [filter]. destruct (p x); [apply last_cons|].
  reflexivity.
Qed.

(** The scan from any starting values. *)
Lemma scan_from lines : forall m,
  foldM meta_step m lines
  = Return
      (mkMetaFields
         (last_set (filter names_account lines) (mf_account_name m))
         (last_set (map account_number_of
                      (filter (contains (str "Account No")) lines))
            (mf_account_number m))
         (last_set (map period_of
                      (filter (contains (str "Statement From")) lines))
            (mf_period m))
         (last_set (map amount_of (flat_map opening_of lines))
            (mf_opening_balance m))).
Proof.
  induction lines as [|l lines IH]; intros m.
  - now destruct m.
  - cbn [foldM]. unfold meta_step.
    cbn [filter flat_map]. rewrite map_app. unfold opening_of at 1.
    unfold names_account at 1.
    destruct (startswith_any honorifics l);
    destruct (contains (str "Account No") l);
    destruct (contains (str "Statement From") l);
    destruct (startswith_any [str "BROUGHT FORWARD"; str "BALANCE B/F"]
                (upper l));
    try destruct (rev (Re.findall amount_token_re l)) as [|tok ?];
    rewrite ?parse_amount_significant; cbn [bind]; rewrite IH;
    cbn [mf_account_name mf_account_number mf_period mf_opening_balance
         map app];
    unfold last_set; rewrite ?last_cons; reflexivity.
Qed.

End MetaFacts.

(** ** The PostValue table *)

Module TableFacts.
Import TableSpec.

Lemma seg_step_outside st line :
  opens_table line = false -> outside st -> outside (seg_step st line).
Proof.
  unfold opens_table, header_line, columns_line, outside, seg_step.
  intros H (H1 & H2 & H3).
  destruct (contains (str "POST DATE") (upper line)
            && contains (str "VALUE DATE") (upper line)
            && contains (str "DESCRIPTION") (upper line))%bool.
  - cbn [in_table current transactions_raw]. auto.
  - cbn [negb] in H. rewrite andb_true_r in H. rewrite H, andb_false_r.
    rewrite H1. cbn [negb]. auto.
Qed.

Lemma seg_run_outside lines : forall st,
  forallb (fun l => negb (opens_table l)) lines = true ->
  outside st -> outside (fold_left seg_step lines st).
Proof.
  induction lines as [|l lines IH]; intros st H Hst; [exact Hst|].
  cbn [forallb] in H. apply andb_true_iff in H. destruct H as [Hl H].
  apply negb_true_iff in Hl. cbn [fold_left].
  apply IH; [exact H|]. now apply seg_step_outside.
Qed.

Lemma segment_without_opening lines :
  forallb (fun l => negb (opens_table l)) lines = true ->
  post_value_segment lines = [].
Proof.
  intros H. unfold post_value_segment.
  destruct (seg_run_outside lines seg_init H) as (_ & H2 & H3).
  - repeat split.
  - now rewrite H2, H3.
Qed.

End TableFacts.

(** ** Description cells *)

Module CellFacts.
Import CellSpec LineSpec StripFacts.

Lemma padded_length {A} (l : list A) (x : A) n :
  length (firstn n (l ++ repeat x (n - length l))) = n.
Proof. rewrite length_firstn, length_app, repeat_length. lia. Qed.

Lemma make_cells_length text max_lines approx_chars :
  length (_make_three_line_cells text max_lines approx_chars) = max_lines.
Proof.
  unfold _make_three_line_cells.
  destruct (negb (truthy text)); [apply repeat_length|].
  apply padded_length.
Qed.

Lemma description_lines_three layout txn :
  length (description_lines layout txn) = 3.
Proof.
  unfold description_lines.
  destruct (text_eqb layout SBI_POST_VALUE);
    [|apply make_cells_length].
  destruct (Re.search upi_word_re _); [reflexivity|].
  apply make_cells_length.
Qed.

Lemma join_app sep (a b : list text) :
  a <> [] -> b <> [] ->
  join sep (a ++ b) = join sep a ++ sep ++ join sep b.
Proof.
  intros Ha Hb. induction a as [|x a IH]; [now destruct Ha|].
  destruct a as [|y a].
  - destruct b; [now destruct Hb | reflexivity].
  - change (join sep ((x :: y :: a) ++ b))
      with (x ++ sep ++ join sep ((y :: a) ++ b)).
    rewrite IH by discriminate.
    change (join sep (x :: y :: a)) with (x ++ sep ++ join sep (y :: a)).
    now rewrite <- !app_assoc.
Qed.

Lemma slash_parts_length n per segs :
  length (slash_parts n per segs) = S n.
Proof.
  revert segs. induction n as [|n IH]; intros segs; [reflexivity|].
  cbn [slash_parts length]. now rewrite IH.
Qed.

(** The parts hold every segment, in order. *)
Lemma slash_parts_join : forall n per segs,
  0 < per -> n * per < length segs ->
  join (str "/") (slash_parts n per segs) = join (str "/") segs.
Proof.
  induction n as [|n IH]; intros per segs Hp Hn; [reflexivity|].
  cbn [slash_parts].
  assert (length (skipn per segs) = length segs - per) as Hs
    by apply length_skipn.
  assert (length (firstn per segs) = per) as Hf
    by (rewrite length_firstn; cbn [Nat.mul] in Hn; lia).
  destruct (slash_parts n per (skipn per segs)) as [|p ps] eqn:E.
  { apply (f_equal (@length _)) in E. rewrite slash_parts_length in E.
    discriminate. }
  change (join (str "/") (join (str "/") (firstn per segs) :: p :: ps))
    with (join (str "/") (firstn per segs) ++ str "/"
            ++ join (str "/") (p :: ps)).
  rewrite <- E, IH by (cbn [Nat.mul] in Hn; lia).
  rewrite <- join_app.
  - now rewrite firstn_skipn.
  - intros H. rewrite H in Hf. cbn [length] in Hf. lia.
  - intros H. rewrite H in Hs. cbn [length Nat.mul] in *. lia.
Qed.

Lemma make_cells_slash text max_lines approx_chars :
  0 < max_lines -> text <> [] ->
  max_lines <= length (segments text) ->
  _make_three_line_cells text max_lines approx_chars
  = slash_parts (max_lines - 1)
      (Nat.max 1 (length (segments text) / max_lines)) (segments text).
Proof.
  intros Hm Ht Hs. unfold _make_three_line_cells.
  destruct text as [|c text]; [now destruct Ht|]. cbn [truthy negb].
  fold (segments (c :: text)).
  apply Nat.leb_le in Hs. rewrite Hs.
  rewrite slash_parts_length.
  replace (max_lines - S (max_lines - 1)) with 0 by lia.
  cbn [repeat]. rewrite app_nil_r.
  apply firstn_all2. rewrite slash_parts_length. lia.
Qed.

Lemma make_cells_join text max_lines approx_chars :
  0 < max_lines -> text <> [] ->
  max_lines <= length (segments text) ->
  join (str "/") (_make_three_line_cells text max_lines approx_chars)
  = join (str "/") (segments text).
Proof.
  intros Hm Ht Hs. rewrite make_cells_slash by assumption.
  apply slash_parts_join; [lia|].
  set (n := length (segments text)) in *.
  destruct (Nat.max_spec 1 (n / max_lines)) as [[H ->]|[H ->]].
  - pose proof (Nat.Div0.mul_div_le n max_lines) as D.
    nia.
  - assert (1 <= n / max_lines).
    { apply Nat.div_le_lower_bound; lia. }
    lia.
Qed.

Lemma words_go_words : forall s cur,
  forallb (fun c => negb (is_space c)) cur = true ->
  Forall word (words_go cur s).
Proof.
  assert (forall cur, cur <> [] ->
            forallb (fun c => negb (is_space c)) cur = true ->
            word (rev cur)) as W.
  { intros cur Hne H. split.
    - intros E. apply Hne. apply (f_equal (@rev _)) in E.
      now rewrite rev_involutive in E.
    - now apply ExtractFacts.forallb_rev_true. }
  induction s as [|c s IH]; intros cur H.
  - cbn [words_go]. destruct cur as [|x cur]; [constructor|].
    constructor; [|constructor]. now apply W.
  - cbn [words_go]. destruct (is_space c) eqn:E.
    + destruct cur as [|x cur]; [now apply IH|].
      constructor; [now apply W | now apply IH].
    + apply IH. cbn [forallb]. now rewrite E, H.
Qed.

Lemma words_words s : Forall word (words s).
Proof. now apply words_go_words. Qed.

Lemma word_head w :
  word w -> exists c t, w = c :: t /\ is_space c = false.
Proof.
  intros [Hne H]. destruct w as [|c t]; [now destruct Hne|].
  exists c, t. split; [reflexivity|].
  cbn [forallb] in H. apply andb_true_iff in H.
  now apply negb_true_iff.
Qed.

Lemma word_rev w : word w -> word (rev w).
Proof.
  intros [Hne H]. split.
  - intros E. apply Hne. apply (f_equal (@rev _)) in E.
    now rewrite rev_involutive in E.
  - now apply ExtractFacts.forallb_rev_true.
Qed.

(** A line that begins and ends with a word. *)
Lemma strip_line_word cur w :
  cur <> [] -> lstrip cur = cur -> word w ->
  strip (cur ++ str " " ++ w) = cur ++ str " " ++ w /\
  lstrip (cur ++ str " " ++ w) = cur ++ str " " ++ w.
Proof.
  intros Hne Hc Hw.
  assert (lstrip (cur ++ str " " ++ w) = cur ++ str " " ++ w) as L.
  { destruct cur as [|c t]; [now destruct Hne|].
    apply lstrip_fixed_iff in Hc.
    destruct Hc as [Hc | (c' & t' & E & Hc)]; [discriminate|].
    injection E as <- <-. cbn [app lstrip]. now rewrite Hc. }
  split; [|exact L].
  apply trimmed_strip. split; [exact L|].
  rewrite !rev_app_distr.
  destruct (word_head (rev w) (word_rev w Hw)) as (c & t & -> & Hs).
  cbn [app lstrip]. now rewrite Hs.
Qed.

Lemma strip_first_word w : word w -> strip (str " " ++ w) = w /\ lstrip w = w.
Proof.
  intros Hw.
  assert (lstrip w = w) as L.
  { destruct (word_head w Hw) as (c & t & -> & Hs).
    cbn [lstrip]. now rewrite Hs. }
  split; [|exact L].
  unfold strip. change (lstrip (str " " ++ w)) with (lstrip w).
  rewrite L. unfold rstrip.
  destruct (word_head (rev w) (word_rev w Hw)) as (c & t & E & Hs).
  rewrite E. cbn [lstrip]. rewrite Hs, <- E. apply rev_involutive.
Qed.

Lemma glue_cons cur w todo :
  glue cur (w :: todo)
  = glue (match cur with [] => w | _ :: _ => cur ++ str " " ++ w end) todo.
Proof. reflexivity. Qed.

Lemma glue_length : forall todo cur, length cur <= length (glue cur todo).
Proof.
  induction todo as [|w todo IH]; intros cur; [cbn; lia|].
  rewrite glue_cons. destruct cur as [|c t].
  - cbn [length]. lia.
  - etransitivity; [|apply IH]. rewrite !length_app. lia.
Qed.

(** Words that fit on one line are put on it. *)
Lemma wrap_fits words approx_chars max_lines : forall todo cur,
  Forall word todo ->
  lstrip cur = cur ->
  length (glue cur todo) <= approx_chars ->
  wrap_words words approx_chars max_lines cur [] todo = (glue cur todo, []).
Proof.
  induction todo as [|w todo IH]; intros cur Hw Hc Hl; [reflexivity|].
  inversion Hw as [|? ? Hw1 Hw2]; subst.
  cbn [wrap_words]. rewrite glue_cons in *.
  destruct cur as [|c t].
  - cbn [truthy negb]. rewrite orb_true_r.
    change ([] ++ str " " ++ w) with (str " " ++ w).
    destruct (strip_first_word w Hw1) as [-> L].
    now apply IH.
  - destruct (strip_line_word (c :: t) w) as [S L];
      [discriminate | exact Hc | exact Hw1 |].
    pose proof (glue_length todo ((c :: t) ++ str " " ++ w)) as G.
    assert ((length (c :: t) + 1 + length w <=? approx_chars) = true) as ->.
    { apply Nat.leb_le. rewrite !length_app in G.
      change (length (str " ")) with 1 in G. lia. }
    cbn [orb]. rewrite S. now apply IH.
Qed.

Lemma glue_join : forall ws w,
  glue w ws = match w with
              | [] => glue [] ws
              | _ :: _ => w ++ concat (map (fun l => str " " ++ l) ws)
              end.
Proof.
  unfold glue. induction ws as [|x ws IH]; intros w.
  - destruct w; cbn [fold_left map concat]; now rewrite ?app_nil_r.
  - destruct w as [|c t]; [reflexivity|].
    cbn [fold_left map concat]. rewrite IH.
    destruct ((c :: t) ++ str " " ++ x) eqn:E; [discriminate|].
    rewrite <- E. now rewrite <- !app_assoc.
Qed.

Lemma glue_words ws :
  Forall word ws -> glue [] ws = join (str " ") ws.
Proof.
  intros H. destruct ws as [|w ws]; [reflexivity|].
  inversion H as [|? ? [Hne _] _]; subst.
  change (glue [] (w :: ws)) with (glue w ws).
  rewrite glue_join. destruct w as [|c t]; [now destruct Hne|].
  symmetry. apply (SegmentFacts.join_space_cons (c :: t) ws).
Qed.

Lemma firstn_padded {A} (l : list A) (x : A) n :
  length l <= n ->
  firstn n (l ++ repeat x (n - length l)) = l ++ repeat x (n - length l).
Proof.
  intros H. apply firstn_all2. rewrite length_app, repeat_length. lia.
Qed.

Lemma pad_twice {A} (l : list A) (x : A) n :
  length l <= n ->
  firstn n
    (firstn n (l ++ repeat x (n - length l))
       ++ repeat x
            (n - length (firstn n (l ++ repeat x (n - length l)))))
  = l ++ repeat x (n - length l).
Proof.
  intros H. rewrite (firstn_padded l x n H).
  rewrite length_app, repeat_length.
  replace (n - (length l + (n - length l))) with 0 by lia.
  cbn [repeat]. rewrite app_nil_r. now apply firstn_padded.
Qed.

Lemma make_cells_short text max_lines approx_chars :
  0 < max_lines -> text <> [] ->
  length (segments text) < max_lines ->
  length (join (str " ") (words (flowed text))) <= approx_chars ->
  _make_three_line_cells text max_lines approx_chars
  = join (str " ") (words (flowed text)) :: repeat [] (max_lines - 1).
Proof.
  intros Hm Ht Hs Hl. unfold _make_three_line_cells.
  destruct text as [|c0 text0]; [now destruct Ht|]. cbn [truthy negb].
  set (text := c0 :: text0) in *. fold (segments text).
  assert ((max_lines <=? length (segments text)) = false) as ->
    by (apply Nat.leb_gt; exact Hs).
  fold (flowed text).
  set (ws := words (flowed text)) in *.
  pose proof (words_words (flowed text)) as Hw. fold ws in Hw.
  rewrite (wrap_fits ws approx_chars max_lines ws [] Hw eq_refl)
    by (now rewrite glue_words).
  rewrite glue_words by exact Hw.
  destruct ws as [|w ws'] eqn:E.
  - cbn [join truthy andb length app]. rewrite Nat.sub_0_r.
    rewrite (@firstn_all2 _ max_lines (repeat _ max_lines))
      by (rewrite repeat_length; lia).
    rewrite repeat_length, Nat.sub_diag. cbn [repeat]. rewrite app_nil_r.
    rewrite (@firstn_all2 _ max_lines (repeat _ max_lines))
      by (rewrite repeat_length; lia).
    destruct max_lines; [lia|]. cbn [repeat Nat.sub]. now rewrite Nat.sub_0_r.
  - assert (truthy (join (str " ") (w :: ws')) = true) as T.
    { inversion Hw as [|? ? [Hne _] _]; subst.
      destruct w as [|c t]; [now destruct Hne|].
      now destruct ws'. }
    rewrite T. cbn [andb length].
    assert ((0 <? max_lines) = true) as -> by (now apply Nat.ltb_lt).
    etransitivity;
      [apply (pad_twice ([] ++ [join (str " ") (w :: ws')]) [] max_lines);
       cbn [app length]; lia|].
    cbn [app length]. reflexivity.
Qed.

End CellFacts.

(** ** The PostValue segmenter *)

Module PostSegmentFacts.
Import TableSpec PostSegmentSpec TableFacts.

Lemma extended_nil c : extended c [] = c.
Proof. destruct c. unfold extended. cbn. now rewrite app_nil_r. Qed.

Lemma extended_cons c l more :
  extended (mkRaw (rb_date c) (rb_value_date c) (rb_lines c ++ [l])) more
  = extended c (l :: more).
Proof. unfold extended. cbn. now rewrite <- app_assoc. Qed.

(** Inside the table, the loop reads the lines as one pass does. *)
Lemma run_in_table lines : forall cur raw,
  blocks_of (fold_left seg_step lines (mkSeg true true cur raw))
  = raw
      ++ match cur with
         | Some c => [extended c (post_continuation lines)]
         | None => []
         end
      ++ post_blocks lines.
Proof.
  induction lines as [|l lines IH]; intros cur raw.
  - cbn [fold_left post_continuation post_blocks]. unfold blocks_of.
    cbn [current transactions_raw]. destruct cur as [c|]; cbn [flush].
    + now rewrite extended_nil, app_nil_r.
    + now rewrite app_nil_r.
  - cbn [fold_left post_continuation post_blocks].
    unfold seg_step at 2. unfold passed_over, header_line, columns_line.
    cbn [header_seen in_table current transactions_raw andb negb].
    destruct (contains (str "POST DATE") (upper l)
              && contains (str "VALUE DATE") (upper l)
              && contains (str "DESCRIPTION") (upper l))%bool;
      [cbn [orb]; apply IH|].
    destruct (contains (str "DEBIT") (upper l)
              && contains (str "CREDIT") (upper l)
              && contains (str "BALANCE") (upper l))%bool;
      [cbn [orb]; apply IH|].
    cbn [orb]. unfold Re.matches.
    destruct (Re.match_ date_line_pattern l) as [m|].
    + rewrite IH. destruct cur as [c|]; cbn [flush].
      * rewrite extended_nil. unfold extended at 1. cbn [rb_date rb_value_date rb_lines].
        now rewrite <- !app_assoc.
      * unfold extended. cbn [rb_date rb_value_date rb_lines app].
        reflexivity.
    + destruct (startswith (str "page") (lower l)); [apply IH|].
      destruct cur as [c|]; rewrite IH; [|reflexivity].
      now rewrite extended_cons.
Qed.

Lemma seg_step_before st line :
  opens_table line = false -> in_table st = false ->
  seg_step st line
  = mkSeg (header_seen st || header_line line) false (current st)
      (transactions_raw st).
Proof.
  unfold opens_table, header_line, columns_line, seg_step.
  intros H H1.
  destruct (contains (str "POST DATE") (upper line)
            && contains (str "VALUE DATE") (upper line)
            && contains (str "DESCRIPTION") (upper line))%bool.
  - rewrite H1, orb_true_r. reflexivity.
  - cbn [negb] in H. rewrite andb_true_r in H. rewrite H, andb_false_r.
    rewrite H1, orb_false_r. cbn [negb].
    destruct st as [hs it cu tr].
    cbn [header_seen in_table current transactions_raw] in *.
    now subst.
Qed.

Lemma run_before lines : forall hs,
  forallb (fun l => negb (opens_table l)) lines = true ->
  fold_left seg_step lines (mkSeg hs false None [])
  = mkSeg (hs || existsb header_line lines) false None [].
Proof.
  induction lines as [|l lines IH]; intros hs H.
  - cbn [fold_left existsb]. now rewrite orb_false_r.
  - cbn [forallb] in H. apply andb_true_iff in H. destruct H as [Hl H].
    apply negb_true_iff in Hl. cbn [fold_left existsb].
    rewrite seg_step_before by (exact Hl || reflexivity).
    cbn [header_seen current transactions_raw].
    rewrite IH by exact H. now rewrite orb_assoc.
Qed.

Lemma seg_step_opens line cur raw :
  opens_table line = true ->
  seg_step (mkSeg true false cur raw) line = mkSeg true true cur raw.
Proof.
  unfold opens_table, header_line, columns_line, seg_step.
  intros H. apply andb_true_iff in H. destruct H as [H1 H2].
  apply negb_true_iff in H2. rewrite H2, H1. reflexivity.
Qed.

Lemma segment_table before columns body :
  forallb (fun l => negb (opens_table l)) before = true ->
  existsb header_line before = true ->
  opens_table columns = true ->
  post_value_segment (before ++ columns :: body) = post_blocks body.
Proof.
  intros H1 H2 H3. unfold post_value_segment, seg_init.
  rewrite fold_left_app, run_before by exact H1.
  rewrite H2. cbn [orb fold_left]. rewrite seg_step_opens by exact H3.
  fold (blocks_of (fold_left seg_step body (mkSeg true true None []))).
  now rewrite run_in_table.
Qed.

End PostSegmentFacts.

(** ** One record for each row *)

Module DateFacts.
Import DateSpec SegmentSpec PostSegmentSpec AmountFacts ParseFacts
  StripFacts SegmentFacts.

Lemma mapM_related {A B} (f : A -> result B) (R : A -> B -> Prop) :
  (forall x, exists y, f x = Return y /\ R x y) ->
  forall xs, exists ys, mapM f xs = Return ys /\ Forall2 R xs ys.
Proof.
  intros Hf. induction xs as [|x xs [ys [E HR]]].
  - exists []. split; [reflexivity | constructor].
  - destruct (Hf x) as [y [Ey Ry]]. exists (y :: ys).
    cbn [mapM]. rewrite Ey, E. split; [reflexivity | now constructor].
Qed.

Lemma Forall2_map_eq {A B C} (g : A -> C) (h : B -> C) xs ys :
  Forall2 (fun x y => h y = g x) xs ys -> map h ys = map g xs.
Proof. induction 1; cbn [map]; congruence. Qed.

Lemma post_value_block_dates block :
  exists t, post_value_block block = Return t /\
            dates t = (rb_date block, rb_value_date block).
Proof.
  unfold post_value_block, dates. classify;
    (eexists; split; reflexivity).
Qed.

Lemma txn_value_block_dates_tail bal bal_tok txn_tok desc_part d1 d2 :
  exists t,
    (let '(cheque_ref, desc_main) := split_reference desc_part in
     let desc_main :=
       strip (Re.sub (Re.plus Re.space) (fun _ => str " ") desc_main) in
     let '(desc_line1, desc_line2) := split_description desc_main in
     '(debit, credit, orig_debit_text, orig_credit_text) <-
       classify_movement txn_tok desc_main cheque_ref ;;
     Return (mkTxn d1 d2 (make_description desc_line1 desc_line2)
               desc_line1 desc_line2 cheque_ref debit credit bal
               orig_debit_text orig_credit_text bal_tok))
    = Return t /\ dates t = (d1, d2).
Proof.
  destruct (split_reference desc_part) as [cheque_ref desc_main].
  cbv zeta.
  destruct (split_description
              (strip (Re.sub (Re.plus Re.space) (fun _ => str " ") desc_main)))
    as [l1 l2].
  destruct (classify_movement_exclusive txn_tok
              (strip (Re.sub (Re.plus Re.space) (fun _ => str " ") desc_main))
              cheque_ref)
    as [d [c [od [oc [-> _]]]]].
  cbn [bind]. eexists. split; reflexivity.
Qed.

Lemma txn_value_block_dates block :
  exists t, txn_value_block block = Return t /\
            dates t = (strip (tb_date block), strip (tb_value_date block)).
Proof.
  unfold txn_value_block.
  set (normalized := normalize_block_text _).
  destruct (rev (amount_spans txn_amt_re normalized))
    as [|[[balance_tok b_start] b_end] before].
  - cbn [bind]. apply txn_value_block_dates_tail.
  - rewrite parse_amount_rules. cbn [bind].
    destruct before as [|[[tok a] e] before'].
    + destruct (unglue_reference_total normalized b_start balance_tok)
        as [fixed ->].
      cbn [try_except bind].
      destruct fixed as [[desc_part' txn_tok']|]; cbn [bind];
        apply txn_value_block_dates_tail.
    + destruct (unglue_reference_total normalized a tok) as [fixed ->].
      cbn [try_except bind].
      destruct fixed as [[desc_part' txn_tok']|]; cbn [bind];
        apply txn_value_block_dates_tail.
Qed.

Lemma post_blocks_dates lines :
  map (fun b => (rb_date b, rb_value_date b)) (post_blocks lines)
  = post_row_dates lines.
Proof.
  induction lines as [|l lines IH]; [reflexivity|].
  cbn [post_blocks post_row_dates flat_map].
  destruct (passed_over l); [exact IH|].
  destruct (Re.match_ date_line_pattern l);
    cbn [map app rb_date rb_value_date]; now rewrite IH.
Qed.

Lemma row_dates_stripped lines :
  map (fun b => (strip (tb_date b), strip (tb_value_date b)))
    (primary_blocks lines)
  = row_dates lines.
Proof.
  induction lines as [|line after IH]; [reflexivity|].
  cbn [primary_blocks row_dates flat_map].
  destruct (Re.match_ row_start line); cbn [map app tb_date tb_value_date];
    rewrite IH; [|reflexivity].
  now rewrite !strip_idem.
Qed.

Lemma txn_value_segment_rows lines :
  row_dates lines <> [] -> txn_value_segment lines = primary_blocks lines.
Proof.
  intros H. unfold txn_value_segment. rewrite segment_primary_blocks.
  destruct (primary_blocks lines) eqn:E; [|reflexivity].
  exfalso. apply H. now rewrite <- primary_blocks_dates, E.
Qed.

End DateFacts.

(** ** Amounts that do not read *)

Module AmountEdge.
Import AmountSpec AmountSpec2 DigitFacts AmountFacts FormatFacts.

Lemma points_app a b : points (a ++ b) = points a + points b.
Proof. unfold points. now rewrite filter_app, length_app. Qed.

Lemma points_digits ds : forallb is_decimal ds = true -> points ds = 0.
Proof.
  unfold points. induction ds as [|c ds IH]; [reflexivity|].
  cbn [forallb filter]. rewrite andb_true_iff. intros [Hc H].
  assert (char_eqb c 46 = false) as ->.
  { destruct (char_eqb c 46) eqn:E; [|reflexivity].
    apply char_eqb_eq in E. subst c. discriminate. }
  now apply IH.
Qed.

Lemma span_parts p s :
  s = fst (span p s) ++ snd (span p s) /\
  forallb p (fst (span p s)) = true.
Proof.
  induction s as [|c s [IH1 IH2]]; [now split|].
  cbn [span]. destruct (p c) eqn:E; [|now split].
  destruct (span p s) as [a b]. cbn [fst snd] in *.
  split; [cbn [app]; now f_equal|]. cbn [forallb]. now rewrite E.
Qed.

(** [float] refuses a sign-less body with two points. *)
Lemma py_float_body_two_points (neg : bool) body :
  2 <= points body ->
  (let '(ip, r) := span is_decimal body in
   let '(fp, ok) :=
     match r with
     | [] => ([], true)
     | 46%N :: r' =>
         let '(fp, r'') := span is_decimal r' in (fp, negb (truthy r''))
     | _ => ([], false)
     end in
   if (ok && (truthy ip || truthy fp))%bool
   then
     Return (float_of_decimal neg (digits_val (ip ++ fp)) (length fp))
   else Raise (ValueError "could not convert string to float"))
  = Raise (ValueError "could not convert string to float").
Proof.
  intros H.
  destruct (span_parts is_decimal body) as [E D].
  destruct (span is_decimal body) as [ip r]. cbn [fst snd] in *.
  rewrite E, points_app, (points_digits ip D) in H. cbn [Nat.add] in H.
  destruct r as [|c r']; [cbn in H; lia|].
  assert (forall A (x y : A) (f : text -> A),
             c <> 46%N ->
             match c :: r' with
             | [] => x
             | 46%N :: t => f t
             | _ => y
             end = y) as Other.
  { intros A x y f Hc. destruct c as [|q]; [reflexivity|].
    do 6 (destruct q as [q|q|]; try reflexivity); try lia;
      destruct q; reflexivity || lia. }
  destruct (N.eq_dec c 46) as [->|Hc].
  - destruct (span_parts is_decimal r') as [E' D'].
    destruct (span is_decimal r') as [fp r'']. cbn [fst snd] in *.
    change (points (46%N :: r')) with (S (points r')) in H.
    rewrite E', points_app, (points_digits fp D') in H. cbn [Nat.add] in H.
    destruct r'' as [|c'' t'']; [cbn in H; lia|]. reflexivity.
  - rewrite (Other _ ([], true)
               ([], false)
               (fun t => let '(fp, r'') := span is_decimal t in
                         (fp, negb (truthy r''))) Hc).
    reflexivity.
Qed.

Lemma significant_no_space s :
  forallb (fun c => negb (is_space c)) (significant s) = true.
Proof.
  apply forallb_forall. intros c Hc. unfold significant in Hc.
  apply filter_In in Hc. destruct Hc as [_ Hc].
  now apply negb_true_iff, kept_char_not_space.
Qed.

Lemma py_float_two_points s :
  forallb (fun c => negb (is_space c)) s = true ->
  2 <= points s ->
  py_float s = Raise (ValueError "could not convert string to float").
Proof.
  intros Hs H. unfold py_float. rewrite strip_no_space by exact Hs.
  destruct s as [|c t]; [cbn in H; lia|].
  destruct (N.eq_dec c 45) as [->|N1].
  { apply (py_float_body_two_points true). exact H. }
  destruct (N.eq_dec c 43) as [->|N2].
  { apply (py_float_body_two_points false). exact H. }
  match goal with
  | |- (let '(_, _) := ?m in _) = _ =>
      replace m with (false, c :: t)
  end.
  - apply (py_float_body_two_points false). exact H.
  - destruct c as [|q]; [reflexivity|].
    do 6 (destruct q as [q|q|]; try reflexivity); try lia;
      destruct q; reflexivity || lia.
Qed.

Lemma two_points_zero s :
  2 <= points (significant s) -> _parse_amount s = Return (Finite 0%Q).
Proof.
  intros H. rewrite parse_amount_significant. unfold decimal_or_zero.
  rewrite py_float_two_points by (apply significant_no_space || exact H).
  now destruct (text_in _ _).
Qed.

Lemma parse_amount_suffix s suffix :
  significant suffix = [] -> _parse_amount (s ++ suffix) = _parse_amount s.
Proof.
  intros H. rewrite !parse_amount_significant, significant_app, H.
  now rewrite app_nil_r.
Qed.

Lemma parse_amount_parentheses s :
  _parse_amount (str "(" ++ s ++ str ")") = _parse_amount (str "-" ++ s).
Proof.
  rewrite !parse_amount_significant, !significant_app.
  change (significant (str ")")) with (@nil char).
  now rewrite app_nil_r.
Qed.

End AmountEdge.

(** ** Blocks with few amounts *)

Module BlockFacts.
Import BlockSpec RecordSpec AmountFacts ParseFacts.

Lemma post_block_no_amount block :
  post_amounts block = [] ->
  post_value_block block
  = Return (mkTxn (rb_date block) (rb_value_date block) [] [] [] []
              0%Q 0%Q 0%Q [] [] []).
Proof.
  unfold post_amounts, post_merged, post_value_block. intros ->.
  reflexivity.
Qed.

Lemma post_block_one_amount block tok a e :
  post_amounts block = [(tok, a, e)] ->
  exists t,
    post_value_block block = Return t /\
    reads_as tok (balance t) /\ orig_balance_text t = tok /\
    ((debit t = balance t /\ credit t = 0%Q) \/
     (credit t = balance t /\ debit t = 0%Q)).
Proof.
  unfold post_amounts, post_merged, post_value_block.
  intros ->. cbn [rev app]. classify;
    (eexists; split; [reflexivity|];
     cbn [balance debit credit orig_balance_text];
     split; [apply parse_amount_rules|]; split; [reflexivity|]; auto).
Qed.

Ltac classify_keep :=
  repeat first
    [ rewrite parse_amount_rules
    | progress cbn [bind try_except]
    | match goal with
      | |- context [match ?x with _ => _ end] =>
          let K := fresh "K" in destruct x eqn:K
      end ].

Lemma post_block_direction block :
  post_amounts block <> [] ->
  exists t,
    post_value_block block = Return t /\
    (if names_debit t
     then reads_as (movement_token (post_amounts block)) (debit t)
          /\ credit t = 0%Q
     else reads_as (movement_token (post_amounts block)) (credit t)
          /\ debit t = 0%Q).
Proof.
  unfold post_amounts, post_merged, post_value_block, movement_token,
    names_debit.
  intros H.
  destruct (rev (amount_spans amount_token_re _))
    as [|[[btok bs] be] [|[[tok a] e] before]] eqn:E.
  - exfalso. apply H. apply (f_equal (@rev _)) in E.
    now rewrite rev_involutive in E.
  - classify_keep;
      (eexists; split; [reflexivity|];
       cbn [description_line1 description_line2 debit credit];
       match goal with
       | K : existsb _ post_debit_keys = _ |- _ => rewrite K
       end;
       split; [apply parse_amount_rules | reflexivity]).
  - classify_keep;
      (eexists; split; [reflexivity|];
       cbn [description_line1 description_line2 debit credit];
       match goal with
       | K : existsb _ post_debit_keys = _ |- _ => rewrite K
       end;
       split; [apply parse_amount_rules | reflexivity]).
Qed.

End BlockFacts.

(** ** What the renderer reads *)

Module ShownFacts.
Import ShownSpec RenderFacts.

Lemma render_row_shown layout r t t' :
  shown t = shown t' -> render_row layout r t = render_row layout r t'.
Proof.
  destruct t as [d v ds l1 l2 cr db cd bl od oc ob].
  destruct t' as [d' v' ds' l1' l2' cr' db' cd' bl' od' oc' ob'].
  unfold shown.
  cbn [date value_date description_line1 description_line2 cheque_ref
       debit credit].
  intros H. injection H as -> -> -> -> -> -> ->. reflexivity.
Qed.

Lemma render_rows_shown layout : forall txns txns' r,
  map shown txns = map shown txns' ->
  render_rows layout r txns = render_rows layout r txns'.
Proof.
  induction txns as [|t txns IH]; intros [|t' txns'] r H;
    try discriminate; [reflexivity|].
  cbn [map] in H.
  assert (shown t = shown t') as Ht
    by exact (f_equal (fun l => hd (shown t) l) H).
  apply (f_equal (@tl _)) in H. cbn [tl] in H.
  rewrite !render_rows_cons, (render_row_shown layout r t t' Ht).
  now rewrite (IH txns' _ H).
Qed.

Lemma render_pages_shown layout k : forall fuel txns txns' r,
  map shown txns = map shown txns' ->
  render_pages fuel layout k r txns = render_pages fuel layout k r txns'.
Proof.
  induction fuel as [|fuel IH]; intros txns txns' r H; [reflexivity|].
  destruct txns as [|t txns], txns' as [|t' txns'];
    try discriminate; [reflexivity|].
  set (a := t :: txns) in *. set (b := t' :: txns') in *.
  assert (map shown (firstn k a) = map shown (firstn k b)) as Hf
    by (now rewrite <- !firstn_map, H).
  assert (map shown (skipn k a) = map shown (skipn k b)) as Hs
    by (now rewrite <- !skipn_map, H).
  assert (truthy_list (skipn k a) = truthy_list (skipn k b)) as Ht.
  { destruct (skipn k a), (skipn k b); try discriminate; reflexivity. }
  unfold a, b. cbn [render_pages]. fold a. fold b.
  rewrite (render_rows_shown layout _ _ r Hf).
  destruct (render_rows layout r (firstn k b)) as [r1 rows].
  rewrite (IH _ _ r1 Hs), Ht. reflexivity.
Qed.

Lemma generate_shown lay m m' txns txns' id :
  shown_meta m = shown_meta m' ->
  map shown txns = map shown txns' ->
  generate_pdf_from_data (mkStatement lay (mkParsed m txns) id)
  = generate_pdf_from_data (mkStatement lay (mkParsed m' txns') id).
Proof.
  intros Hm Ht. unfold generate_pdf_from_data, renderer_layout.
  cbn [data meta transactions stmt_layout stmt_id].
  destruct m as [n1 n2 n3 n4 n5 n6], m' as [n1' n2' n3' n4' n5' n6'].
  unfold shown_meta in Hm.
  cbn [account_name account_number period opening_balance layout] in *.
  injection Hm as -> -> -> -> ->.
  assert (length txns = length txns') as ->.
  { apply (f_equal (@length _)) in Ht. now rewrite !length_map in Ht. }
  now rewrite (render_pages_shown _ _ _ txns txns' _ Ht).
Qed.

End ShownFacts.

(** ** Pages of clean lines *)

Module PageTextFacts.
Import LineSpec PageTextSpec StripFacts.

Lemma splitlines_go_line : forall l cur rest,
  forallb (fun c => negb (is_linebreak c)) l = true ->
  splitlines_go cur false (l ++ 10%N :: rest)
  = (rev cur ++ l) :: splitlines_go [] false rest.
Proof.
  induction l as [|c l IH]; intros cur rest H.
  - cbn [app splitlines_go andb]. now rewrite app_nil_r.
  - cbn [forallb] in H. apply andb_true_iff in H. destruct H as [Hc H].
    apply negb_true_iff in Hc.
    cbn [app splitlines_go andb]. rewrite Hc, IH by exact H.
    cbn [rev]. now rewrite <- app_assoc.
Qed.

Lemma splitlines_go_last : forall l cur,
  forallb (fun c => negb (is_linebreak c)) l = true ->
  rev cur ++ l <> [] ->
  splitlines_go cur false l = [rev cur ++ l].
Proof.
  induction l as [|c l IH]; intros cur H Hne.
  - cbn [splitlines_go]. rewrite app_nil_r in *.
    destruct cur; [now destruct Hne | reflexivity].
  - cbn [forallb] in H. apply andb_true_iff in H. destruct H as [Hc H].
    apply negb_true_iff in Hc.
    cbn [splitlines_go andb]. rewrite Hc, IH.
    + cbn [rev]. now rewrite <- app_assoc.
    + exact H.
    + cbn [rev]. rewrite <- app_assoc. intros E.
      apply app_eq_nil in E. destruct E as [_ E]. discriminate E.
Qed.

Lemma splitlines_page lines :
  Forall clean_line lines -> splitlines (page_text lines) = lines.
Proof.
  unfold splitlines, page_text.
  induction lines as [|l lines IH]; intros H; [reflexivity|].
  inversion H as [|? ? [Hne [_ Hb]] Hrest]; subst.
  destruct lines as [|l' lines'].
  - cbn [join]. now rewrite splitlines_go_last.
  - change (join [10%N] (l :: l' :: lines'))
      with (l ++ 10%N :: join [10%N] (l' :: lines')).
    rewrite splitlines_go_line by exact Hb. cbn [rev app].
    now rewrite IH.
Qed.

Lemma clean_lines_kept lines :
  Forall clean_line lines -> filter truthy (map strip lines) = lines.
Proof.
  induction 1 as [|l lines [Hne [Ht _]] _ IH]; [reflexivity|].
  cbn [map filter]. rewrite (trimmed_strip l Ht).
  destruct l; [now destruct Hne|]. cbn [truthy]. now rewrite IH.
Qed.

Lemma extract_pages pages :
  Forall (Forall clean_line) pages ->
  _extract_all_lines (map page_text pages) = concat pages.
Proof.
  unfold _extract_all_lines.
  induction 1 as [|p pages Hp _ IH]; [reflexivity|].
  cbn [map flat_map concat]. rewrite IH. f_equal.
  rewrite splitlines_page by exact Hp. now apply clean_lines_kept.
Qed.

End PageTextFacts.

(** ** Where the rules of the specification hold *)

Module RulesFacts.
Import AmountSpec AmountSpec2 DigitFacts AmountFacts.

(** The two classes agree on a character that is no digit of another
    script. *)
Lemma plain_char c :
  implb (is_decimal c) (is_digit c) = true -> amount_char c = kept_char c.
Proof.
  intros H. unfold amount_char, kept_char.
  destruct (is_digit c) eqn:D.
  - now rewrite (is_digit_decimal c D).
  - destruct (is_decimal c); [discriminate H | reflexivity].
Qed.

Lemma plain_filter l :
  plain_digits l = true -> filter amount_char l = filter kept_char l.
Proof.
  unfold plain_digits. induction l as [|c l IH]; [reflexivity|].
  cbn [forallb filter]. rewrite andb_true_iff. intros [Hc H].
  rewrite (plain_char c Hc), (IH H). reflexivity.
Qed.

Lemma plain_upper_char c :
  implb (is_decimal c) (is_digit c) = true ->
  implb (is_decimal (upper_char c)) (is_digit (upper_char c)) = true.
Proof.
  intros H. unfold upper_char. destruct (is_lower c) eqn:L; [|exact H].
  unfold is_lower, between in L. apply andb_true_iff in L.
  rewrite !N.leb_le in L. rewrite is_decimal_low by lia.
  now destruct (is_digit (c - 32)).
Qed.

Lemma opening_upper_char c :
  negb (char_eqb c 40) = true -> negb (char_eqb (upper_char c) 40) = true.
Proof.
  intros H. unfold upper_char. destruct (is_lower c) eqn:L; [|exact H].
  unfold is_lower, between in L. apply andb_true_iff in L.
  rewrite !N.leb_le in L. apply negb_true_iff, N.eqb_neq. lia.
Qed.

(** What the first rules keep of a property of every character. *)
Lemma forallb_upper (p : char -> bool) s :
  (forall c, p c = true -> p (upper_char c) = true) ->
  forallb p s = true -> forallb p (upper s) = true.
Proof.
  intros Hp. unfold upper. induction s as [|c s IH]; [reflexivity|].
  cbn [forallb map]. rewrite !andb_true_iff. intros [Hc H].
  split; [now apply Hp | now apply IH].
Qed.

Lemma without_suffix_prefix s : exists r, s = without_suffix s ++ r.
Proof.
  unfold without_suffix.
  assert (H : forall l u, u = rev l ->
    exists r, u = match l with
                  | 82%N :: 67%N :: l' => rev l'
                  | 82%N :: 68%N :: l' => rev l'
                  | _ => u
                  end ++ r).
  { intros l u ->. destruct l as [|a [|b l]].
    - exists []. now rewrite app_nil_r.
    - destruct a as [|p]; [exists []; now rewrite app_nil_r|].
      do 7 (try (destruct p as [p|p|];
                 try (exists []; now rewrite app_nil_r))).
    - assert (exists r, rev (a :: b :: l) = rev l ++ r) as Cut.
      { exists [b; a]. cbn [rev]. now rewrite <- app_assoc. }
      destruct a as [|p];
        [destruct b; exists []; now rewrite app_nil_r|].
      do 7 (try (destruct p as [p|p|];
                 try (destruct b; exists []; now rewrite app_nil_r))).
      destruct b as [|p]; [exists []; now rewrite app_nil_r|].
      do 7 (try (destruct p as [p|p|];
                 try (exists []; now rewrite app_nil_r)));
        exact Cut. }
  apply H. symmetry. apply rev_involutive.
Qed.

Lemma forallb_without_suffix (p : char -> bool) s :
  forallb p s = true -> forallb p (without_suffix s) = true.
Proof.
  destruct (without_suffix_prefix s) as [r E]. intros H.
  rewrite E, forallb_app in H. now apply andb_true_iff in H.
Qed.

Lemma forallb_without_separators (p : char -> bool) s :
  forallb p s = true -> forallb p (without_separators s) = true.
Proof.
  unfold without_separators. rewrite !forallb_forall. intros H c Hc.
  apply filter_In in Hc. now apply H.
Qed.

Lemma forallb_spaces_normalized (p : char -> bool) s :
  p 32%N = true ->
  forallb p s = true -> forallb p (spaces_normalized s) = true.
Proof.
  intros H32. unfold spaces_normalized.
  induction s as [|c s IH]; [reflexivity|].
  cbn [forallb map]. rewrite !andb_true_iff. intros [Hc H].
  split; [now destruct (char_eqb c 160) | now apply IH].
Qed.

Lemma no_opening_map s :
  no_opening s = true -> map paren_to_minus s = s.
Proof.
  unfold no_opening. induction s as [|c s IH]; [reflexivity|].
  cbn [forallb map]. rewrite andb_true_iff, negb_true_iff.
  intros [Hc H]. unfold paren_to_minus at 1. now rewrite Hc, (IH H).
Qed.

Lemma no_opening_not_parenthesized s :
  no_opening s = true -> negate_parenthesized s = s.
Proof.
  destruct s as [|c s]; [reflexivity|].
  unfold no_opening. cbn [forallb]. rewrite andb_true_iff, negb_true_iff.
  intros [Hc _]. apply N.eqb_neq in Hc. unfold negate_parenthesized.
  destruct c as [|p]; [reflexivity|].
  do 6 (try (destruct p as [p|p|]; try reflexivity)).
  now destruct Hc.
Qed.

(** Without an opening parenthesis and with plain digits, the class of
    the specification keeps the significant characters. *)
Lemma plain_significant u :
  plain_digits u = true -> no_opening u = true ->
  filter amount_char u = map paren_to_minus (filter sig u).
Proof.
  intros P N. rewrite (plain_filter u P).
  rewrite <- (no_opening_map u N) at 1. apply filter_kept_paren.
Qed.

Lemma filter_sig_upper s : filter sig (upper s) = filter sig s.
Proof.
  unfold upper.
  apply (filter_map_fixed sig upper_char sig_upper upper_sig_fixed).
Qed.

Lemma rules_without_opening s :
  plain_digits s = true -> no_opening s = true ->
  amount_token_rules s = decimal_or_zero (significant s).
Proof.
  intros P N. unfold amount_token_rules. f_equal.
  set (u := spaces_normalized
              (without_separators (without_suffix (upper s)))).
  assert (plain_digits u = true) as Pu.
  { apply forallb_spaces_normalized; [reflexivity|].
    apply forallb_without_separators, forallb_without_suffix.
    apply forallb_upper; [exact plain_upper_char | exact P]. }
  assert (no_opening u = true) as Nu.
  { apply forallb_spaces_normalized; [reflexivity|].
    apply forallb_without_separators, forallb_without_suffix.
    apply forallb_upper; [exact opening_upper_char | exact N]. }
  rewrite (no_opening_not_parenthesized u Nu), (plain_significant u Pu Nu).
  unfold u. rewrite filter_sig_spaces_normalized,
    filter_sig_without_separators, filter_sig_without_suffix,
    filter_sig_upper.
  unfold significant. now rewrite filter_kept_paren.
Qed.

Lemma without_separators_app a b :
  without_separators (a ++ b) = without_separators a ++ without_separators b.
Proof. apply filter_app. Qed.

Lemma spaces_normalized_app a b :
  spaces_normalized (a ++ b) = spaces_normalized a ++ spaces_normalized b.
Proof. apply map_app. Qed.

Lemma upper_app a b : upper (a ++ b) = upper a ++ upper b.
Proof. apply map_app. Qed.

Lemma without_suffix_closed x :
  without_suffix (x ++ [41%N]) = x ++ [41%N].
Proof. unfold without_suffix. now rewrite rev_unit. Qed.

Lemma rules_parenthesized t :
  plain_digits t = true -> no_opening t = true ->
  amount_token_rules (str "(" ++ t ++ str ")")
  = decimal_or_zero (significant (str "(" ++ t ++ str ")")).
Proof.
  intros P N. unfold amount_token_rules. f_equal.
  change (str "(") with [40%N]. change (str ")") with [41%N].
  assert (plain_digits (unspaced t) = true) as Pu.
  { apply forallb_spaces_normalized; [reflexivity|].
    apply forallb_without_separators.
    apply forallb_upper; [exact plain_upper_char | exact P]. }
  assert (no_opening (unspaced t) = true) as Nu.
  { apply forallb_spaces_normalized; [reflexivity|].
    apply forallb_without_separators.
    apply forallb_upper; [exact opening_upper_char | exact N]. }
  rewrite !upper_app. change (upper [40%N]) with [40%N].
  change (upper [41%N]) with [41%N].
  rewrite app_assoc, without_suffix_closed, <- app_assoc.
  rewrite !without_separators_app, !spaces_normalized_app.
  change (spaces_normalized (without_separators [40%N])) with [40%N].
  change (spaces_normalized (without_separators [41%N])) with [41%N].
  fold (unspaced t). cbn [app].
  unfold negate_parenthesized. rewrite rev_unit, rev_involutive.
  cbn [filter]. change (amount_char 45) with true. cbv iota.
  rewrite (plain_significant _ Pu Nu).
  unfold unspaced. rewrite filter_sig_spaces_normalized,
    filter_sig_without_separators, filter_sig_upper.
  unfold significant. cbn [map filter].
  change (kept_char (paren_to_minus 40)) with true. cbv iota.
  change (paren_to_minus 40) with 45%N. f_equal.
  rewrite map_app, filter_app. cbn [map filter].
  change (kept_char (paren_to_minus 41)) with false. cbv iota.
  rewrite app_nil_r. now rewrite filter_kept_paren.
Qed.

End RulesFacts.

(* ================================================================== *)
(** * Further properties of the code *)

(** ** Lines *)

Import LineSpec.

(** X1.  Every line the extraction delivers is not empty, has no white
    space at either end and no line break inside; so has every line
    after the normalisation of split dates, which are the lines both
    parsers read. *)
Theorem extracted_lines_are_clean :
  forall file_obj : document,
    Forall clean_line (_extract_all_lines file_obj) /\
    Forall clean_line
      (_normalize_multiline_dates (_extract_all_lines file_obj)).
Proof.
  intros file_obj.
  pose proof (ExtractFacts.extracted_lines_clean file_obj) as H.
  split; [exact H | now apply NormMore.normalize_clean].
Qed.

(** X2.  The normalisation of split dates only joins neighbouring
    lines with a space: the lines joined by spaces give the same text
    before and after, and there are never more lines after than
    before. *)
Theorem normalize_keeps_text :
  forall lines : list text,
    join (str " ") (_normalize_multiline_dates lines)
      = join (str " ") lines /\
    length (_normalize_multiline_dates lines) <= length lines.
Proof.
  intros lines. split;
    [apply NormMore.normalize_join | apply NormMore.normalize_length].
Qed.

(** X3.  Lines among which none is a year alone (four digits) are left
    as they are by the normalisation. *)
Theorem normalize_without_year_lines :
  forall lines : list text,
    forallb (fun l => negb (Re.matches year_re l)) lines = true ->
    _normalize_multiline_dates lines = lines.
Proof.
  intros lines H. apply NormMore.normalize_no_year.
  apply Forall_forall. intros l Hl.
  rewrite forallb_forall in H. now apply negb_true_iff, H.
Qed.

Lemma normalize_without_year_lines_witness :
  _normalize_multiline_dates [str "01 Apr"; str "ATM WDL 200.00"; str "12"]
  = [str "01 Apr"; str "ATM WDL 200.00"; str "12"].
Proof.
  apply (normalize_without_year_lines
           [str "01 Apr"; str "ATM WDL 200.00"; str "12"]).
  vm_compute. reflexivity.
Defined.

(** ** Amounts *)

Import AmountSpec2.

(** X4.  The amount read in a token depends on its digits (the
    decimal digits of every script), points, minus signs and opening
    parentheses only, in their order, an opening parenthesis counting
    as a minus sign: the result is the double nearest to the decimal
    these characters write, and 0.0 when they write none.  Letters,
    commas, spaces, currency signs and closing parentheses are of no
    effect, wherever they stand. *)
Theorem parse_amount_reads_significant :
  forall token : text,
    _parse_amount token
    = Return (AmountSpec.decimal_or_zero (significant token)).
Proof. exact AmountFacts.parse_amount_significant. Qed.

(** X29.  Where the rules of the specification hold.  For a token
    whose decimal digits are all among [0] to [9] and that has no
    opening parenthesis, [_parse_amount] returns the value the rules
    of the specification give, in their words and order; and so it
    does for such a token written between parentheses. *)
Theorem rules_hold_on_plain_tokens :
  forall token : text,
    plain_digits token = true -> no_opening token = true ->
    _parse_amount token = Return (AmountSpec.amount_token_rules token) /\
    _parse_amount (str "(" ++ token ++ str ")")
    = Return (AmountSpec.amount_token_rules (str "(" ++ token ++ str ")")).
Proof.
  intros token P N. split.
  - rewrite (RulesFacts.rules_without_opening token P N).
    apply AmountFacts.parse_amount_significant.
  - rewrite (RulesFacts.rules_parenthesized token P N).
    apply AmountFacts.parse_amount_significant.
Qed.

Lemma rules_hold_on_plain_tokens_witness :
  _parse_amount (str "1,234.50CR")
    = Return (AmountSpec.amount_token_rules (str "1,234.50CR")) /\
  _parse_amount (str "(" ++ str "1,234.50CR" ++ str ")")
  = Return
      (AmountSpec.amount_token_rules
         (str "(" ++ str "1,234.50CR" ++ str ")")).
Proof.
  apply (rules_hold_on_plain_tokens (str "1,234.50CR"));
    vm_compute; reflexivity.
Defined.

(** X5.  What the renderer prints reads back: for an amount that is a
    whole number of hundredths, the two-decimal display with its
    separators, with or without the [CR] suffix of the layout, and the
    text of a debit or credit cell (empty for a zero), are read by
    [_parse_amount] as that amount, that is as the double nearest to
    it. *)
Theorem printed_amount_reads_back :
  forall (x : Q) (z : Z) (layout : text),
    (x == hundredths z)%Q ->
    _parse_amount (format_2f (Finite x) ++ cr_suffix layout)
      = Return (float_of_hundredths z) /\
    _parse_amount (amount_cell_text (Finite x))
      = Return (float_of_hundredths z).
Proof.
  intros x z layout E.
  pose proof (FormatFacts.displayed_hundredths_eq x z E) as D.
  assert (S : (Qnum x <? 0)%Z = (z <? 0)%Z).
  { unfold Qeq, hundredths in E. cbn [Qnum Qden] in E.
    destruct (Qnum x <? 0)%Z eqn:A, (z <? 0)%Z eqn:B; try reflexivity;
      rewrite ?Z.ltb_lt, ?Z.ltb_ge in *; lia. }
  split.
  - cbn [format_2f].
    rewrite FormatFacts.fixed_readback
      by apply FormatFacts.significant_cr.
    now rewrite D, S.
  - unfold amount_cell_text. cbn [is_zero].
    destruct (Qeq_bool x 0) eqn:E0.
    + apply Qeq_bool_eq in E0. rewrite E0 in E.
      assert (z = 0%Z) as ->.
      { unfold Qeq, hundredths in E. cbn [Qnum Qden] in E. lia. }
      reflexivity.
    + cbn [format_2f]. rewrite <- (app_nil_r (fixed_2 x)).
      rewrite FormatFacts.fixed_readback by reflexivity.
      now rewrite D, S.
Qed.

Lemma printed_amount_reads_back_witness :
  _parse_amount (format_2f (Finite (123450 # 100)) ++ cr_suffix SBI_POST_VALUE)
    = Return (float_of_hundredths 123450) /\
  _parse_amount (amount_cell_text (Finite (123450 # 100)))
    = Return (float_of_hundredths 123450).
Proof.
  apply (printed_amount_reads_back (123450 # 100) 123450 SBI_POST_VALUE).
  reflexivity.
Defined.


(** X28.  The floats the parsers make read back: for an amount of [z]
    hundredths below 10^13, the float that holds it (the double
    nearest to it, which is what [_parse_amount] reads in its decimal)
    is printed by the renderer with the two decimals of the amount,
    and both the balance display, with or without the [CR] suffix of
    the layout, and the text of a debit or credit cell are read by
    [_parse_amount] as this float again. *)
Theorem parsed_amount_round_trip :
  forall (z : Z) (layout : text),
    (Z.abs z < 10 ^ 15)%Z ->
    _parse_amount (format_2f (float_of_hundredths z) ++ cr_suffix layout)
      = Return (float_of_hundredths z) /\
    _parse_amount (amount_cell_text (float_of_hundredths z))
      = Return (float_of_hundredths z).
Proof.
  intros z layout Hz. split.
  - apply FormatFacts.hundredths_readback;
      [exact Hz | apply FormatFacts.significant_cr].
  - unfold amount_cell_text.
    destruct (is_zero (float_of_hundredths z)) eqn:E.
    + destruct (Z.eq_dec z 0) as [->|Nz]; [reflexivity|].
      destruct (FormatFacts.nearest_hundredths z) as (q & Eq & Sg & D);
        [lia|].
      rewrite (FormatFacts.float_of_hundredths_nearest z Nz), Eq in E.
      cbn [is_zero] in E. apply Qeq_bool_eq in E.
      rewrite (FormatFacts.displayed_hundredths_eq q 0) in D; [lia|].
      now rewrite E.
    + rewrite <- (app_nil_r (format_2f _)).
      now apply FormatFacts.hundredths_readback.
Qed.

Lemma parsed_amount_round_trip_witness :
  _parse_amount (format_2f (float_of_hundredths 123450)
                   ++ cr_suffix SBI_POST_VALUE)
    = Return (float_of_hundredths 123450) /\
  _parse_amount (amount_cell_text (float_of_hundredths 123450))
    = Return (float_of_hundredths 123450).
Proof.
  apply (parsed_amount_round_trip 123450 SBI_POST_VALUE).
  reflexivity.
Defined.

(** ** Pages *)

Import RenderSpec PageSpec.

(** X7.  The transaction pages of a rendering: there are 16 rows a
    page in the TxnValue layout and 24 in the others; the story is the
    account table, if any, followed by one table for each page, with a
    page break between two tables and nowhere else; the number of
    tables is the number of transactions divided by the rows a page,
    rounded up; every table begins with the header row, holds between
    one and that many body rows, and ends with the blank footer row in
    the PostValue layout only; every table but the last is full. *)
Theorem story_pages :
  forall s : Statement,
    let L := renderer_layout s in
    let k := ROWS_PER_PAGE L in
    let the_story := story (generate_pdf_from_data s) in
    let tables := transaction_tables the_story in
    k = (if text_eqb L SBI_TXN_VALUE then 16 else 24) /\
    (exists front,
        the_story = front ++ separated (map (fun td => Table td 1) tables)
        /\ (front = [] \/ exists data, front = [Table data 0])) /\
    length tables = pages_needed (length (transactions (data s))) k /\
    Forall (page_ok L k) tables /\
    Forall (fun td => length (table_body L td) = k) (removelast tables).
Proof.
  intros s L k the_story tables.
  split; [apply PageFacts.rows_per_page_value|].
  subst the_story tables. unfold generate_pdf_from_data.
  fold L. fold k.
  destruct (PageFacts.render_pages_structure L k
              (RenderFacts.rows_per_page_pos L)
              (length (transactions (data s))) (transactions (data s))
              (or_zero (opening_balance (meta (data s))))
              (Nat.le_refl _))
    as (tbs & E1 & E2 & E3 & E4).
  destruct (render_pages (length (transactions (data s))) L k
              (or_zero (opening_balance (meta (data s))))
              (transactions (data s))) as [final pages].
  cbn [snd] in E1. cbn [story]. subst pages.
  set (front :=
         if (truthy (account_name (meta (data s)))
             || truthy (account_number (meta (data s)))
             || truthy (period (meta (data s))))%bool
         then [meta_table L (or_zero (opening_balance (meta (data s))))
                 (account_name (meta (data s)))
                 (account_number (meta (data s)))
                 (period (meta (data s)))]
         else []).
  assert (transaction_tables
            (front ++ separated (map (fun td => Table td 1) tbs)) = tbs)
    as T.
  { unfold transaction_tables. rewrite flat_map_app.
    fold (transaction_tables
            (separated (map (fun td => Table td 1) tbs))).
    rewrite PageFacts.transaction_tables_separated.
    unfold front. now destruct (_ || _)%bool. }
  rewrite T. split; [|now repeat split].
  exists front. split; [reflexivity|].
  unfold front. destruct (_ || _)%bool; [right|left; reflexivity].
  eexists. reflexivity.
Qed.

(** ** Records *)

Import RecordSpec.

(** X8.  What a record keeps of its source text agrees with its
    numbers.  Both parsers return for every document.  In every record
    of the TxnValue parser the kept balance, debit and credit texts
    read, by [_parse_amount], as the balance, the debit and the
    credit.  In every record of the PostValue parser the kept balance
    text reads as the balance, and the reference and the debit and
    credit texts are empty.  In both, the description is the first
    line, and under it the second when there is one. *)
Theorem parsed_records_keep_texts :
  forall file_obj : document,
    (exists ps, _parse_sbi_post_value file_obj = Return ps
                /\ Forall post_record (transactions ps)) /\
    (exists ps, _parse_sbi_txn_value file_obj = Return ps
                /\ Forall txn_record (transactions ps)).
Proof.
  intros file_obj. split;
    [apply RecordFacts.post_value_records
    | apply RecordFacts.txn_value_records].
Qed.

(** ** Rows *)

Import SegmentSpec PostSegmentSpec TableSpec DateSpec.

(** X9.  The first pair of nested loops of the TxnValue parser makes
    exactly one block for each line that starts a row (two dates at
    its beginning), in order: the block has the two dates of the line,
    stripped, and as text the rest of the line followed by the lines
    up to the next line that starts a row or stops the table, joined
    by spaces and stripped.  Lines before the first row, and lines
    from a stop line to the next row, are in no block. *)
Theorem txn_value_rows_one_pass :
  forall lines : list text,
    segment_primary lines = primary_blocks lines /\
    map (fun b => (tb_date b, tb_value_date b)) (segment_primary lines)
      = row_dates lines.
Proof.
  intros lines. rewrite SegmentFacts.segment_primary_blocks.
  split; [reflexivity | apply SegmentFacts.primary_blocks_dates].
Qed.

(** X10.  The PostValue segmenter reads nothing before the table is
    open and, from there, makes exactly one block for each dated line,
    in order.  When no line before [columns] can open the table, one
    of them is the header line, and [columns] names the amount columns
    without being the header line, the blocks are those of the lines
    after [columns]: each has the two dates of its line, then what
    follows them on the line and the lines up to the next dated line,
    header lines, column lines and lines beginning with [page]
    left out. *)
Theorem post_value_rows_one_pass :
  forall (before : list text) (columns : text) (body : list text),
    forallb (fun l => negb (opens_table l)) before = true ->
    existsb header_line before = true ->
    opens_table columns = true ->
    post_value_segment (before ++ columns :: body) = post_blocks body /\
    map (fun b => (rb_date b, rb_value_date b))
      (post_value_segment (before ++ columns :: body))
      = post_row_dates body.
Proof.
  intros before columns body H1 H2 H3.
  rewrite PostSegmentFacts.segment_table by assumption.
  split; [reflexivity | apply DateFacts.post_blocks_dates].
Qed.

Lemma post_value_rows_one_pass_witness :
  post_value_segment
    ([Samples.post_header] ++ Samples.table_start
       :: [Samples.no_opening_row; str "Page 1"; str "second line"])
  = post_blocks [Samples.no_opening_row; str "Page 1"; str "second line"].
Proof.
  apply (post_value_rows_one_pass [Samples.post_header] Samples.table_start
           [Samples.no_opening_row; str "Page 1"; str "second line"]);
    vm_compute; reflexivity.
Defined.

(** X11.  A PostValue statement without a line that names the amount
    columns apart from the header line has no transactions: when every
    line with DEBIT, CREDIT and BALANCE also has POST DATE, VALUE DATE
    and DESCRIPTION, as in a header printed on one line, the table is
    never entered and the parser returns an empty list. *)
Theorem one_line_header_gives_no_rows :
  forall file_obj : document,
    forallb (fun l => negb (opens_table l))
      (_normalize_multiline_dates (_extract_all_lines file_obj)) = true ->
    exists ps,
      _parse_sbi_post_value file_obj = Return ps /\ transactions ps = [].
Proof.
  intros file_obj H. unfold _parse_sbi_post_value.
  destruct (ParseFacts.scan_meta_total
              (_normalize_multiline_dates (_extract_all_lines file_obj)))
    as [m ->].
  cbn [bind]. rewrite TableFacts.segment_without_opening by exact H.
  cbn [mapM bind]. eexists. split; reflexivity.
Qed.

Lemma one_line_header_gives_no_rows_witness :
  exists ps,
    _parse_sbi_post_value one_line_header_doc = Return ps /\
    transactions ps = [].
Proof.
  apply (one_line_header_gives_no_rows one_line_header_doc).
  vm_compute. reflexivity.
Defined.

(** ** Metadata *)

Import MetaSpec.

(** X12.  The metadata of both parsers.  The account name is the last
    line that begins with an honorific, the account number and the
    period are read in the last line that has [Account No] and in the
    last that has [Statement From], and the opening balance is the
    last amount of the last line that begins with BROUGHT FORWARD or
    BALANCE B/F and has an amount; a field no line sets is empty, the
    opening balance 0.0.  The bank is SBI and the layout that of the
    parser.  The TxnValue parser alone replaces a zero opening balance
    by the one its first record gives. *)
Theorem metadata_last_line_wins :
  forall file_obj : document,
    let lines := _normalize_multiline_dates (_extract_all_lines file_obj) in
    let name := last_set (filter names_account lines) [] in
    let number :=
      last_set (map account_number_of
                  (filter (contains (str "Account No")) lines)) [] in
    let period :=
      last_set (map period_of
                  (filter (contains (str "Statement From")) lines)) [] in
    let opening :=
      last_set (map amount_of (flat_map opening_of lines)) 0%Q in
    exists post txn,
      _parse_sbi_post_value file_obj = Return post /\
      _parse_sbi_txn_value file_obj = Return txn /\
      meta post
        = mkMeta name number period opening (str "SBI") SBI_POST_VALUE /\
      meta txn
        = mkMeta name number period
            (backfill_opening opening (transactions txn))
            (str "SBI") SBI_TXN_VALUE.
Proof.
  intros file_obj lines name number period opening.
  unfold _parse_sbi_post_value, _parse_sbi_txn_value. fold lines.
  unfold scan_meta. rewrite MetaFacts.scan_from. cbn [bind].
  destruct (ParseFacts.mapM_total post_value_block (fun _ => True)
              (fun b => match ParseFacts.post_value_block_exclusive b with
                        | ex_intro _ t (conj E _) =>
                            ex_intro _ t (conj E I)
                        end)
              (post_value_segment lines)) as [ts1 [-> _]].
  destruct (ParseFacts.mapM_total txn_value_block (fun _ => True)
              (fun b => match ParseFacts.txn_value_block_exclusive b with
                        | ex_intro _ t (conj E _) =>
                            ex_intro _ t (conj E I)
                        end)
              (txn_value_segment lines)) as [ts2 [-> _]].
  cbn [bind]. do 2 eexists. repeat split; reflexivity.
Qed.

(** ** Opening balance *)

(** X13.  The back-fill of the TxnValue parser and the first row: when
    no line gave an opening balance and there is a first record, the
    opening balance is the balance of that record plus its debit minus
    its credit, and the running total the renderer carries after its
    first row is this opening balance minus the debit plus the credit,
    every operation in floating-point arithmetic.  The total is the
    stored balance of the record up to rounding only: for a first row
    with a debit of 0.20 and a balance of 0.10 it is
    0.10000000000000003. *)
Theorem backfill_and_first_row :
  (forall (file_obj : document) (m : MetaFields) (ps : ParsedStatement)
          (first : TransactionRecord) (rest : list TransactionRecord),
      scan_meta (_normalize_multiline_dates (_extract_all_lines file_obj))
        = Return m ->
      is_zero (mf_opening_balance m) = true ->
      _parse_sbi_txn_value file_obj = Return ps ->
      transactions ps = first :: rest ->
      opening_balance (meta ps)
        = fsub (fadd (or_zero (balance first)) (or_zero (debit first)))
            (or_zero (credit first)) /\
      carried (layout (meta ps)) (opening_balance (meta ps))
        (transactions ps) 1
        = fadd (fsub (or_zero (opening_balance (meta ps)))
                  (or_zero (debit first)))
            (or_zero (credit first))) /\
  (exists ps first,
      _parse_sbi_txn_value BackfillSpec.rounding_txn_doc = Return ps /\
      hd_error (transactions ps) = Some first /\
      balance first = Finite (3602879701896397 # 36028797018963968)%Q /\
      carried (layout (meta ps)) (opening_balance (meta ps))
        (transactions ps) 1
        = Finite (1801439850948199 # 18014398509481984)%Q).
Proof.
  split.
  - intros file_obj m ps first rest Hm H0 Hp Ht.
    unfold _parse_sbi_txn_value in Hp. rewrite Hm in Hp. cbn [bind] in Hp.
    destruct (mapM txn_value_block _) as [ts|e]; [|discriminate Hp].
    cbn [bind] in Hp. injection Hp as <-.
    cbn [transactions meta opening_balance layout] in *. subst ts.
    unfold backfill_opening. rewrite H0. split; reflexivity.
  - do 2 eexists. split; [vm_compute; reflexivity|].
    repeat split; vm_compute; reflexivity.
Qed.

Lemma backfill_and_first_row_witness :
  exists ps first,
    _parse_sbi_txn_value Samples.no_opening_txn_doc = Return ps /\
    hd_error (transactions ps) = Some first /\
    opening_balance (meta ps)
      = fsub (fadd (or_zero (balance first)) (or_zero (debit first)))
          (or_zero (credit first)).
Proof.
  eexists. eexists.
  split; [vm_compute; reflexivity|].
  split; [reflexivity|].
  eapply (proj1 backfill_and_first_row Samples.no_opening_txn_doc).
  - vm_compute. reflexivity.
  - vm_compute. reflexivity.
  - vm_compute. reflexivity.
  - reflexivity.
Defined.

(** ** Description cells *)

Import CellSpec.

(** X14.  For a positive number of lines, [_make_three_line_cells]
    returns exactly that many lines; and when the text has at least
    that many segments between slashes, no segment is lost: the lines
    joined by slashes are the segments joined by slashes. *)
Theorem description_cells_shape :
  forall (text : text) (max_lines approx_chars : nat),
    0 < max_lines ->
    length (_make_three_line_cells text max_lines approx_chars)
      = max_lines /\
    (text <> [] -> max_lines <= length (segments text) ->
     join (str "/") (_make_three_line_cells text max_lines approx_chars)
       = join (str "/") (segments text)).
Proof.
  intros text max_lines approx_chars Hm. split.
  - apply CellFacts.make_cells_length.
  - intros Ht Hs. now apply CellFacts.make_cells_join.
Qed.

Lemma description_cells_shape_witness :
  length (_make_three_line_cells (str "UPI/DR/4512/SHOP/SBIN") 3 32) = 3 /\
  (str "UPI/DR/4512/SHOP/SBIN" <> [] ->
   3 <= length (segments (str "UPI/DR/4512/SHOP/SBIN")) ->
   join (str "/") (_make_three_line_cells (str "UPI/DR/4512/SHOP/SBIN") 3 32)
     = join (str "/") (segments (str "UPI/DR/4512/SHOP/SBIN"))).
Proof.
  apply (description_cells_shape (str "UPI/DR/4512/SHOP/SBIN") 3 32).
  lia.
Defined.

(** X15.  In every rendered row the description cell is a table of
    exactly three lines, each one paragraph, whatever the description
    and the layout. *)
Theorem description_cell_has_three_lines :
  forall (layout : text) (running : Q) (txn : TransactionRecord),
    exists rows,
      nth 2 (snd (render_row layout running txn)) PageBreak = Table rows 0 /\
      length rows = 3 /\
      Forall (fun row => exists l, row = [Paragraph l style_desc_compact])
        rows.
Proof.
  intros layout running txn. eexists. split; [reflexivity|].
  pose proof (CellFacts.description_lines_three layout txn) as H.
  rewrite firstn_all2 by lia. split.
  - now rewrite length_map.
  - apply Forall_forall. intros row Hr. apply in_map_iff in Hr.
    destruct Hr as [l [<- _]]. now exists l.
Qed.

(** ** One record for each row *)

(** X16.  The TxnValue parser returns one record for each line that
    starts a row, in order, with the two dates of the line: when the
    document has such a line, the dates of the records are the dates
    of these lines. *)
Theorem txn_value_one_record_per_row :
  forall file_obj : document,
    let lines := _normalize_multiline_dates (_extract_all_lines file_obj) in
    exists ps,
      _parse_sbi_txn_value file_obj = Return ps /\
      (row_dates lines = [] \/
       map dates (transactions ps) = row_dates lines).
Proof.
  intros file_obj lines. unfold _parse_sbi_txn_value. fold lines.
  destruct (ParseFacts.scan_meta_total lines) as [m ->]. cbn [bind].
  destruct (DateFacts.mapM_related txn_value_block
              (fun b t => dates t
                          = (strip (tb_date b), strip (tb_value_date b)))
              DateFacts.txn_value_block_dates (txn_value_segment lines))
    as [ts [-> H]].
  cbn [bind]. eexists. split; [reflexivity|]. cbn [transactions].
  destruct (row_dates lines) as [|d ds] eqn:E; [now left|]. right.
  rewrite DateFacts.txn_value_segment_rows in H by (rewrite E; discriminate).
  rewrite (DateFacts.Forall2_map_eq _ _ _ _ H).
  rewrite DateFacts.row_dates_stripped. exact E.
Qed.

(** X17.  The PostValue parser returns one record for each dated line
    of the table, in order, with the two dates of the line: when the
    lines of the document are a header line among lines that cannot
    open the table, then a line that opens it, then the body, the
    dates of the records are the dates of the dated lines of the
    body. *)
Theorem post_value_one_record_per_row :
  forall (file_obj : document) (before : list text) (columns : text)
         (body : list text),
    _normalize_multiline_dates (_extract_all_lines file_obj)
      = before ++ columns :: body ->
    forallb (fun l => negb (opens_table l)) before = true ->
    existsb header_line before = true ->
    opens_table columns = true ->
    exists ps,
      _parse_sbi_post_value file_obj = Return ps /\
      map dates (transactions ps) = post_row_dates body.
Proof.
  intros file_obj before columns body E H1 H2 H3.
  unfold _parse_sbi_post_value. rewrite E.
  destruct (ParseFacts.scan_meta_total (before ++ columns :: body))
    as [m ->].
  cbn [bind]. rewrite PostSegmentFacts.segment_table by assumption.
  destruct (DateFacts.mapM_related post_value_block
              (fun b t => dates t = (rb_date b, rb_value_date b))
              DateFacts.post_value_block_dates (post_blocks body))
    as [ts [-> H]].
  cbn [bind]. eexists. split; [reflexivity|]. cbn [transactions].
  rewrite (DateFacts.Forall2_map_eq _ _ _ _ H).
  apply DateFacts.post_blocks_dates.
Qed.

Lemma post_value_one_record_per_row_witness :
  exists ps,
    _parse_sbi_post_value Samples.no_opening_post_doc = Return ps /\
    map dates (transactions ps) = post_row_dates [Samples.no_opening_row].
Proof.
  apply (post_value_one_record_per_row Samples.no_opening_post_doc
           [Samples.post_header] Samples.table_start
           [Samples.no_opening_row]);
    vm_compute; reflexivity.
Defined.

(** ** Upload *)

(** X18.  An upload without a posted layout, or with an empty one, is
    parsed by the PostValue parser whatever the document shows: the
    layout is not detected from the text.  The statement saved has the
    records and the metadata of that parser, the posted bank (SBI
    without one) and the PostValue layout, which is the layout the
    renderer then uses. *)
Theorem upload_without_layout_is_post_value :
  forall (uploaded_file : document) (posted_bank : option text) (id : N),
    exists ps stmt,
      _parse_sbi_post_value uploaded_file = Return ps /\
      upload_statement uploaded_file posted_bank None id = Return stmt /\
      upload_statement uploaded_file posted_bank (Some []) id
        = Return stmt /\
      transactions (data stmt) = transactions ps /\
      meta (data stmt)
        = mkMeta (account_name (meta ps)) (account_number (meta ps))
            (period (meta ps)) (opening_balance (meta ps))
            (or_text posted_bank (str "SBI")) SBI_POST_VALUE /\
      renderer_layout stmt = SBI_POST_VALUE.
Proof.
  intros uploaded_file posted_bank id.
  destruct (ParseFacts.post_value_returns uploaded_file) as [ps [E _]].
  exists ps. eexists. split; [exact E|].
  unfold upload_statement. cbn [or_text truthy].
  assert (parse_pdf_to_data uploaded_file (Some SBI_POST_VALUE)
          = _parse_sbi_post_value uploaded_file) as -> by reflexivity.
  rewrite E. cbn [bind]. repeat split; reflexivity.
Qed.

(** ** Amounts that do not read as written *)

(** X19.  A [CR] or [DR] suffix does not change the amount read in a
    token, so that a debit balance is read as a positive number; and
    an amount between parentheses is read as the amount with a minus
    sign before it. *)
Theorem amount_suffix_and_parentheses :
  forall token : text,
    _parse_amount (token ++ str "CR") = _parse_amount token /\
    _parse_amount (token ++ str "DR") = _parse_amount token /\
    _parse_amount (str "(" ++ token ++ str ")")
      = _parse_amount (str "-" ++ token).
Proof.
  intros token. split; [|split].
  - now apply AmountEdge.parse_amount_suffix.
  - now apply AmountEdge.parse_amount_suffix.
  - apply AmountEdge.parse_amount_parentheses.
Qed.

(** X20.  A token with two decimal points among its significant
    characters, as two amounts printed without a space between them,
    is read as 0.0: the conversion fails and the failure is
    swallowed. *)
Theorem amount_with_two_points_is_zero :
  forall token : text,
    2 <= points (significant token) ->
    _parse_amount token = Return (Finite 0%Q).
Proof. exact AmountEdge.two_points_zero. Qed.

Lemma amount_with_two_points_is_zero_witness :
  _parse_amount (str "200.001,000.00") = Return (Finite 0%Q).
Proof.
  apply (amount_with_two_points_is_zero (str "200.001,000.00")).
  vm_compute. lia.
Defined.

(** ** Rows of the fallback *)

(** X21.  The TxnValue parser reads its rows with the second pair of
    loops only when no line starts with two dates.  These loops make
    one block for each line that begins with one date and has at least
    two words: its dates are the first two words of the line, whatever
    they are, and its text the other words followed by the lines up to
    the next line that begins with a date or stops the table. *)
Theorem txn_value_fallback_rows :
  forall lines : list text,
    segment_permissive lines = permissive_blocks lines /\
    txn_value_segment lines
      = match row_dates lines with
        | [] => permissive_blocks lines
        | _ :: _ => primary_blocks lines
        end.
Proof.
  intros lines. split;
    [apply SegmentFacts.segment_permissive_blocks
    | apply SegmentFacts.txn_value_segment_cases].
Qed.

(** ** Blocks with few amounts *)

Import BlockSpec.

(** X22.  A PostValue block without an amount gives a record with its
    dates only: balance, debit and credit are 0.0 and the description
    is empty, the text of the block being dropped.  A block with one
    amount gives that amount twice: as the balance, and as the debit
    or the credit. *)
Theorem post_block_with_few_amounts :
  forall block : RawBlock,
    match post_amounts block with
    | [] =>
        post_value_block block
        = Return (mkTxn (rb_date block) (rb_value_date block) [] [] [] []
                    0%Q 0%Q 0%Q [] [] [])
    | [(tok, _, _)] =>
        exists t,
          post_value_block block = Return t /\
          reads_as tok (balance t) /\ orig_balance_text t = tok /\
          ((debit t = balance t /\ credit t = 0%Q) \/
           (credit t = balance t /\ debit t = 0%Q))
    | _ => True
    end.
Proof.
  intros block.
  destruct (post_amounts block) as [|[[tok a] e] [|x rest]] eqn:E.
  - now apply BlockFacts.post_block_no_amount.
  - now apply (BlockFacts.post_block_one_amount block tok a e).
  - exact I.
Qed.

(** ** What the renderer reads *)

Import ShownSpec.

(** X23.  The renderer reads of a record its two dates, the two
    description lines, the reference, the debit and the credit, and of
    the metadata everything but the bank: statements that agree on
    these give the same rendering.  The [description], the stored
    [balance] and the kept original texts of a record are of no
    effect. *)
Theorem renderer_reads_shown_fields :
  forall (lay : option text) (m m' : StatementMetadata)
         (txns txns' : list TransactionRecord) (id : N),
    shown_meta m = shown_meta m' ->
    map shown txns = map shown txns' ->
    generate_pdf_from_data (mkStatement lay (mkParsed m txns) id)
    = generate_pdf_from_data (mkStatement lay (mkParsed m' txns') id).
Proof. exact ShownFacts.generate_shown. Qed.

Lemma renderer_reads_shown_fields_witness :
  generate_pdf_from_data
    (mkStatement None
       (mkParsed (mkMeta (str "Mr. A") [] [] 1200%Q (str "SBI")
                    SBI_POST_VALUE)
          [shown_sample]) 1)
  = generate_pdf_from_data
      (mkStatement None
         (mkParsed (mkMeta (str "Mr. A") [] [] 1200%Q (str "HDFC")
                      SBI_POST_VALUE)
            [shown_sample_edited]) 1).
Proof.
  apply (renderer_reads_shown_fields None
           (mkMeta (str "Mr. A") [] [] 1200%Q (str "SBI") SBI_POST_VALUE)
           (mkMeta (str "Mr. A") [] [] 1200%Q (str "HDFC") SBI_POST_VALUE)
           [shown_sample] [shown_sample_edited] 1);
    reflexivity.
Defined.

(** ** Entry point *)

Import LayoutSpec.

Lemma parsers_name_their_layout file_obj :
  (exists ps, _parse_sbi_post_value file_obj = Return ps /\
              layout (meta ps) = SBI_POST_VALUE /\
              bank (meta ps) = str "SBI") /\
  (exists ps, _parse_sbi_txn_value file_obj = Return ps /\
              layout (meta ps) = SBI_TXN_VALUE /\
              bank (meta ps) = str "SBI").
Proof.
  unfold _parse_sbi_post_value, _parse_sbi_txn_value.
  destruct (ParseFacts.scan_meta_total
              (_normalize_multiline_dates (_extract_all_lines file_obj)))
    as [m ->].
  cbn [bind].
  destruct (ParseFacts.mapM_total post_value_block ParseSpec.exclusive
              ParseFacts.post_value_block_exclusive
              (post_value_segment
                 (_normalize_multiline_dates (_extract_all_lines file_obj))))
    as [ts1 [-> _]].
  destruct (ParseFacts.mapM_total txn_value_block ParseSpec.exclusive
              ParseFacts.txn_value_block_exclusive
              (txn_value_segment
                 (_normalize_multiline_dates (_extract_all_lines file_obj))))
    as [ts2 [-> _]].
  cbn [bind]. split; eexists; repeat split; reflexivity.
Qed.

(** X24.  The outcomes of the entry point, by the layout it resolves.
    For the PostValue and the TxnValue layout it returns, and the
    metadata returned name that layout and the bank SBI.  For the
    DateDetails layout it raises [NameError].  For every other layout
    it raises [ValueError].  It has no other outcome. *)
Theorem entry_point_outcomes :
  forall (file_obj : document) (hint : option text),
    let L := resolved_layout file_obj hint in
    (L = SBI_POST_VALUE \/ L = SBI_TXN_VALUE ->
     exists ps,
       parse_pdf_to_data file_obj hint = Return ps /\
       layout (meta ps) = L /\ bank (meta ps) = str "SBI") /\
    (L = SBI_DATE_DETAILS ->
     parse_pdf_to_data file_obj hint
     = Raise (NameError "_parse_sbi_date_details")) /\
    (L <> SBI_POST_VALUE -> L <> SBI_TXN_VALUE -> L <> SBI_DATE_DETAILS ->
     parse_pdf_to_data file_obj hint = Raise (ValueError "Unsupported layout")).
Proof.
  intros file_obj hint L.
  destruct (dispatch_other_layouts file_obj hint) as (D1 & D2 & D3).
  fold L in D1, D2, D3.
  destruct (parsers_name_their_layout file_obj)
    as [(p1 & E1 & L1 & B1) (p2 & E2 & L2 & B2)].
  split; [|split].
  - intros [H | H].
    + exists p1. rewrite (D1 H), H. auto.
    + exists p2. rewrite (D2 H), H. auto.
  - intros H.
    change (parse_pdf_to_data file_obj hint)
      with (if text_eqb L SBI_POST_VALUE
            then _parse_sbi_post_value file_obj
            else if text_eqb L SBI_TXN_VALUE
            then _parse_sbi_txn_value file_obj
            else if text_eqb L SBI_DATE_DETAILS
            then Raise (NameError "_parse_sbi_date_details")
            else Raise (ValueError "Unsupported layout")).
    now rewrite H.
  - intros H1 H2 H3. apply D3. auto.
Qed.

(** ** Extraction of clean pages *)

Import PageTextSpec.

(** X25.  Extraction gives back the lines of clean pages: for pages
    whose text is lines that are not empty, have no white space at
    either end and no line break inside, one line feed between two
    lines, the lines extracted are the lines of the pages, in
    order. *)
Theorem extraction_round_trip :
  forall pages : list (list text),
    Forall (Forall clean_line) pages ->
    _extract_all_lines (map page_text pages) = concat pages.
Proof. exact PageTextFacts.extract_pages. Qed.

Lemma extraction_round_trip_witness :
  _extract_all_lines
    (map page_text
       [[Samples.post_header; Samples.table_start];
        [Samples.no_opening_row]])
  = [Samples.post_header; Samples.table_start; Samples.no_opening_row].
Proof.
  apply (extraction_round_trip
           [[Samples.post_header; Samples.table_start];
            [Samples.no_opening_row]]).
  repeat constructor; try discriminate; vm_compute; reflexivity.
Defined.

(** ** Direction of a PostValue movement *)

(** X26.  In a PostValue record made from a block with an amount, the
    movement is the amount before the last one (the only one when
    there is one), and its direction is decided by the description
    alone: it is a debit, and the credit is 0.0, when the two
    description lines, in upper case, contain WDL, UPI/DR, IMPS/DR,
    ATM WDL, POS/ or /DR/; every other movement is a credit, and the
    debit is 0.0. *)
Theorem post_value_direction_by_keywords :
  forall block : RawBlock,
    truthy_list (post_amounts block) = true ->
    exists t,
      post_value_block block = Return t /\
      (if names_debit t
       then reads_as (movement_token (post_amounts block)) (debit t)
            /\ credit t = 0%Q
       else reads_as (movement_token (post_amounts block)) (credit t)
            /\ debit t = 0%Q).
Proof.
  intros block H. apply BlockFacts.post_block_direction.
  intros E. rewrite E in H. discriminate H.
Qed.

Lemma post_value_direction_by_keywords_witness :
  exists t,
    post_value_block
      (mkRaw (str "01-04-2024") (str "02-04-2024")
         [str "NEFT TO RENT 200.00 1,000.00"]) = Return t /\
    (if names_debit t
     then reads_as
            (movement_token
               (post_amounts
                  (mkRaw (str "01-04-2024") (str "02-04-2024")
                     [str "NEFT TO RENT 200.00 1,000.00"]))) (debit t)
          /\ credit t = 0%Q
     else reads_as
            (movement_token
               (post_amounts
                  (mkRaw (str "01-04-2024") (str "02-04-2024")
                     [str "NEFT TO RENT 200.00 1,000.00"]))) (credit t)
          /\ debit t = 0%Q).
Proof.
  apply (post_value_direction_by_keywords
           (mkRaw (str "01-04-2024") (str "02-04-2024")
              [str "NEFT TO RENT 200.00 1,000.00"])).
  vm_compute. reflexivity.
Defined.

(** ** Short descriptions *)

(** X27.  A description with fewer segments between slashes than lines
    and whose words, one space between two, fit the width, is put on
    the first line, its white space made single spaces; the other
    lines are empty. *)
Theorem short_description_on_first_line :
  forall (text : text) (max_lines approx_chars : nat),
    0 < max_lines -> text <> [] ->
    length (segments text) < max_lines ->
    length (join (str " ") (words (flowed text))) <= approx_chars ->
    _make_three_line_cells text max_lines approx_chars
    = join (str " ") (words (flowed text)) :: repeat [] (max_lines - 1).
Proof. exact CellFacts.make_cells_short. Qed.

Lemma short_description_on_first_line_witness :
  _make_three_line_cells (str "ATM  WDL   cash") 3 32
  = join (str " ") (words (flowed (str "ATM  WDL   cash")))
      :: repeat [] (3 - 1).
Proof.
  apply (short_description_on_first_line (str "ATM  WDL   cash") 3 32).
  - lia.
  - discriminate.
  - vm_compute. lia.
  - vm_compute. lia.
Defined.
